(** * actAgents: the turn-based conversation state engine

    A shallow embedding of the parts of the repository that persist and
    repair conversations:

    - [core/services/state_management/chat_state_service.py]
      ([ChatStateManagerService]: turn lifecycle, history repair, windowing,
      chat state),
    - [core/services/state_management/storage_service/redis_storage.py]
      ([RedisStorage]: message log, tool-call log, state document),
    - [core/agents/common/base_agent.py] ([BaseAgent]: the tool-call
      executor).

    Python dictionaries with a fixed set of keys are records whose optional
    keys are [option] fields; the dictionaries used as maps are [gmap]s;
    coroutines are functions of the service state that return an [outcome]
    (a value, a raised exception, or a coroutine suspended for ever). *)

From stdpp Require Import gmap strings list fin_maps pretty.
From Stdlib Require Import ZArith Lia.

Local Open Scope string_scope.
Local Open Scope Z_scope.
Local Open Scope list_scope.

(** ** Messages *)

(** One element of an assistant message's ["tool_calls"] list:
    [{"id": .., "type": "function", "function": {"name": .., "arguments": ..}}],
    with the id a string, as the annotations of the turn metadata have it. *)
Record ToolCall := mkToolCall {
  tc_id : string;
  tc_name : string;
  tc_arguments : string
}.

(** A message dictionary.  A key that is absent reads as [None] through
    [msg.get(key)]; ["tool_calls"] distinguishes an absent key from an empty
    list only for dictionary equality, both are falsy. *)
Record Message := mkMessage {
  m_message_id : option string;
  m_turn_id : option string;
  m_role : option string;
  m_content : string;
  m_tool_calls : option (list ToolCall);
  m_tool_call_id : option string;
  m_name : option string;
  m_error : option string;
  m_timestamp : option string
}.

#[global] Instance ToolCall_eq_dec : EqDecision ToolCall.
Proof. solve_decision. Defined.

#[global] Instance Message_eq_dec : EqDecision Message.
Proof. solve_decision. Defined.

(** Python truthiness of [d.get(key)] for a string-valued key: the key is
    present and the string is not empty. *)
Definition truthy (o : option string) : bool :=
  match o with
  | Some s => negb (String.eqb s "")
  | None => false
  end.

(** [bool(msg.get("tool_calls"))]: the list is present and not empty. *)
Definition has_tool_calls (msg : Message) : bool :=
  match m_tool_calls msg with
  | Some (_ :: _) => true
  | _ => false
  end.

Definition role_is (r : string) (msg : Message) : bool :=
  bool_decide (m_role msg = Some r).

(** Python's [l[i:]] for any integer [i]. *)
Definition slice_from {A} (l : list A) (i : Z) : list A :=
  if i <? 0 then drop (Z.to_nat (Z.max 0 (Z.of_nat (length l) + i))) l
  else drop (Z.to_nat i) l.

(** ** History repair and windowing
    ([ChatStateManagerService._validate_and_repair_tool_calls] and
    [ChatStateManagerService._extract_turns_from_messages]) *)

Module History.

(** [pending_tool_calls]: tool-call id ↦ the assistant message that
    announced it. *)
Abbreviation pending_map := (gmap string Message).

Definition pending_values (pending : pending_map) : list Message :=
  (map_to_list pending).*2.

(** The removal loop that both the user-message branch and the final
    clean-up run:
<<
    messages_to_remove = set()
    for i in range(len(repaired_messages) - 1, -1, -1):
        if repaired_messages[i] in pending_tool_calls.values():
            messages_to_remove.add(i)
    for i in sorted(messages_to_remove, reverse=True):
        removed_msg = repaired_messages.pop(i)
>>
    [in] on the values view compares dictionaries with [==]. *)
Definition announced_pending (repaired_messages : list Message)
    (pending : pending_map) (i : nat) : bool :=
  match repaired_messages !! i with
  | Some msg => bool_decide (msg ∈ pending_values pending)
  | None => false
  end.

Definition messages_to_remove (repaired_messages : list Message)
    (pending : pending_map) : list nat :=
  filter (λ i, Is_true (announced_pending repaired_messages pending i))
    (reverse (seq 0 (length repaired_messages))).

Definition remove_unresolved (repaired_messages : list Message)
    (pending : pending_map) : list Message :=
  foldl (λ l i, delete i l) repaired_messages
    (messages_to_remove repaired_messages pending).

(** One iteration of [for msg in messages]. *)
Definition validate_step (st : list Message * pending_map) (msg : Message)
    : list Message * pending_map :=
  let '(repaired_messages, pending) := st in
  if role_is "assistant" msg && has_tool_calls msg then
    (repaired_messages ++ [msg],
     foldl (λ p tool_call, <[tc_id tool_call := msg]> p) pending
       (default [] (m_tool_calls msg)))
  else if role_is "tool" msg then
    let tool_call_id := default "" (m_tool_call_id msg) in
    if truthy (m_tool_call_id msg)
       && bool_decide (is_Some (pending !! tool_call_id)) then
      (repaired_messages ++ [msg], delete tool_call_id pending)
    else
      (repaired_messages, pending)
  else
    if negb (bool_decide (pending = ∅)) && role_is "user" msg then
      (remove_unresolved repaired_messages pending ++ [msg], ∅)
    else
      (repaired_messages ++ [msg], pending).

Definition _validate_and_repair_tool_calls (messages : list Message)
    : list Message :=
  let '(repaired_messages, pending) := foldl validate_step ([], ∅) messages in
  if negb (bool_decide (pending = ∅)) then
    remove_unresolved repaired_messages pending
  else repaired_messages.

(** One iteration of the grouping loop of [_extract_turns_from_messages];
    the state is [(turns, current_turn)]. *)
Definition extract_step (st : list (list Message) * list Message)
    (msg : Message) : list (list Message) * list Message :=
  let '(turns, current_turn) := st in
  if role_is "user" msg then
    ((match current_turn with [] => turns | _ => turns ++ [current_turn] end),
     [msg])
  else if role_is "assistant" msg || role_is "tool" msg then
    match current_turn with
    | [] => (turns, current_turn)
    | _ => (turns, current_turn ++ [msg])
    end
  else (turns, current_turn).

Definition _extract_turns_from_messages (messages : list Message)
    (k_turns : option Z) : list Message :=
  match messages with
  | [] => []
  | _ =>
    let '(turns, current_turn) := foldl extract_step ([], []) messages in
    let turns :=
      match current_turn with [] => turns | _ => turns ++ [current_turn] end in
    let turns :=
      match k_turns with
      | Some k => if 0 <? k then slice_from turns (- k) else turns
      | None => turns
      end in
    concat turns
  end.

(** *** Turns as the specification words them

    A turn starts at each user message and includes all following
    assistant/tool messages up to the next user message; a leading run of
    assistant/tool messages with no preceding user message belongs to no
    turn. *)

(** The assistant/tool messages at the head of [l], up to the next user
    message. *)
Fixpoint followers (l : list Message) : list Message :=
  match l with
  | [] => []
  | msg :: l' =>
    if role_is "user" msg then []
    else if role_is "assistant" msg || role_is "tool" msg
    then msg :: followers l'
    else followers l'
  end.

Fixpoint turns_of (l : list Message) : list (list Message) :=
  match l with
  | [] => []
  | msg :: l' =>
    if role_is "user" msg then (msg :: followers l') :: turns_of l'
    else turns_of l'
  end.

(** The last [k] elements of a list (all of them when it is shorter). *)
Definition last_k {A} (k : nat) (l : list A) : list A :=
  drop (length l - k)%nat l.

End History.

(** ** Coroutines and exceptions *)

Inductive exception :=
  | StateServiceException (reason : string).

(** What awaiting a coroutine on state [S] leads to: it returns, it raises,
    or it is suspended on something that no task will ever deliver. *)
Inductive outcome (S A : Type) :=
  | Returned (a : A) (s : S)
  | Raised (e : exception) (s : S)
  | Blocked (s : S).
Arguments Returned {S A} a s.
Arguments Raised {S A} e s.
Arguments Blocked {S A} s.

Definition coroutine (S A : Type) : Type := S → outcome S A.

#[global] Instance coroutine_ret {S} : MRet (coroutine S) :=
  λ A a s, Returned a s.

#[global] Instance coroutine_bind {S} : MBind (coroutine S) :=
  λ A B k c s,
    match c s with
    | Returned a s' => k a s'
    | Raised e s' => Raised e s'
    | Blocked s' => Blocked s'
    end.

Definition raise {S A} (e : exception) : coroutine S A := λ s, Raised e s.

(** [try: c except Exception as e: raise StateServiceException(reason)] *)
Definition reraise_as {S A} (reason : string) (c : coroutine S A)
    : coroutine S A :=
  λ s, match c s with
       | Raised _ s' => Raised (StateServiceException reason) s'
       | o => o
       end.

(** [for x in xs: await body(x)] *)
Fixpoint for_each {S A} (xs : list A) (body : A → coroutine S unit)
    : coroutine S unit :=
  match xs with
  | [] => mret ()
  | x :: xs' => body x ;; for_each xs' body
  end.

(** A reading of [datetime.now()]: the instant in microseconds and the text
    that [isoformat()] gives for it.  [datetime.fromisoformat] of that text
    is the reading again, so a field that holds the text holds the reading. *)
Record datetime := mkDatetime {
  dt_micros : Z;
  isoformat : string
}.

(** ** Redis storage ([RedisStorage]) *)

(** Values of the freeform chat-state document: the scalars that
    [set_chat_state] computes with, and arrays and objects kept as their
    text (floats are not modelled). *)
Inductive json :=
  | JNull
  | JBool (b : bool)
  | JInt (z : Z)
  | JStr (s : string)
  | JOther (raw : string).

(** What [json.loads(data.decode())] makes of one stored list element:
    [json.loads] raises [JSONDecodeError] on text that is not JSON,
    [decode] raises [UnicodeDecodeError] on bytes that are not UTF-8,
    [json.loads] yields a JSON value that is not an object, or it yields
    a dictionary.  The loops that read a log catch [JSONDecodeError] only.
    The dictionaries are those with fields of the types that the writers
    of this class and of the state service produce; in particular a
    ["timestamp"] is a string, so that the keys of the sort by timestamp
    can be compared. *)
Inductive stored (A : Type) :=
  | Garbled
  | NotUnicode
  | NonObject
  | Object (a : A).
Arguments Garbled {A}.
Arguments NotUnicode {A}.
Arguments NonObject {A}.
Arguments Object {A} a.

(** The elements that the loops over a log get past: text that is not
    JSON, which they skip, and dictionaries. *)
Definition readable {A} (e : stored A) : Prop :=
  e ≠ NotUnicode ∧ e ≠ NonObject.

(** A tool-call audit entry, as [ChatStateManagerService.add_tool_call]
    builds it. *)
Record ToolCallEntry := mkToolCallEntry {
  te_tool_call_id : option string;
  te_tool_name : string;
  te_arguments : string;
  te_timestamp : option string;
  te_duration_ms : option Z;
  te_result : option string;
  te_error : option string
}.

Module RedisStorage.

(** The keys of [_get_keys], each as a map from the chat id, and the keys
    of the distributed locks that are currently set.  A list key that does
    not exist reads as the empty list. *)
Record redis := mkRedis {
  state : gmap string (option (gmap string json));
  history : gmap string (list (stored Message));
  tool_history : gmap string (list (stored ToolCallEntry));
  message_counter : gmap string Z;
  lock_keys : gset string
}.

Definition set_state (f : gmap string (option (gmap string json)) →
    gmap string (option (gmap string json))) (r : redis) : redis :=
  mkRedis (f (state r)) (history r) (tool_history r) (message_counter r)
    (lock_keys r).

Definition set_history (f : gmap string (list (stored Message)) →
    gmap string (list (stored Message))) (r : redis) : redis :=
  mkRedis (state r) (f (history r)) (tool_history r) (message_counter r)
    (lock_keys r).

Definition set_tool_history (f : gmap string (list (stored ToolCallEntry)) →
    gmap string (list (stored ToolCallEntry))) (r : redis) : redis :=
  mkRedis (state r) (history r) (f (tool_history r)) (message_counter r)
    (lock_keys r).

Definition set_message_counter (f : gmap string Z → gmap string Z)
    (r : redis) : redis :=
  mkRedis (state r) (history r) (tool_history r) (f (message_counter r))
    (lock_keys r).

Definition set_lock_keys (f : gset string → gset string) (r : redis) : redis :=
  mkRedis (state r) (history r) (tool_history r) (message_counter r)
    (f (lock_keys r)).

Definition history_of (r : redis) (chat_id : string) : list (stored Message) :=
  default [] (history r !! chat_id).

Definition tool_history_of (r : redis) (chat_id : string)
    : list (stored ToolCallEntry) :=
  default [] (tool_history r !! chat_id).

(** Redis [LRANGE key start stop] on the list [l]. *)
Definition lrange {A} (l : list A) (start stop : Z) : list A :=
  let n := Z.of_nat (length l) in
  let start := if start <? 0 then Z.max 0 (n + start) else start in
  let stop := if stop <? 0 then n + stop else Z.min stop (n - 1) in
  if stop <? start then []
  else take (Z.to_nat (stop - start + 1)) (drop (Z.to_nat start) l).

(** [async with self._get_distributed_lock(lock_key)]: [SET lock:key id NX]
    succeeds when the key is not set; the holder deletes its own key on the
    way out, whether the body returned or raised.  A key that is set belongs
    to another holder, who keeps it for longer than [lock_timeout]:
    [acquire] then raises.  Redis is taken to answer every command, and the
    body to end before the key expires, so that [release] finds the key
    with its own identifier and deletes it.  The path of [release] on which
    [EVAL] raises, where the exception is swallowed and the key stays set
    until it expires, and the path on which the key has passed to another
    holder, lie outside this embedding. *)
Definition _get_distributed_lock {A} (lock_key : string)
    (body : coroutine redis A) : coroutine redis A :=
  λ r,
    if bool_decide (lock_key ∈ lock_keys r) then
      Raised (StateServiceException "Failed to acquire lock") r
    else
      let release := set_lock_keys (λ ks, ks ∖ {[lock_key]}) in
      match body (set_lock_keys (λ ks, {[lock_key]} ∪ ks) r) with
      | Returned a r' => Returned a (release r')
      | Raised e r' => Raised e (release r')
      | Blocked r' => Blocked r'
      end.

(** [state.get("version", 0) + 1] *)
Definition next_version (st : gmap string json) : option json :=
  match st !! "version" with
  | None => Some (JInt 1)
  | Some (JInt z) => Some (JInt (z + 1))
  | Some (JBool b) => Some (JInt (Z.b2z b + 1))
  | Some _ => None
  end.

Definition get_chat_state (chat_id : string)
    : coroutine redis (option (gmap string json)) :=
  λ r, Returned (default None (state r !! chat_id)) r.

Definition set_chat_state (chat_id : string) (st : gmap string json)
    (utcnow : string) : coroutine redis unit :=
  reraise_as "Failed to set chat state"
    (match next_version st with
     | None => raise (StateServiceException "TypeError")
     | Some version =>
       let state_with_meta :=
         <["version" := version]> (<["last_updated" := JStr utcnow]> st) in
       λ r, Returned () (set_state <[chat_id := Some state_with_meta]> r)
     end).

(** The stable sort of [list.sort(key=lambda x: x.get("timestamp", ""))]. *)
Definition timestamp_key (msg : Message) : string :=
  default "" (m_timestamp msg).

Fixpoint insert_by_timestamp (msg : Message) (sorted : list Message)
    : list Message :=
  match sorted with
  | [] => [msg]
  | msg' :: rest =>
    if String.ltb (timestamp_key msg) (timestamp_key msg')
    then msg :: msg' :: rest
    else msg' :: insert_by_timestamp msg rest
  end.

Definition sort_by_timestamp (l : list Message) : list Message :=
  foldl (λ sorted msg, insert_by_timestamp msg sorted) [] l.

(** The parsing loop of [get_chat_history]: text that is not JSON is
    skipped; bytes that are not UTF-8 make [decode] raise out of the loop;
    an element that is not an object stays in the list, and the
    key function of the sort then raises on it. *)
Fixpoint parse_messages (messages : list (stored Message))
    : option (list Message) :=
  match messages with
  | [] => Some []
  | Garbled :: rest => parse_messages rest
  | NotUnicode :: rest => None
  | NonObject :: rest => None
  | Object msg :: rest => (msg ::.) <$> parse_messages rest
  end.

(** [limit or settings.chat_history_limit] *)
Definition limit_or (limit : option Z) (chat_history_limit : Z) : Z :=
  match limit with
  | Some l => if l =? 0 then chat_history_limit else l
  | None => chat_history_limit
  end.

Definition get_chat_history (chat_history_limit : Z) (chat_id : string)
    (limit : option Z) : coroutine redis (list Message) :=
  reraise_as "Failed to get chat history"
    (λ r,
       let limit := limit_or limit chat_history_limit in
       let messages := lrange (history_of r chat_id) (- limit) (-1) in
       match parse_messages messages with
       | Some parsed_messages => Returned (sort_by_timestamp parsed_messages) r
       | None => Raised (StateServiceException "AttributeError") r
       end).

(** The duplicate scans of [add_chat_message] and [add_tool_call]. *)
Inductive scan := Duplicate | Fresh | ScanFailed.

Fixpoint scan_messages (existing_messages : list (stored Message))
    (message_id : option string) : scan :=
  match existing_messages with
  | [] => Fresh
  | Garbled :: rest => scan_messages rest message_id
  | NotUnicode :: rest => ScanFailed
  | NonObject :: rest => ScanFailed
  | Object existing_msg :: rest =>
    if bool_decide (m_message_id existing_msg = message_id) then Duplicate
    else scan_messages rest message_id
  end.

Fixpoint scan_tool_calls (existing_calls : list (stored ToolCallEntry))
    (tool_call_id : option string) : scan :=
  match existing_calls with
  | [] => Fresh
  | Garbled :: rest => scan_tool_calls rest tool_call_id
  | NotUnicode :: rest => ScanFailed
  | NonObject :: rest => ScanFailed
  | Object existing_call :: rest =>
    if bool_decide (te_tool_call_id existing_call = tool_call_id) then Duplicate
    else scan_tool_calls rest tool_call_id
  end.

Definition with_message_id (id : string) (msg : Message) : Message :=
  mkMessage (Some id) (m_turn_id msg) (m_role msg) (m_content msg)
    (m_tool_calls msg) (m_tool_call_id msg) (m_name msg) (m_error msg)
    (m_timestamp msg).

Definition with_timestamp (ts : string) (msg : Message) : Message :=
  mkMessage (m_message_id msg) (m_turn_id msg) (m_role msg) (m_content msg)
    (m_tool_calls msg) (m_tool_call_id msg) (m_name msg) (m_error msg)
    (Some ts).

Definition add_chat_message (chat_id : string) (message : Message)
    (utcnow : string) : coroutine redis unit :=
  _get_distributed_lock ("chat_write:" +:+ chat_id)
    (reraise_as "Failed to add chat message"
       (λ r,
          let '(message, r) :=
            match m_message_id message with
            | None =>
              let message_counter :=
                default 0 (message_counter r !! chat_id) + 1 in
              (with_message_id
                 (chat_id +:+ ":msg:" +:+ pretty message_counter) message,
               set_message_counter <[chat_id := message_counter]> r)
            | Some _ => (message, r)
            end in
          let message :=
            match m_timestamp message with
            | None => with_timestamp utcnow message
            | Some _ => message
            end in
          match scan_messages (history_of r chat_id) (m_message_id message) with
          | Duplicate => Returned () r
          | ScanFailed => Raised (StateServiceException "AttributeError") r
          | Fresh =>
            Returned ()
              (set_history
                 <[chat_id := history_of r chat_id ++ [Object message]]> r)
          end)).

Definition entry_with_timestamp (ts : string) (e : ToolCallEntry)
    : ToolCallEntry :=
  mkToolCallEntry (te_tool_call_id e) (te_tool_name e) (te_arguments e)
    (Some ts) (te_duration_ms e) (te_result e) (te_error e).

Definition add_tool_call (chat_id : string) (tool_call : ToolCallEntry)
    (utcnow : string) : coroutine redis unit :=
  _get_distributed_lock ("tool_write:" +:+ chat_id)
    (reraise_as "Failed to add tool call"
       (λ r,
          let tool_call :=
            match te_timestamp tool_call with
            | None => entry_with_timestamp utcnow tool_call
            | Some _ => tool_call
            end in
          let tool_call_id := te_tool_call_id tool_call in
          let append :=
            Returned ()
              (set_tool_history
                 <[chat_id := tool_history_of r chat_id ++ [Object tool_call]]>
                 r) in
          if truthy tool_call_id then
            match scan_tool_calls (tool_history_of r chat_id) tool_call_id with
            | Duplicate => Returned () r
            | ScanFailed => Raised (StateServiceException "AttributeError") r
            | Fresh => append
            end
          else append)).

(** A list that becomes empty no longer exists as a key. *)
Definition put_list {A} (chat_id : string) (l : list A)
    (m : gmap string (list A)) : gmap string (list A) :=
  match l with
  | [] => delete chat_id m
  | _ => <[chat_id := l]> m
  end.

(** [trim_history]: [limit == 0] deletes both lists, any other limit
    trims both with [LTRIM key -limit -1]. *)
Definition trim_history (chat_id : string) (limit : Z) : coroutine redis unit :=
  _get_distributed_lock ("trim:" +:+ chat_id)
    (reraise_as "Failed to trim history"
       (λ r,
          if limit =? 0 then
            Returned ()
              (set_tool_history (delete chat_id)
                 (set_history (delete chat_id) r))
          else
            Returned ()
              (set_tool_history
                 (put_list chat_id
                    (lrange (tool_history_of r chat_id) (- limit) (-1)))
                 (set_history
                    (put_list chat_id
                       (lrange (history_of r chat_id) (- limit) (-1)))
                    r)))).

(** The operations of [atomic_turn_operation], by their ["type"]. *)
Inductive operation :=
  | AddMessage (message : Message)
  | AddToolCall (tool_call : ToolCallEntry)
  | UpdateState (st : gmap string json)
  | OtherOperation (type : string).

(** The commands that [atomic_turn_operation] queues on its pipeline. *)
Inductive command :=
  | RPUSH_history (x : stored Message)
  | RPUSH_tool_history (x : stored ToolCallEntry)
  | SETEX_state (st : gmap string json)
  | EXPIRE_history
  | EXPIRE_tool_history.

(** One command of the pipeline on the keys of [chat_id], with the
    truthiness of its reply: [RPUSH] replies the new length, [SETEX]
    replies [True], [EXPIRE] replies whether the key exists. *)
Definition run_command (chat_id : string) (c : command) (r : redis)
    : bool * redis :=
  match c with
  | RPUSH_history x =>
    (true, set_history <[chat_id := history_of r chat_id ++ [x]]> r)
  | RPUSH_tool_history x =>
    (true, set_tool_history <[chat_id := tool_history_of r chat_id ++ [x]]> r)
  | SETEX_state st => (true, set_state <[chat_id := Some st]> r)
  | EXPIRE_history =>
    (bool_decide (history_of r chat_id ≠ []), r)
  | EXPIRE_tool_history =>
    (bool_decide (tool_history_of r chat_id ≠ []), r)
  end.

(** [pipe.execute()]: the queued commands run in order, and their replies
    come back as one list. *)
Fixpoint execute (chat_id : string) (pipe : list command) (r : redis)
    : list bool * redis :=
  match pipe with
  | [] => ([], r)
  | c :: pipe' =>
    let '(reply, r') := run_command chat_id c r in
    let '(replies, r'') := execute chat_id pipe' r' in
    (reply :: replies, r'')
  end.

(** What one operation queues. *)
Definition queue_operation (utcnow : string) (op : operation) : list command :=
  match op with
  | AddMessage message =>
    [RPUSH_history
       (Object match m_timestamp message with
               | None => with_timestamp utcnow message
               | Some _ => message
               end)]
  | AddToolCall tool_call =>
    [RPUSH_tool_history
       (Object match te_timestamp tool_call with
               | None => entry_with_timestamp utcnow tool_call
               | Some _ => tool_call
               end)]
  | UpdateState st => [SETEX_state (<["last_updated" := JStr utcnow]> st)]
  | OtherOperation _ => []
  end.

Definition atomic_turn_operation (chat_id : string)
    (operations : list operation) (utcnow : string) : coroutine redis bool :=
  _get_distributed_lock ("turn:" +:+ chat_id)
    (reraise_as "Atomic turn operation failed"
       (λ r,
          let pipe :=
            concat (queue_operation utcnow <$> operations)
            ++ [EXPIRE_history; EXPIRE_tool_history] in
          let '(results, r') := execute chat_id pipe r in
          Returned (forallb id results) r')).

(** [_execute_with_retry]: what the operation does when it is awaited for
    the n-th time. *)
Inductive redis_attempt (A : Type) :=
  | Replies (a : A)
  | ConnectionError (e : string)
  | OtherError (e : string).
Arguments Replies {A} a.
Arguments ConnectionError {A} e.
Arguments OtherError {A} e.

(** How [_execute_with_retry] ends: with the reply, with an exception that
    it does not catch, or with the [StateServiceException] that carries
    the last connection error. *)
Inductive retried (A : Type) :=
  | Reply (a : A)
  | Propagated (e : string)
  | Exhausted (last_exception : option string).
Arguments Reply {A} a.
Arguments Propagated {A} e.
Arguments Exhausted {A} last_exception.

(** The loop [for attempt in range(self.max_retries)], with the sleeps it
    makes, each in units of [retry_delay]. *)
Fixpoint retry_from {A} (max_retries : nat) (operation : nat → redis_attempt A)
    (attempts : list nat) (last_exception : option string)
    : retried A * list Z :=
  match attempts with
  | [] => (Exhausted last_exception, [])
  | attempt :: rest =>
    match operation attempt with
    | Replies a => (Reply a, [])
    | OtherError e => (Propagated e, [])
    | ConnectionError e =>
      if (attempt <? max_retries - 1)%nat then
        let '(res, sleeps) := retry_from max_retries operation rest (Some e) in
        (res, 2 ^ Z.of_nat attempt :: sleeps)
      else retry_from max_retries operation rest (Some e)
    end
  end.

Definition _execute_with_retry {A} (max_retries : nat)
    (operation : nat → redis_attempt A) : retried A * list Z :=
  retry_from max_retries operation (seq 0 max_retries) None.

(** [get_chat_metadata], when the pipeline answers. *)
Record chat_metadata := mkChatMetadata {
  message_count : nat;
  tool_call_count : nat;
  last_activity : option json;
  has_state : bool
}.

Definition get_chat_metadata (chat_id : string) : coroutine redis chat_metadata :=
  λ r,
    Returned
      (mkChatMetadata
         (length (history_of r chat_id))
         (length (tool_history_of r chat_id))
         (match state r !! chat_id with
          | Some (Some st) => st !! "last_updated"
          | _ => None
          end)
         (bool_decide (is_Some (state r !! chat_id))))
      r.

End RedisStorage.

(** ** The turn lifecycle manager ([ChatStateManagerService]) *)

Record TurnMetadata := mkTurnMetadata {
  turn_id : string;
  user_message_id : string;
  assistant_message_id : string;
  tool_call_ids : list string;
  completed_tool_results : list string;
  is_complete : bool;
  created_at : datetime;
  completed_at : option datetime
}.

Module ChatStateManagerService.

(** The fields of the service object that the modelled methods read or
    write.  [_turn_locks] is the set of chats whose [asyncio.Lock] is
    held.  No lock is held between two calls of the public methods, so a
    lock that an acquire finds held is held by a frame of the calling task
    itself: [asyncio.Lock] is not reentrant, and that acquire never
    returns. *)
Record service := mkService {
  store_tool_history : bool;
  include_tool_calls_in_history : bool;
  chat_history_limit : Z;
  _active_turns : gmap string (gmap string TurnMetadata);
  _turn_locks : gset string;
  storage : RedisStorage.redis
}.

Definition set_active_turns
    (f : gmap string (gmap string TurnMetadata) →
         gmap string (gmap string TurnMetadata)) (s : service) : service :=
  mkService (store_tool_history s) (include_tool_calls_in_history s)
    (chat_history_limit s) (f (_active_turns s)) (_turn_locks s) (storage s).

Definition set_turn_locks (f : gset string → gset string) (s : service)
    : service :=
  mkService (store_tool_history s) (include_tool_calls_in_history s)
    (chat_history_limit s) (_active_turns s) (f (_turn_locks s)) (storage s).

Definition set_storage (r : RedisStorage.redis) (s : service) : service :=
  mkService (store_tool_history s) (include_tool_calls_in_history s)
    (chat_history_limit s) (_active_turns s) (_turn_locks s) r.

(** [self._active_turns[chat_id]] (a [defaultdict(dict)]). *)
Definition active_turns (s : service) (chat_id : string)
    : gmap string TurnMetadata :=
  default ∅ (_active_turns s !! chat_id).

(** [self._active_turns[chat_id][turn_id] = turn_metadata], and every
    attribute assignment on the metadata object that the index holds. *)
Definition put_turn (chat_id turn : string) (md : TurnMetadata) (s : service)
    : service :=
  set_active_turns <[chat_id := <[turn := md]> (active_turns s chat_id)]> s.

(** [del self._active_turns[chat_id][turn_id]] *)
Definition del_turn (chat_id turn : string) (s : service) : service :=
  set_active_turns <[chat_id := delete turn (active_turns s chat_id)]> s.

(** [async with await self._get_turn_lock(chat_id)] *)
Definition with_turn_lock {A} (chat_id : string) (body : coroutine service A)
    : coroutine service A :=
  λ s,
    if bool_decide (chat_id ∈ _turn_locks s) then Blocked s
    else
      let release := set_turn_locks (λ ls, ls ∖ {[chat_id]}) in
      match body (set_turn_locks (λ ls, {[chat_id]} ∪ ls) s) with
      | Returned a s' => Returned a (release s')
      | Raised e s' => Raised e (release s')
      | Blocked s' => Blocked s'
      end.

(** [await self.storage.method(...)] *)
Definition on_storage {A} (c : coroutine RedisStorage.redis A)
    : coroutine service A :=
  λ s,
    match c (storage s) with
    | Returned a r => Returned a (set_storage r s)
    | Raised e r => Raised e (set_storage r s)
    | Blocked r => Blocked (set_storage r s)
    end.

Definition get : coroutine service service := λ s, Returned s s.

Definition modify (f : service → service) : coroutine service unit :=
  λ s, Returned () (f s).

(** Every method takes the values it draws from its environment as
    arguments: the [uuid4]-based ids it generates and the reading [now] of
    the clock (one reading for all the [datetime.now()] calls of one
    method call). *)

Definition start_turn (chat_id user_message : string)
    (new_turn_id new_message_id : string) (now : datetime)
    : coroutine service (string * string) :=
  with_turn_lock chat_id
    (let turn_metadata :=
       mkTurnMetadata new_turn_id new_message_id "" [] [] false now None in
     modify (put_turn chat_id new_turn_id turn_metadata) ;;
     let user_msg :=
       mkMessage (Some new_message_id) (Some new_turn_id) (Some "user")
         user_message None None None None (Some (isoformat now)) in
     on_storage (RedisStorage.add_chat_message chat_id user_msg (isoformat now)) ;;
     mret (new_turn_id, new_message_id)).

Definition add_assistant_message (chat_id turn content : string)
    (tool_calls : option (list ToolCall)) (new_message_id : string)
    (now : datetime) : coroutine service string :=
  with_turn_lock chat_id
    (s ← get ;
     match active_turns s chat_id !! turn with
     | None => raise (StateServiceException "Turn not found or already completed")
     | Some md =>
       let assistant_msg tcs :=
         mkMessage (Some new_message_id) (Some turn) (Some "assistant")
           content tcs None None None (Some (isoformat now)) in
       match tool_calls with
       | Some (tc :: tcs) =>
         modify (put_turn chat_id turn
           (mkTurnMetadata (turn_id md) (user_message_id md) new_message_id
              (tc_id <$> (tc :: tcs)) (completed_tool_results md)
              (is_complete md) (created_at md) (completed_at md))) ;;
         on_storage (RedisStorage.add_chat_message chat_id
           (assistant_msg (Some (tc :: tcs))) (isoformat now)) ;;
         mret new_message_id
       | _ =>
         modify (put_turn chat_id turn
           (mkTurnMetadata (turn_id md) (user_message_id md) new_message_id
              (tool_call_ids md) (completed_tool_results md)
              true (created_at md) (Some now))) ;;
         on_storage (RedisStorage.add_chat_message chat_id
           (assistant_msg None) (isoformat now)) ;;
         mret new_message_id
       end
     end).

(** [set(completed_tool_results) == set(tool_call_ids)] *)
Definition same_ids (completed expected : list string) : bool :=
  bool_decide (list_to_set completed =@{gset string} list_to_set expected).

(** [add_tool_result]; [content] is the text that the method derives from
    [result] ([json.dumps(result)] or [str(result)]). *)
Definition add_tool_result (chat_id turn tool_call_id tool_name : string)
    (content : string) (error : option string) (new_message_id : string)
    (now : datetime) : coroutine service bool :=
  with_turn_lock chat_id
    (s ← get ;
     match active_turns s chat_id !! turn with
     | None => mret false
     | Some md =>
       if bool_decide (tool_call_id ∈ tool_call_ids md) then
         let tool_result_msg :=
           mkMessage (Some new_message_id) (Some turn) (Some "tool") content
             None (Some tool_call_id) (Some tool_name)
             (if truthy error then error else None)
             (Some (isoformat now)) in
         on_storage (RedisStorage.add_chat_message chat_id tool_result_msg
           (isoformat now)) ;;
         let completed :=
           if bool_decide (tool_call_id ∈ completed_tool_results md)
           then completed_tool_results md
           else completed_tool_results md ++ [tool_call_id] in
         if same_ids completed (tool_call_ids md) then
           modify (put_turn chat_id turn
             (mkTurnMetadata (turn_id md) (user_message_id md)
                (assistant_message_id md) (tool_call_ids md) completed
                true (created_at md) (Some now))) ;;
           mret true
         else
           modify (put_turn chat_id turn
             (mkTurnMetadata (turn_id md) (user_message_id md)
                (assistant_message_id md) (tool_call_ids md) completed
                (is_complete md) (created_at md) (completed_at md))) ;;
           mret false
       else mret false
     end).

Definition force_complete_turn (chat_id turn : string) (now : datetime)
    : coroutine service bool :=
  with_turn_lock chat_id
    (s ← get ;
     match active_turns s chat_id !! turn with
     | None => mret false
     | Some md =>
       modify (put_turn chat_id turn
         (mkTurnMetadata (turn_id md) (user_message_id md)
            (assistant_message_id md) (tool_call_ids md)
            (completed_tool_results md) true (created_at md) (Some now))) ;;
       mret true
     end).

(** [age_minutes > max_age_minutes], with
    [age_minutes = (current_time - created_time).total_seconds() / 60],
    in exact arithmetic on microseconds. *)
Definition older_than (max_age_minutes : Z) (current_time : datetime)
    (md : TurnMetadata) : bool :=
  max_age_minutes * 60000000 <? dt_micros current_time - dt_micros (created_at md).

(** The first loop of [cleanup_active_turns]; the order in which the
    dictionary is walked is not modelled. *)
Definition to_remove (max_age_minutes : Z) (current_time : datetime)
    (turns : gmap string TurnMetadata) : list string :=
  (filter (λ kv, Is_true (older_than max_age_minutes current_time kv.2))
     (map_to_list turns)).*1.

Definition cleanup_active_turns (chat_id : string) (max_age_minutes : Z)
    (now : datetime) : coroutine service unit :=
  with_turn_lock chat_id
    (s ← get ;
     for_each (to_remove max_age_minutes now (active_turns s chat_id))
       (λ turn,
          force_complete_turn chat_id turn now ;;
          modify (del_turn chat_id turn))).

(** The filter of [get_chat_history] when tool calls are excluded:
    [msg.get("role") not in ["tool"] and not msg.get("tool_calls")]. *)
Definition without_tool_calls (msg : Message) : bool :=
  negb (role_is "tool" msg) && negb (has_tool_calls msg).

(** [if limit and len(final_history) > limit: final_history[-limit:]] *)
Definition apply_final_limit (limit : option Z) (final_history : list Message)
    : list Message :=
  match limit with
  | Some l =>
    if negb (l =? 0) && (l <? Z.of_nat (length final_history))
    then slice_from final_history (- l)
    else final_history
  | None => final_history
  end.

(** The steps of [get_chat_history] that follow the read of the raw
    history. *)
Definition history_view (include_tool_calls : bool) (limit k_turns : option Z)
    (raw_history : list Message) : list Message :=
  match raw_history with
  | [] => []
  | _ =>
    let sorted_history := RedisStorage.sort_by_timestamp raw_history in
    let repaired_history :=
      if include_tool_calls
      then History._validate_and_repair_tool_calls sorted_history
      else filter (λ msg, Is_true (without_tool_calls msg)) sorted_history in
    let final_history :=
      match k_turns with
      | Some k => History._extract_turns_from_messages repaired_history (Some k)
      | None => repaired_history
      end in
    apply_final_limit limit final_history
  end.

Definition get_chat_history (chat_id : string) (limit k_turns : option Z)
    (include_tool_calls : option bool) (now : datetime)
    : coroutine service (list Message) :=
  reraise_as "Failed to get chat history"
    (s ← get ;
     let include_tool_calls :=
       default (include_tool_calls_in_history s) include_tool_calls in
     cleanup_active_turns chat_id 60 now ;;
     let raw_limit := RedisStorage.limit_or limit (chat_history_limit s) in
     raw_history ← on_storage
       (RedisStorage.get_chat_history (chat_history_limit s) chat_id
          (Some (raw_limit * 2))) ;
     mret (history_view include_tool_calls limit k_turns raw_history)).

(** [ChatState.create_default(chat_id).dict()] *)
Definition create_default (chat_id : string) (now : datetime)
    : gmap string json :=
  {[ "chat_id" := JStr chat_id;
     "created_at" := JStr (isoformat now);
     "updated_at" := JStr (isoformat now);
     "user_preferences" := JOther "{}";
     "conversation_context" := JOther "{}" ]}.

Definition get_chat_state (chat_id : string) (now : datetime)
    : coroutine service (gmap string json) :=
  reraise_as "Failed to get chat state"
    (st ← on_storage (RedisStorage.get_chat_state chat_id) ;
     match st with
     | Some st' =>
       if bool_decide (st' = ∅) then
         let default_state := create_default chat_id now in
         on_storage (RedisStorage.set_chat_state chat_id default_state
           (isoformat now)) ;;
         mret default_state
       else mret st'
     | None =>
       let default_state := create_default chat_id now in
       on_storage (RedisStorage.set_chat_state chat_id default_state
         (isoformat now)) ;;
       mret default_state
     end).

(** [current_state.update(state_update)] is the union that prefers the
    patch. *)
Definition update_chat_state (chat_id : string)
    (state_update : gmap string json) (now : datetime)
    : coroutine service unit :=
  reraise_as "Failed to update chat state"
    (current_state ← get_chat_state chat_id now ;
     let current_state := state_update ∪ current_state in
     let current_state := <["updated_at" := JStr (isoformat now)]> current_state in
     on_storage (RedisStorage.set_chat_state chat_id current_state
       (isoformat now))).

(** [try: c except Exception as e: log] *)
Definition swallow (c : coroutine service unit) : coroutine service unit :=
  λ s, match c s with
       | Raised _ s' => Returned () s'
       | o => o
       end.

(** [add_tool_call]: the audit entry is written and both histories are
    trimmed to the tool-history limit; a failure is logged and dropped.
    [tool_history_limit] stands for
    [getattr(settings, 'tool_history_limit', 100)]. *)
Definition add_tool_call (tool_history_limit : Z)
    (chat_id tool_name tool_call_id arguments : string)
    (result error : option string) (duration_ms : option Z) (now : datetime)
    : coroutine service unit :=
  s ← get ;
  if store_tool_history s then
    swallow
      (let tool_call :=
         mkToolCallEntry (Some tool_call_id) tool_name arguments
           (Some (isoformat now)) duration_ms result
           (if truthy error then error else None) in
       on_storage (RedisStorage.add_tool_call chat_id tool_call (isoformat now)) ;;
       on_storage (RedisStorage.trim_history chat_id tool_history_limit))
  else mret ().


End ChatStateManagerService.

(** ** The tool-call executor ([BaseAgent]) *)

Module BaseAgent.

(** What one invocation of a registered tool function does within the
    attempt that runs it: it returns a result (given as the text that
    becomes the message content), it raises, or it is still running when
    [max_tool_call_timeout] has elapsed. *)
Inductive tool_run :=
  | Finishes (result : string)
  | Fails (e : string)
  | Overruns.

(** [tool_call.function.arguments] under [json.loads]. *)
Inductive loads :=
  | JSONDecodeError (e : string)
  | Loaded (function_args : string).

(** A tool call of the completion provider's response. *)
Record tool_call := mkCall {
  id : string;
  function_name : string;
  function_arguments : loads
}.

(** The agent: [available_functions] maps a tool name to its behaviour on
    the given arguments at the given attempt; [max_tool_call_timeout] is
    kept as the text that the f-string prints. *)
Record agent := mkAgent {
  available_functions : gmap string (string → nat → tool_run);
  max_tool_call_timeout : string;
  tool_call_retry_attempts : nat
}.

(** What awaiting a coroutine under [asyncio.wait_for] observes. *)
Inductive awaited (A : Type) :=
  | Done (a : A)
  | Raising (e : string)
  | Pending.
Arguments Done {A} a.
Arguments Raising {A} e.
Arguments Pending {A}.

Inductive waited (A : Type) :=
  | Got (a : A)
  | TimeoutError
  | Exception (e : string).
Arguments Got {A} a.
Arguments TimeoutError {A}.
Arguments Exception {A} e.

Definition wait_for {A} (c : awaited A) : waited A :=
  match c with
  | Done a => Got a
  | Raising e => Exception e
  | Pending => TimeoutError
  end.

(** [{"tool_call_id": .., "role": "tool", "name": .., "content": ..}] *)
Definition tool_result (tc : tool_call) (content : string) : Message :=
  mkMessage None None (Some "tool") content None (Some (id tc))
    (Some (function_name tc)) None None.

(** [_execute_tool_call]: the whole body is inside [try], and the handler
    of [except Exception] returns a message.  The writes to the state
    service sit in [try]/[except] blocks of their own and do not change
    what is returned; they are not modelled. *)
Definition _execute_tool_call (a : agent) (tc : tool_call) (attempt : nat)
    : awaited Message :=
  let error_content e :=
    "Error executing tool '" +:+ function_name tc +:+ "': " +:+ e in
  match function_arguments tc with
  | JSONDecodeError e => Done (tool_result tc (error_content e))
  | Loaded function_args =>
    match available_functions a !! function_name tc with
    | None =>
      Done (tool_result tc
        (error_content ("Function " +:+ function_name tc +:+ " not available")))
    | Some function =>
      match function function_args attempt with
      | Finishes result => Done (tool_result tc result)
      | Fails e => Done (tool_result tc (error_content e))
      | Overruns => Pending
      end
    end
  end.

(** The body of [for attempt in range(self.tool_call_retry_attempts)];
    a loop that ends without [return] makes the coroutine return [None]. *)
Fixpoint attempts_from (a : agent) (tc : tool_call) (attempts : list nat)
    : option Message :=
  match attempts with
  | [] => None
  | attempt :: rest =>
    match wait_for (_execute_tool_call a tc attempt) with
    | Got result => Some result
    | TimeoutError =>
      if (attempt <? tool_call_retry_attempts a - 1)%nat
      then attempts_from a tc rest
      else Some (tool_result tc
        ("Tool call timed out after " +:+ max_tool_call_timeout a +:+ "s"))
    | Exception e =>
      if (attempt <? tool_call_retry_attempts a - 1)%nat
      then attempts_from a tc rest
      else Some (tool_result tc
        ("Tool call failed after " +:+ pretty (tool_call_retry_attempts a)
         +:+ " attempts: " +:+ e))
    end
  end.

Definition execute_single_tool_call (a : agent) (tc : tool_call)
    : option Message :=
  attempts_from a tc (seq 0 (tool_call_retry_attempts a)).

(** [asyncio.gather] over the tasks keeps the order of the requests. *)
Definition _execute_tool_calls_with_retry (a : agent)
    (tool_calls : list tool_call) : list (option Message) :=
  execute_single_tool_call a <$> tool_calls.

(** [_prepare_messages_with_system_prompt]: the system messages of the
    input are filtered out, and the prompt, when it is a non-empty string,
    goes first. *)
Definition system_message (system_prompt : string) : Message :=
  mkMessage None None (Some "system") system_prompt None None None None None.

Definition _prepare_messages_with_system_prompt (messages : list Message)
    (system_prompt : option string) : list Message :=
  let conversation_messages :=
    filter (λ msg, m_role msg ≠ Some "system") messages in
  (match system_prompt with
   | Some p => if truthy system_prompt then [system_message p] else []
   | None => []
   end) ++ conversation_messages.

(** One element of [chunk.choices[0].delta.tool_calls]: [None] stands for
    a field that is missing or [None] (both fields of the function are
    [None] when [tc_delta.function] is). *)
Record tool_call_delta := mkDelta {
  delta_index : nat;
  delta_id : option string;
  delta_name : option string;
  delta_arguments : option string
}.

(** A chunk of the stream: its tool-call deltas and its content. *)
Record chunk := mkChunk {
  chunk_tool_calls : list tool_call_delta;
  chunk_content : option string
}.

(** One entry of the [tool_calls] list that the streaming handler
    assembles:
    [{"id": .., "type": "function", "function": {"name": .., "arguments": ..}}]. *)
Record assembled := mkAssembled {
  as_id : option string;
  as_name : string;
  as_arguments : string
}.

Definition blank : assembled := mkAssembled None "" "".

(** The body of [for tc_delta in chunk.choices[0].delta.tool_calls]. *)
Definition apply_delta (tool_calls : list assembled) (d : tool_call_delta)
    : list assembled :=
  let tool_calls :=
    tool_calls ++ replicate (S (delta_index d) - length tool_calls) blank in
  alter
    (λ tc,
       mkAssembled
         (if truthy (delta_id d) then delta_id d else as_id tc)
         (if truthy (delta_name d) then default "" (delta_name d)
          else as_name tc)
         (if truthy (delta_arguments d)
          then as_arguments tc +:+ default "" (delta_arguments d)
          else as_arguments tc))
    (delta_index d) tool_calls.

(** The collecting loop of [_handle_streaming_response]: the state is the
    list of tool calls, the content buffer, and the content chunks
    yielded so far. *)
Definition collect_chunk (st : list assembled * string * list string)
    (c : chunk) : list assembled * string * list string :=
  let '(tool_calls, content_buffer, yielded) := st in
  let tool_calls := foldl apply_delta tool_calls (chunk_tool_calls c) in
  if truthy (chunk_content c) then
    (tool_calls, content_buffer +:+ default "" (chunk_content c),
     yielded ++ [default "" (chunk_content c)])
  else (tool_calls, content_buffer, yielded).

Definition collect (response : list chunk)
    : list assembled * string * list string :=
  foldl collect_chunk ([], "", []) response.

End BaseAgent.

(** ** Sample messages *)

Definition user_msg (id text ts : string) : Message :=
  mkMessage (Some id) None (Some "user") text None None None None (Some ts).

Definition assistant_msg (id text ts : string) : Message :=
  mkMessage (Some id) None (Some "assistant") text None None None None (Some ts).

Definition assistant_calls (id ts : string) (calls : list string) : Message :=
  mkMessage (Some id) None (Some "assistant") ""
    (Some ((λ c, mkToolCall c "faq_search" "{}") <$> calls))
    None None None (Some ts).

Definition tool_msg (id call ts : string) : Message :=
  mkMessage (Some id) None (Some "tool") "{}" None (Some call)
    (Some "faq_search") None (Some ts).


(** ** Sample states *)

Definition empty_redis : RedisStorage.redis :=
  RedisStorage.mkRedis ∅ ∅ ∅ ∅ ∅.

Definition new_service : ChatStateManagerService.service :=
  ChatStateManagerService.mkService true true 5 ∅ ∅ empty_redis.

Definition at_minute (n : Z) : datetime :=
  mkDatetime (n * 60000000) ("minute " +:+ pretty n).

(** The service that a coroutine leaves, however it ended, and the
    metadata of a turn in it. *)
Definition final_state {A} (o : outcome ChatStateManagerService.service A)
    : ChatStateManagerService.service :=
  match o with
  | Returned _ s => s
  | Raised _ s => s
  | Blocked s => s
  end.

Definition turn_after {A} (o : outcome ChatStateManagerService.service A)
    (chat_id turn : string) : option TurnMetadata :=
  ChatStateManagerService.active_turns (final_state o) chat_id !! turn.

(** A conversation step in which the model asks for tools twice, as the
    loop of [BaseAgent.complete] runs it: both assistant messages are
    written to the same turn. *)
Definition two_tool_steps : coroutine ChatStateManagerService.service bool :=
  ChatStateManagerService.start_turn "chat1" "Hi" "turn_1" "msg_1"
    (at_minute 0) ;;
  ChatStateManagerService.add_assistant_message "chat1" "turn_1" ""
    (Some [mkToolCall "call_1" "faq_search" "{}"]) "msg_2" (at_minute 0) ;;
  ChatStateManagerService.add_tool_result "chat1" "turn_1" "call_1"
    "faq_search" "{}" None "msg_3" (at_minute 0) ;;
  ChatStateManagerService.add_assistant_message "chat1" "turn_1" ""
    (Some [mkToolCall "call_2" "faq_search" "{}"]) "msg_4" (at_minute 0) ;;
  mret true.

(** A chat whose only turn was opened at minute 0. *)
Definition one_open_turn : ChatStateManagerService.service :=
  final_state
    (ChatStateManagerService.start_turn "chat1" "Hi" "turn_1" "msg_1"
       (at_minute 0) new_service).

(** A tool that raises when first invoked and answers from then on, and a
    tool that is too slow when first invoked and answers from then on. *)
Definition flaky : string → nat → BaseAgent.tool_run :=
  λ _ attempt,
    match attempt with
    | O => BaseAgent.Fails "connection reset"
    | _ => BaseAgent.Finishes "42"
    end.

Definition slow_start : string → nat → BaseAgent.tool_run :=
  λ _ attempt,
    match attempt with
    | O => BaseAgent.Overruns
    | _ => BaseAgent.Finishes "42"
    end.

Definition sample_agent : BaseAgent.agent :=
  BaseAgent.mkAgent {[ "flaky" := flaky; "slow_start" := slow_start ]} "30.0" 3.

(** What the grouping loop leaves once the last turn is added. *)
Definition close_turn (st : list (list Message) * list Message)
    : list (list Message) :=
  match st.2 with
  | [] => st.1
  | _ => st.1 ++ [st.2]
  end.

(** A history of five turns; the third and the fifth use a tool. *)
Definition five_turns : list Message :=
  [ user_msg "u1" "one" "01"; assistant_msg "a1" "1" "02";
    user_msg "u2" "two" "03"; assistant_msg "a2" "2" "04";
    user_msg "u3" "three" "05"; assistant_calls "a3" "06" ["c3"];
    tool_msg "t3" "c3" "07"; assistant_msg "b3" "3" "08";
    user_msg "u4" "four" "09"; assistant_msg "a4" "4" "10";
    user_msg "u5" "five" "11"; assistant_calls "a5" "12" ["c5"];
    tool_msg "t5" "c5" "13"; assistant_msg "b5" "5" "14" ].

(** The store that a storage coroutine leaves, however it ended. *)
Definition store_after {A} (o : outcome RedisStorage.redis A)
    : RedisStorage.redis :=
  match o with
  | Returned _ r => r
  | Raised _ r => r
  | Blocked r => r
  end.

(** An audit entry whose tool-call id is the empty string. *)
Definition blank_id_call : ToolCallEntry :=
  mkToolCallEntry (Some "") "faq_search" "{}" (Some "01") None (Some "{}") None.

Definition sample_call : ToolCallEntry :=
  mkToolCallEntry (Some "call_1") "faq_search" "{}" (Some "01") None
    (Some "{}") None.

(** The version that the stored state document of a chat carries. *)
Definition stored_version (s : ChatStateManagerService.service)
    (chat_id : string) : option json :=
  match RedisStorage.state (ChatStateManagerService.storage s) !! chat_id with
  | Some (Some doc) => doc !! "version"
  | _ => None
  end.

(** A chat whose state document has been updated three times. *)
Definition thrice_updated : ChatStateManagerService.service :=
  final_state
    ((ChatStateManagerService.update_chat_state "chat1"
        {[ "user_preferences" := JOther "{}" ]} (at_minute 1) ;;
      ChatStateManagerService.update_chat_state "chat1"
        {[ "mood" := JStr "calm" ]} (at_minute 2) ;;
      ChatStateManagerService.update_chat_state "chat1" ∅ (at_minute 3))
       new_service).


(** [get_chat_history] without the pairing-validation pass: the raw
    history sorted, filtered, windowed and cut to the limit. *)
Definition filtered_view (limit k_turns : option Z) (raw_history : list Message)
    : list Message :=
  match raw_history with
  | [] => []
  | _ =>
    let kept :=
      filter (λ msg, Is_true (ChatStateManagerService.without_tool_calls msg))
        (RedisStorage.sort_by_timestamp raw_history) in
    ChatStateManagerService.apply_final_limit limit
      (match k_turns with
       | Some k => History._extract_turns_from_messages kept (Some k)
       | None => kept
       end)
  end.



(** A history that ends in an assistant message announcing two tool calls
    of which one was answered. *)
Definition interrupted_step : list Message :=
  [ assistant_calls "m1" "01" ["call_a"; "call_b"];
    tool_msg "m2" "call_a" "02" ].

(** One call of [add_tool_result] on a given turn: its arguments and the
    values it draws from its environment. *)
Record delivery := mkDelivery {
  d_tool_call_id : string;
  d_tool_name : string;
  d_content : string;
  d_error : option string;
  d_message_id : string;
  d_now : datetime
}.

Definition deliver (chat_id turn : string) (d : delivery)
    : coroutine ChatStateManagerService.service bool :=
  ChatStateManagerService.add_tool_result chat_id turn (d_tool_call_id d)
    (d_tool_name d) (d_content d) (d_error d) (d_message_id d) (d_now d).

(** A sequence of [add_tool_result] calls on one turn, with the values
    they return. *)
Fixpoint deliver_all (chat_id turn : string) (ds : list delivery)
    : coroutine ChatStateManagerService.service (list bool) :=
  match ds with
  | [] => mret []
  | d :: ds' =>
    b ← deliver chat_id turn d ;
    bs ← deliver_all chat_id turn ds' ;
    mret (b :: bs)
  end.

(** Every expected id is among the delivered ones. *)
Definition all_delivered (expected delivered : list string) : bool :=
  bool_decide (expected ⊆ delivered).

(** The chat's log can be written: the write lock is free and every
    element of the log is a dictionary or text that is not JSON. *)
Definition storage_ready (r : RedisStorage.redis) (chat_id : string) : Prop :=
  (("chat_write:" +:+ chat_id) ∉ RedisStorage.lock_keys r)
  ∧ Forall readable (RedisStorage.history_of r chat_id).

(** What [add_tool_result] does to the metadata of a turn that expects
    [tool_call_id], and what it returns. *)
Definition record_result (md : TurnMetadata) (tool_call_id : string)
    (now : datetime) : TurnMetadata * bool :=
  let completed :=
    if bool_decide (tool_call_id ∈ completed_tool_results md)
    then completed_tool_results md
    else completed_tool_results md ++ [tool_call_id] in
  if ChatStateManagerService.same_ids completed (tool_call_ids md) then
    (mkTurnMetadata (turn_id md) (user_message_id md)
       (assistant_message_id md) (tool_call_ids md) completed
       true (created_at md) (Some now), true)
  else
    (mkTurnMetadata (turn_id md) (user_message_id md)
       (assistant_message_id md) (tool_call_ids md) completed
       (is_complete md) (created_at md) (completed_at md), false).

(** A turn whose assistant message announced [call_1], and one whose
    assistant message announced [call_1] and [call_2]. *)
Definition awaiting_one_call : ChatStateManagerService.service :=
  final_state
    ((ChatStateManagerService.start_turn "chat1" "Hi" "turn_1" "msg_1"
        (at_minute 0) ;;
      ChatStateManagerService.add_assistant_message "chat1" "turn_1" ""
        (Some [mkToolCall "call_1" "faq_search" "{}"]) "msg_2" (at_minute 0))
       new_service).

Definition awaiting_two_calls : ChatStateManagerService.service :=
  final_state
    ((ChatStateManagerService.start_turn "chat1" "Hi" "turn_1" "msg_1"
        (at_minute 0) ;;
      ChatStateManagerService.add_assistant_message "chat1" "turn_1" ""
        (Some [mkToolCall "call_1" "faq_search" "{}";
               mkToolCall "call_2" "faq_search" "{}"]) "msg_2" (at_minute 0))
       new_service).

Definition result_of (call message_id : string) (minute : Z) : delivery :=
  mkDelivery call "faq_search" "{}" None message_id (at_minute minute).

(** The state of a turn that expects the ids [expected] and has recorded
    the results [completed]. *)
Definition tracks (md : TurnMetadata) (expected completed : list string)
    : Prop :=
  tool_call_ids md = expected
  ∧ completed_tool_results md = completed
  ∧ NoDup completed
  ∧ completed ⊆ expected
  ∧ is_complete md = all_delivered expected completed.

(** Every turn of the in-memory index has recorded results for expected
    ids only. *)
Definition index_ok (s : ChatStateManagerService.service) : Prop :=
  ∀ chat_id turn md,
    ChatStateManagerService.active_turns s chat_id !! turn = Some md →
    completed_tool_results md ⊆ tool_call_ids md.

(** A coroutine that keeps [index_ok], however it ends. *)
Definition keeps_index_ok {A} (c : coroutine ChatStateManagerService.service A)
    : Prop :=
  ∀ s, index_ok s → index_ok (final_state (c s)).

(** ** Notions for the properties of the other methods *)

(** The assistant message [a] announces the tool call [id]. *)
Definition announces (a : Message) (id : string) : Prop :=
  role_is "assistant" a = true
  ∧ has_tool_calls a = true
  ∧ id ∈ tc_id <$> default [] (m_tool_calls a).

(** A turn: a user message and then assistant/tool messages only. *)
Definition follower (msg : Message) : Prop :=
  role_is "user" msg = false
  ∧ (role_is "assistant" msg || role_is "tool" msg) = true.

Definition well_formed_turn (t : list Message) : Prop :=
  ∃ u rest, t = u :: rest ∧ role_is "user" u = true ∧ Forall follower rest.

(** A message that the validation pass handles in its last branch and
    that is not a user message met while calls are pending: neither a
    tool result nor an assistant message with tool calls. *)
Definition plain (msg : Message) : Prop :=
  (role_is "assistant" msg && has_tool_calls msg) = false
  ∧ role_is "tool" msg = false.

(** The elements that a batch of operations pushes on the two logs. *)
Definition pushed_messages (utcnow : string)
    (operations : list RedisStorage.operation) : list (stored Message) :=
  concat
    ((λ op,
        match op with
        | RedisStorage.AddMessage message =>
          [Object match m_timestamp message with
                  | None => RedisStorage.with_timestamp utcnow message
                  | Some _ => message
                  end]
        | _ => []
        end) <$> operations).

Definition pushed_tool_calls (utcnow : string)
    (operations : list RedisStorage.operation) : list (stored ToolCallEntry) :=
  concat
    ((λ op,
        match op with
        | RedisStorage.AddToolCall tool_call =>
          [Object match te_timestamp tool_call with
                  | None => RedisStorage.entry_with_timestamp utcnow tool_call
                  | Some _ => tool_call
                  end]
        | _ => []
        end) <$> operations).

(** The sum of a list of sleeps. *)
Definition total (sleeps : list Z) : Z := foldr Z.add 0 sleeps.

(** An operation that fails twice on the connection and then answers. *)
Definition third_time_lucky : nat → RedisStorage.redis_attempt string :=
  λ attempt,
    match attempt with
    | 0%nat => RedisStorage.ConnectionError "refused"
    | 1%nat => RedisStorage.ConnectionError "timed out"
    | _ => RedisStorage.Replies "PONG"
    end.

(** A store with five messages in the log of [chat1]. *)
Definition five_stored : RedisStorage.redis :=
  RedisStorage.mkRedis ∅
    {[ "chat1" :=
         [ Object (user_msg "u1" "one" "01"); Garbled;
           Object (assistant_msg "a1" "1" "02");
           Object (user_msg "u2" "two" "03");
           Object (assistant_msg "a2" "2" "04") ] ]}
    {[ "chat1" := [ Object sample_call ] ]} ∅ ∅.

(** An outcome that is not a suspension for ever and that leaves the set
    of held turn locks as it was in [s]. *)
Definition locks_as_in {A} (s : ChatStateManagerService.service)
    (o : outcome ChatStateManagerService.service A) : Prop :=
  match o with
  | Returned _ s' | Raised _ s' =>
    ChatStateManagerService._turn_locks s'
    = ChatStateManagerService._turn_locks s
  | Blocked _ => False
  end.

Definition gives_locks_back {A}
    (c : coroutine ChatStateManagerService.service A) : Prop :=
  ∀ s, locks_as_in s (c s).

(** A storage coroutine that is never suspended for ever. *)
Definition never_blocked {A} (c : coroutine RedisStorage.redis A) : Prop :=
  ∀ r r', c r ≠ Blocked r'.

(** [force_complete_turn] on the metadata of a turn. *)
Definition completed_at_time (now : datetime) (md : TurnMetadata)
    : TurnMetadata :=
  mkTurnMetadata (turn_id md) (user_message_id md) (assistant_message_id md)
    (tool_call_ids md) (completed_tool_results md) true (created_at md)
    (Some now).


(** The keys that the writing of a state document sets by itself. *)
Definition bookkeeping_key (k : string) : Prop :=
  k = "version" ∨ k = "last_updated" ∨ k = "updated_at".

(** A chat with a state document of version 3 and a mood. *)
Definition calm_chat : ChatStateManagerService.service :=
  final_state
    (ChatStateManagerService.update_chat_state "chat1"
       {[ "mood" := JStr "calm"; "version" := JInt 2 ]} (at_minute 1)
       new_service).

(** The audit log of the chat can be written and trimmed: neither lock is
    held by someone else, and every element of the log is a dictionary or
    text that is not JSON. *)
Definition audit_ready (r : RedisStorage.redis) (chat_id : string) : Prop :=
  (("tool_write:" +:+ chat_id) ∉ RedisStorage.lock_keys r)
  ∧ (("trim:" +:+ chat_id) ∉ RedisStorage.lock_keys r)
  ∧ Forall readable (RedisStorage.tool_history_of r chat_id).

(** A service whose chat has five elements in its message log, one audit
    entry and one turn in the index. *)
Definition busy_service : ChatStateManagerService.service :=
  ChatStateManagerService.mkService true true 5
    {[ "chat1" :=
         {[ "turn_1" := mkTurnMetadata "turn_1" "u1" "a1" [] [] true
                          (at_minute 0) (Some (at_minute 0)) ]} ]}
    ∅ five_stored.

(** ** Notions for the properties of the agent *)

(** The entry of index [i] in the list of assembled tool calls, the blank
    entry when the list is too short. *)
Definition entry_at (i : nat) (tool_calls : list BaseAgent.assembled)
    : BaseAgent.assembled :=
  default BaseAgent.blank (tool_calls !! i).

(** The argument fragments that a sequence of deltas carries for the tool
    call of index [i], joined in the order of arrival. *)
Definition fragment (i : nat) (d : BaseAgent.tool_call_delta) : string :=
  if decide (BaseAgent.delta_index d = i) then
    if truthy (BaseAgent.delta_arguments d)
    then default "" (BaseAgent.delta_arguments d) else ""
  else "".

Definition fragments (i : nat) (ds : list BaseAgent.tool_call_delta) : string :=
  foldr (λ d rest, fragment i d +:+ rest) "" ds.

(** The last non-empty id that a sequence of deltas carries for the tool
    call of index [i], [start] when there is none. *)
Definition latest_id (i : nat) (start : option string)
    (ds : list BaseAgent.tool_call_delta) : option string :=
  foldl
    (λ current d,
       if decide (BaseAgent.delta_index d = i) then
         if truthy (BaseAgent.delta_id d) then BaseAgent.delta_id d
         else current
       else current)
    start ds.

(** The non-empty contents of the chunks of a stream, in order, and all
    the tool-call deltas of the stream, in order. *)
Definition contents (response : list BaseAgent.chunk) : list string :=
  omap (λ c, if truthy (BaseAgent.chunk_content c)
             then BaseAgent.chunk_content c else None) response.

Definition deltas (response : list BaseAgent.chunk)
    : list BaseAgent.tool_call_delta :=
  concat (BaseAgent.chunk_tool_calls <$> response).

Definition joined (parts : list string) : string :=
  foldr String.append "" parts.

(** A stream that sends the arguments of two tool calls in interleaved
    fragments, with some content in between. *)
Definition interleaved_stream : list BaseAgent.chunk :=
  [ BaseAgent.mkChunk
      [BaseAgent.mkDelta 0 (Some "call_a") (Some "faq") (Some "{")] None;
    BaseAgent.mkChunk
      [BaseAgent.mkDelta 1 (Some "call_b") (Some "ticket") (Some "{'id'")]
      (Some "Let me ");
    BaseAgent.mkChunk
      [BaseAgent.mkDelta 0 None None (Some "}");
       BaseAgent.mkDelta 1 None None (Some ": 7}")]
      (Some "check.") ].



(** * Properties *)

(** ** Pairing validation on a resolved step *)

Example validate_resolved :
  History._validate_and_repair_tool_calls
    [user_msg "m1" "hi" "1"; assistant_calls "m2" "2" ["a"];
     tool_msg "m3" "a" "3"; assistant_msg "m4" "done" "4"]
  = [user_msg "m1" "hi" "1"; assistant_calls "m2" "2" ["a"];
     tool_msg "m3" "a" "3"; assistant_msg "m4" "done" "4"].
Proof. vm_compute. reflexivity. Qed.

(** ** Turn windowing *)

Lemma extract_fold_open (l : list Message) :
  ∀ turns current_turn, current_turn ≠ [] →
    close_turn (foldl History.extract_step (turns, current_turn) l)
    = turns ++ (current_turn ++ History.followers l) :: History.turns_of l.
Proof.
  induction l as [|msg l IH]; intros turns cur Hcur; simpl.
  - unfold close_turn; simpl. destruct cur; [done|]. by rewrite app_nil_r.
  - destruct (role_is "user" msg) eqn:Hu.
    + destruct cur as [|c cur]; [done|].
      rewrite IH by done. rewrite app_nil_r.
      by rewrite <- app_assoc.
    + destruct (role_is "assistant" msg || role_is "tool" msg) eqn:Hat.
      * destruct cur as [|c cur]; [done|].
        rewrite IH by (by destruct cur).
        by rewrite <- app_assoc.
      * by apply IH.
Qed.

Lemma extract_fold_closed (l : list Message) :
  ∀ turns,
    close_turn (foldl History.extract_step (turns, []) l)
    = turns ++ History.turns_of l.
Proof.
  induction l as [|msg l IH]; intros turns; simpl.
  - unfold close_turn; simpl. by rewrite app_nil_r.
  - destruct (role_is "user" msg) eqn:Hu.
    + by rewrite extract_fold_open.
    + destruct (role_is "assistant" msg || role_is "tool" msg); apply IH.
Qed.

Lemma slice_from_last (A : Type) (l : list A) (k : Z) :
  0 < k → slice_from l (- k) = History.last_k (Z.to_nat k) l.
Proof.
  intros Hk. unfold slice_from, History.last_k.
  destruct (Z.ltb_spec (- k) 0); [|lia].
  f_equal. lia.
Qed.

Lemma extract_turns_all (l : list Message) (k_turns : option Z) :
  History._extract_turns_from_messages l k_turns
  = concat
      (match k_turns with
       | Some k =>
         if 0 <? k then slice_from (History.turns_of l) (- k)
         else History.turns_of l
       | None => History.turns_of l
       end).
Proof.
  destruct l as [|msg l].
  - simpl. destruct k_turns as [k|]; [|done].
    destruct (0 <? k); [|done]. unfold slice_from; simpl.
    destruct (- k <? 0); by rewrite drop_nil.
  - unfold History._extract_turns_from_messages.
    pose proof (extract_fold_closed (msg :: l) []) as H.
    destruct (foldl History.extract_step ([], []) (msg :: l)) as [turns cur].
    unfold close_turn in H; simpl in H. simpl app in H.
    by rewrite H.
Qed.

Lemma followers_turns_sublist (l : list Message) :
  History.followers l ++ concat (History.turns_of l) `sublist_of` l.
Proof.
  induction l as [|msg l IH]; simpl; [done|].
  destruct (role_is "user" msg); simpl.
  - by apply sublist_skip.
  - destruct (role_is "assistant" msg || role_is "tool" msg); simpl.
    + by apply sublist_skip.
    + by apply sublist_cons.
Qed.

Lemma turns_sublist (l : list Message) :
  concat (History.turns_of l) `sublist_of` l.
Proof.
  etrans; [|apply followers_turns_sublist].
  apply sublist_inserts_l. done.
Qed.

Lemma last_turns_sublist (turns : list (list Message)) (n : nat) :
  concat (History.last_k n turns) `sublist_of` concat turns.
Proof.
  unfold History.last_k.
  assert (concat turns
          = concat (take (length turns - n) turns)
            ++ concat (drop (length turns - n) turns)) as ->
    by (by rewrite <- concat_app, take_drop).
  by apply sublist_inserts_l.
Qed.

Example five_turns_last_two :
  History._extract_turns_from_messages five_turns (Some 2)
  = [ user_msg "u4" "four" "09"; assistant_msg "a4" "4" "10";
      user_msg "u5" "five" "11"; assistant_calls "a5" "12" ["c5"];
      tool_msg "t5" "c5" "13"; assistant_msg "b5" "5" "14" ].
Proof. vm_compute. reflexivity. Qed.

Example leading_orphans_dropped :
  History._extract_turns_from_messages
    [ assistant_msg "a0" "0" "00"; tool_msg "t0" "c0" "00";
      user_msg "u1" "one" "01"; assistant_msg "a1" "1" "02" ] (Some 3)
  = [ user_msg "u1" "one" "01"; assistant_msg "a1" "1" "02" ].
Proof. vm_compute. reflexivity. Qed.

(** C8.  For every message list and every [k > 0], turn windowing returns
    exactly the messages of the last [k] turns, flattened, where a turn
    starts at each user message and includes the assistant/tool messages
    that follow it up to the next user message (a leading run of
    assistant/tool messages belongs to no turn); the result keeps the
    order that the messages have in the input. *)
Theorem windowing_last_k_turns (messages : list Message) (k : Z) :
  0 < k →
  History._extract_turns_from_messages messages (Some k)
  = concat (History.last_k (Z.to_nat k) (History.turns_of messages))
  ∧ History._extract_turns_from_messages messages (Some k)
    `sublist_of` messages.
Proof.
  intros Hk.
  assert (History._extract_turns_from_messages messages (Some k)
          = concat (History.last_k (Z.to_nat k) (History.turns_of messages)))
    as Heq.
  { rewrite extract_turns_all.
    destruct (Z.ltb_spec 0 k); [|lia].
    by rewrite slice_from_last. }
  split; [done|].
  rewrite Heq. etrans; [apply last_turns_sublist | apply turns_sublist].
Qed.

Lemma windowing_last_k_turns_witness :
  0 < 2
  ∧ History._extract_turns_from_messages five_turns (Some 2)
    = concat (History.last_k (Z.to_nat 2) (History.turns_of five_turns))
  ∧ History._extract_turns_from_messages five_turns (Some 2)
    `sublist_of` five_turns.
Proof.
  split; [lia | apply (windowing_last_k_turns five_turns 2); lia].
Defined.

(** ** Idempotent append *)

Lemma release_acquire (key : string) (r : RedisStorage.redis) :
  key ∉ RedisStorage.lock_keys r →
  RedisStorage.set_lock_keys (λ ks, ks ∖ {[key]})
    (RedisStorage.set_lock_keys (λ ks, {[key]} ∪ ks) r) = r.
Proof.
  intros Hfree. destruct r as [st h th mc ks].
  unfold RedisStorage.set_lock_keys; simpl in *.
  f_equal. set_solver.
Qed.

Lemma scan_messages_appended (l : list (stored Message)) (msg : Message) :
  RedisStorage.scan_messages l (m_message_id msg) = RedisStorage.Fresh →
  RedisStorage.scan_messages (l ++ [Object msg]) (m_message_id msg)
  = RedisStorage.Duplicate.
Proof.
  induction l as [|e l IH]; simpl.
  - intros _. by rewrite bool_decide_eq_true_2.
  - destruct e as [| | |existing_msg]; [done|done|done|].
    destruct (bool_decide _); [done | apply IH].
Qed.

Lemma scan_tool_calls_appended (l : list (stored ToolCallEntry))
    (e : ToolCallEntry) :
  RedisStorage.scan_tool_calls l (te_tool_call_id e) = RedisStorage.Fresh →
  RedisStorage.scan_tool_calls (l ++ [Object e]) (te_tool_call_id e)
  = RedisStorage.Duplicate.
Proof.
  induction l as [|x l IH]; simpl.
  - intros _. by rewrite bool_decide_eq_true_2.
  - destruct x as [| | |existing_call]; [done|done|done|].
    destruct (bool_decide _); [done | apply IH].
Qed.

(** A write of a message whose id the scan does not find fresh, or whose
    lock is taken, leaves the whole store as it was. *)
Lemma add_chat_message_skips (r : RedisStorage.redis) (chat_id : string)
    (message : Message) (utcnow : string) :
  is_Some (m_message_id message) →
  ("chat_write:" +:+ chat_id) ∈ RedisStorage.lock_keys r
  ∨ RedisStorage.scan_messages (RedisStorage.history_of r chat_id)
      (m_message_id message) ≠ RedisStorage.Fresh →
  store_after (RedisStorage.add_chat_message chat_id message utcnow r) = r.
Proof.
  intros [i Hid] Hskip.
  unfold RedisStorage.add_chat_message, RedisStorage._get_distributed_lock.
  case_bool_decide as Hlock; [done|].
  destruct Hskip as [?|Hscan]; [done|].
  unfold reraise_as. rewrite Hid.
  assert (∀ ts, m_message_id
            (match m_timestamp message with
             | None => RedisStorage.with_timestamp ts message
             | Some _ => message
             end) = m_message_id message) as Hsame
    by (intros ts; by destruct (m_timestamp message)).
  rewrite Hsame.
  change (RedisStorage.history_of
            (RedisStorage.set_lock_keys _ r) chat_id)
    with (RedisStorage.history_of r chat_id).
  destruct (RedisStorage.scan_messages _ _) eqn:Hs; simpl;
    [by apply release_acquire | done | by apply release_acquire].
Qed.

(** After a write of a message with an id, the scan for that id is not
    fresh any more, unless the lock was taken. *)
Lemma add_chat_message_recorded (r : RedisStorage.redis) (chat_id : string)
    (message : Message) (utcnow : string) :
  is_Some (m_message_id message) →
  ("chat_write:" +:+ chat_id)
    ∈ RedisStorage.lock_keys
        (store_after (RedisStorage.add_chat_message chat_id message utcnow r))
  ∨ RedisStorage.scan_messages
      (RedisStorage.history_of
         (store_after (RedisStorage.add_chat_message chat_id message utcnow r))
         chat_id)
      (m_message_id message) ≠ RedisStorage.Fresh.
Proof.
  intros [i Hid].
  destruct (decide ((("chat_write:" +:+ chat_id)) ∈ RedisStorage.lock_keys r))
    as [Hlock|Hlock].
  { left. unfold RedisStorage.add_chat_message,
      RedisStorage._get_distributed_lock.
    by rewrite bool_decide_eq_true_2. }
  right.
  destruct (RedisStorage.scan_messages (RedisStorage.history_of r chat_id)
              (m_message_id message)) eqn:Hs.
  1,3: rewrite add_chat_message_skips; [by rewrite Hs | done | right; by rewrite Hs].
  unfold RedisStorage.add_chat_message, RedisStorage._get_distributed_lock.
  rewrite bool_decide_eq_false_2 by done.
  unfold reraise_as. rewrite Hid.
  set (msg := match m_timestamp message with
              | None => RedisStorage.with_timestamp utcnow message
              | Some _ => message
              end).
  assert (m_message_id msg = m_message_id message) as Hsame
    by (unfold msg; by destruct (m_timestamp message)).
  change (RedisStorage.history_of
            (RedisStorage.set_lock_keys _ r) chat_id)
    with (RedisStorage.history_of r chat_id).
  rewrite Hsame, Hs. simpl.
  unfold RedisStorage.history_of at 1; simpl.
  rewrite lookup_insert_eq; simpl.
  rewrite Hid in Hs, Hsame.
  rewrite <- Hsame. rewrite scan_messages_appended; [done|].
  by rewrite Hsame.
Qed.

Lemma add_tool_call_skips (r : RedisStorage.redis) (chat_id : string)
    (tool_call : ToolCallEntry) (utcnow : string) :
  truthy (te_tool_call_id tool_call) = true →
  ("tool_write:" +:+ chat_id) ∈ RedisStorage.lock_keys r
  ∨ RedisStorage.scan_tool_calls (RedisStorage.tool_history_of r chat_id)
      (te_tool_call_id tool_call) ≠ RedisStorage.Fresh →
  store_after (RedisStorage.add_tool_call chat_id tool_call utcnow r) = r.
Proof.
  intros Hid Hskip.
  unfold RedisStorage.add_tool_call, RedisStorage._get_distributed_lock.
  case_bool_decide as Hlock; [done|].
  destruct Hskip as [?|Hscan]; [done|].
  unfold reraise_as.
  assert (te_tool_call_id
            (match te_timestamp tool_call with
             | None => RedisStorage.entry_with_timestamp utcnow tool_call
             | Some _ => tool_call
             end) = te_tool_call_id tool_call) as Hsame
    by (by destruct (te_timestamp tool_call)).
  rewrite Hsame, Hid.
  change (RedisStorage.tool_history_of
            (RedisStorage.set_lock_keys _ r) chat_id)
    with (RedisStorage.tool_history_of r chat_id).
  destruct (RedisStorage.scan_tool_calls _ _) eqn:Hs; simpl;
    [by apply release_acquire | done | by apply release_acquire].
Qed.

Lemma add_tool_call_recorded (r : RedisStorage.redis) (chat_id : string)
    (tool_call : ToolCallEntry) (utcnow : string) :
  truthy (te_tool_call_id tool_call) = true →
  ("tool_write:" +:+ chat_id)
    ∈ RedisStorage.lock_keys
        (store_after (RedisStorage.add_tool_call chat_id tool_call utcnow r))
  ∨ RedisStorage.scan_tool_calls
      (RedisStorage.tool_history_of
         (store_after (RedisStorage.add_tool_call chat_id tool_call utcnow r))
         chat_id)
      (te_tool_call_id tool_call) ≠ RedisStorage.Fresh.
Proof.
  intros Hid.
  destruct (decide (("tool_write:" +:+ chat_id) ∈ RedisStorage.lock_keys r))
    as [Hlock|Hlock].
  { left. unfold RedisStorage.add_tool_call,
      RedisStorage._get_distributed_lock.
    by rewrite bool_decide_eq_true_2. }
  right.
  destruct (RedisStorage.scan_tool_calls
              (RedisStorage.tool_history_of r chat_id)
              (te_tool_call_id tool_call)) eqn:Hs.
  1,3: rewrite add_tool_call_skips; [by rewrite Hs | done | right; by rewrite Hs].
  unfold RedisStorage.add_tool_call, RedisStorage._get_distributed_lock.
  rewrite bool_decide_eq_false_2 by done.
  unfold reraise_as.
  set (e := match te_timestamp tool_call with
            | None => RedisStorage.entry_with_timestamp utcnow tool_call
            | Some _ => tool_call
            end).
  assert (te_tool_call_id e = te_tool_call_id tool_call) as Hsame
    by (unfold e; by destruct (te_timestamp tool_call)).
  change (RedisStorage.tool_history_of
            (RedisStorage.set_lock_keys _ r) chat_id)
    with (RedisStorage.tool_history_of r chat_id).
  rewrite Hsame, Hid, Hs. simpl.
  unfold RedisStorage.tool_history_of at 1; simpl.
  rewrite lookup_insert_eq; simpl.
  rewrite <- Hsame. rewrite scan_tool_calls_appended; [done|].
  by rewrite Hsame.
Qed.

Lemma scan_messages_existing (l : list (stored Message)) (existing : Message)
    (id : option string) :
  Object existing ∈ l → m_message_id existing = id →
  RedisStorage.scan_messages l id ≠ RedisStorage.Fresh.
Proof.
  induction l as [|e l IH]; intros Hin Hid; [by apply not_elem_of_nil in Hin|].
  simpl. destruct e as [| | |msg].
  - apply elem_of_cons in Hin as [?|Hin]; [done | by apply IH].
  - done.
  - done.
  - case_bool_decide as Hmsg; [done|].
    apply elem_of_cons in Hin as [[= ->]|Hin]; [done | by apply IH].
Qed.

Lemma scan_tool_calls_existing (l : list (stored ToolCallEntry))
    (existing : ToolCallEntry) (id : option string) :
  Object existing ∈ l → te_tool_call_id existing = id →
  RedisStorage.scan_tool_calls l id ≠ RedisStorage.Fresh.
Proof.
  induction l as [|e l IH]; intros Hin Hid; [by apply not_elem_of_nil in Hin|].
  simpl. destruct e as [| | |call].
  - apply elem_of_cons in Hin as [?|Hin]; [done | by apply IH].
  - done.
  - done.
  - case_bool_decide as Hcall; [done|].
    apply elem_of_cons in Hin as [[= ->]|Hin]; [done | by apply IH].
Qed.

(** Writing a message whose id a stored message already has changes
    nothing; the same for an audit entry with a non-empty id. *)
Lemma add_chat_message_existing_id (r : RedisStorage.redis) (chat_id : string)
    (message existing : Message) (utcnow : string) :
  is_Some (m_message_id message) →
  Object existing ∈ RedisStorage.history_of r chat_id →
  m_message_id existing = m_message_id message →
  store_after (RedisStorage.add_chat_message chat_id message utcnow r) = r.
Proof.
  intros Hid Hin Hsame. apply add_chat_message_skips; [done|].
  right. by eapply scan_messages_existing.
Qed.

Lemma add_tool_call_existing_id (r : RedisStorage.redis) (chat_id : string)
    (tool_call existing : ToolCallEntry) (utcnow : string) :
  truthy (te_tool_call_id tool_call) = true →
  Object existing ∈ RedisStorage.tool_history_of r chat_id →
  te_tool_call_id existing = te_tool_call_id tool_call →
  store_after (RedisStorage.add_tool_call chat_id tool_call utcnow r) = r.
Proof.
  intros Hid Hin Hsame. apply add_tool_call_skips; [done|].
  right. by eapply scan_tool_calls_existing.
Qed.

Example first_write_appends :
  RedisStorage.history_of
    (store_after
       (RedisStorage.add_chat_message "chat1" (user_msg "m1" "hi" "01") "01"
          empty_redis)) "chat1"
  = [Object (user_msg "m1" "hi" "01")].
Proof. vm_compute. reflexivity. Qed.

Example first_audit_write_appends :
  RedisStorage.tool_history_of
    (store_after (RedisStorage.add_tool_call "chat1" sample_call "01" empty_redis))
    "chat1"
  = [Object sample_call].
Proof. vm_compute. reflexivity. Qed.

(** C7, as the storage does it.  Writing a message whose id is already in
    the chat's log leaves the store as it is, and so does writing a
    tool-call audit entry whose [tool_call_id] is a non-empty string that
    is already in the tool-call log: after a first write with an id, a
    second write with the same id changes nothing, whatever the log held
    before and whatever else the second entry carries. *)
Theorem append_same_id_twice (r : RedisStorage.redis) (chat_id : string)
    (message again : Message) (tool_call tool_call_again : ToolCallEntry)
    (t1 t2 : string) :
  is_Some (m_message_id message) →
  m_message_id again = m_message_id message →
  truthy (te_tool_call_id tool_call) = true →
  te_tool_call_id tool_call_again = te_tool_call_id tool_call →
  store_after
    (RedisStorage.add_chat_message chat_id again t2
       (store_after (RedisStorage.add_chat_message chat_id message t1 r)))
  = store_after (RedisStorage.add_chat_message chat_id message t1 r)
  ∧ store_after
      (RedisStorage.add_tool_call chat_id tool_call_again t2
         (store_after (RedisStorage.add_tool_call chat_id tool_call t1 r)))
    = store_after (RedisStorage.add_tool_call chat_id tool_call t1 r).
Proof.
  intros Hid Hagain Htc Htc_again. split.
  - apply add_chat_message_skips; rewrite Hagain; [done|].
    by apply add_chat_message_recorded.
  - apply add_tool_call_skips; rewrite Htc_again; [done|].
    by apply add_tool_call_recorded.
Qed.

Lemma append_same_id_twice_witness :
  store_after
    (RedisStorage.add_chat_message "chat1" (user_msg "m1" "hello" "02") "02"
       (store_after
          (RedisStorage.add_chat_message "chat1" (user_msg "m1" "hi" "01") "01"
             empty_redis)))
  = store_after
      (RedisStorage.add_chat_message "chat1" (user_msg "m1" "hi" "01") "01"
         empty_redis)
  ∧ store_after
      (RedisStorage.add_tool_call "chat1" sample_call "02"
         (store_after
            (RedisStorage.add_tool_call "chat1" sample_call "01" empty_redis)))
    = store_after
        (RedisStorage.add_tool_call "chat1" sample_call "01" empty_redis).
Proof.
  apply (append_same_id_twice empty_redis "chat1" (user_msg "m1" "hi" "01")
           (user_msg "m1" "hello" "02") sample_call sample_call "01" "02").
  - simpl. eauto.
  - reflexivity.
  - reflexivity.
  - reflexivity.
Defined.

(** The second write of an audit entry whose [tool_call_id] is the empty
    string is appended again: the log grows from one element to two. *)
Lemma blank_tool_call_id_appended_twice :
  length
    (RedisStorage.tool_history_of
       (store_after
          (RedisStorage.add_tool_call "chat1" blank_id_call "01" empty_redis))
       "chat1") = 1%nat
  ∧ length
      (RedisStorage.tool_history_of
         (store_after
            (RedisStorage.add_tool_call "chat1" blank_id_call "02"
               (store_after
                  (RedisStorage.add_tool_call "chat1" blank_id_call "01"
                     empty_redis))))
         "chat1") = 2%nat.
Proof. split; vm_compute; reflexivity. Qed.

(** ** The version of the chat-state document *)

Example thrice_updated_version :
  stored_version thrice_updated "chat1" = Some (JInt 3).
Proof. vm_compute. reflexivity. Qed.

(** A patch that carries the key ["version"] replaces the stored counter
    before [set_chat_state] adds one to it: from version 3 the document
    goes to version 1. *)
Lemma version_patch_lowers_version :
  stored_version thrice_updated "chat1" = Some (JInt 3)
  ∧ stored_version
      (final_state
         (ChatStateManagerService.update_chat_state "chat1"
            {[ "version" := JInt 0 ]} (at_minute 4) thrice_updated))
      "chat1" = Some (JInt 1).
Proof. split; vm_compute; reflexivity. Qed.

(** C9, as the code has it.  When the chat has a stored state document
    whose version is the integer [v], an [update_chat_state] with a patch
    that has no key ["version"] returns and leaves a document whose
    version is [v + 1], strictly greater than before. *)
Theorem update_chat_state_increments_version
    (s : ChatStateManagerService.service) (chat_id : string)
    (state_update : gmap string json) (v : Z) (now : datetime) :
  stored_version s chat_id = Some (JInt v) →
  state_update !! "version" = None →
  ∃ s',
    ChatStateManagerService.update_chat_state chat_id state_update now s
      = Returned () s'
    ∧ stored_version s' chat_id = Some (JInt (v + 1))
    ∧ v < v + 1.
Proof.
  intros Hstored Hpatch.
  pose proof Hstored as Hv. unfold stored_version in Hv.
  destruct (RedisStorage.state (ChatStateManagerService.storage s) !! chat_id)
    as [[doc|]|] eqn:Hdoc; [|done..].
  assert (doc ≠ ∅) as Hne by (intros ->; by rewrite lookup_empty in Hv).
  unfold ChatStateManagerService.update_chat_state,
    ChatStateManagerService.get_chat_state, reraise_as,
    ChatStateManagerService.on_storage, RedisStorage.get_chat_state,
    RedisStorage.set_chat_state, reraise_as,
    mbind, coroutine_bind, mret, coroutine_ret.
  rewrite Hdoc. simpl.
  rewrite bool_decide_eq_false_2 by done.
  unfold RedisStorage.next_version.
  rewrite lookup_insert_ne by done.
  rewrite lookup_union_r by done.
  rewrite Hv. simpl.
  eexists. split; [reflexivity|].
  unfold stored_version. simpl.
  rewrite !lookup_insert_eq.
  split; [done | lia].
Qed.

Lemma update_chat_state_increments_version_witness :
  ∃ s',
    ChatStateManagerService.update_chat_state "chat1"
      {[ "mood" := JStr "bright" ]} (at_minute 4) thrice_updated
      = Returned () s'
    ∧ stored_version s' "chat1" = Some (JInt (3 + 1))
    ∧ 3 < 3 + 1.
Proof.
  apply (update_chat_state_increments_version thrice_updated "chat1"
           {[ "mood" := JStr "bright" ]} 3 (at_minute 4)).
  - vm_compute. reflexivity.
  - reflexivity.
Defined.

(** On a chat that has no state document yet, the first
    [update_chat_state] writes the document twice, both times with
    version 1. *)
Example first_update_writes_version_one_twice :
  stored_version
    (final_state
       (ChatStateManagerService.get_chat_state "chat2" (at_minute 1) new_service))
    "chat2" = Some (JInt 1)
  ∧ stored_version
      (final_state
         (ChatStateManagerService.update_chat_state "chat2" ∅ (at_minute 1)
            new_service))
      "chat2" = Some (JInt 1).
Proof. split; vm_compute; reflexivity. Qed.

(** ** The sweep of old turns *)

Lemma release_acquire_turn_lock (chat_id : string)
    (s : ChatStateManagerService.service) :
  chat_id ∉ ChatStateManagerService._turn_locks s →
  ChatStateManagerService.set_turn_locks (λ ls, ls ∖ {[chat_id]})
    (ChatStateManagerService.set_turn_locks (λ ls, {[chat_id]} ∪ ls) s) = s.
Proof.
  intros Hfree. destruct s as [a b c d ls r].
  unfold ChatStateManagerService.set_turn_locks; simpl in *.
  f_equal. set_solver.
Qed.

(** With no turn to remove, the sweep takes the lock, finds nothing, and
    gives the lock back. *)
Lemma cleanup_nothing_to_remove (s : ChatStateManagerService.service)
    (chat_id : string) (max_age_minutes : Z) (now : datetime) :
  chat_id ∉ ChatStateManagerService._turn_locks s →
  ChatStateManagerService.to_remove max_age_minutes now
    (ChatStateManagerService.active_turns s chat_id) = [] →
  ChatStateManagerService.cleanup_active_turns chat_id max_age_minutes now s
  = Returned () s.
Proof.
  intros Hfree Hnone.
  unfold ChatStateManagerService.cleanup_active_turns,
    ChatStateManagerService.with_turn_lock.
  rewrite bool_decide_eq_false_2 by done.
  unfold mbind, coroutine_bind, ChatStateManagerService.get.
  change (ChatStateManagerService.active_turns
            (ChatStateManagerService.set_turn_locks _ s) chat_id)
    with (ChatStateManagerService.active_turns s chat_id).
  rewrite Hnone. simpl.
  unfold mret, coroutine_ret. by rewrite release_acquire_turn_lock.
Qed.

(** With a turn to remove, the sweep awaits [force_complete_turn] while it
    holds the lock that [force_complete_turn] awaits. *)
Lemma cleanup_something_to_remove (s : ChatStateManagerService.service)
    (chat_id : string) (max_age_minutes : Z) (now : datetime) :
  chat_id ∉ ChatStateManagerService._turn_locks s →
  ChatStateManagerService.to_remove max_age_minutes now
    (ChatStateManagerService.active_turns s chat_id) ≠ [] →
  ChatStateManagerService.cleanup_active_turns chat_id max_age_minutes now s
  = Blocked
      (ChatStateManagerService.set_turn_locks (λ ls, {[chat_id]} ∪ ls) s).
Proof.
  intros Hfree Hsome.
  unfold ChatStateManagerService.cleanup_active_turns,
    ChatStateManagerService.with_turn_lock at 1.
  rewrite bool_decide_eq_false_2 by done.
  unfold mbind at 1, coroutine_bind at 1, ChatStateManagerService.get.
  change (ChatStateManagerService.active_turns
            (ChatStateManagerService.set_turn_locks _ s) chat_id)
    with (ChatStateManagerService.active_turns s chat_id).
  destruct (ChatStateManagerService.to_remove _ _ _) as [|t rest]; [done|].
  simpl. unfold mbind, coroutine_bind,
    ChatStateManagerService.force_complete_turn,
    ChatStateManagerService.with_turn_lock.
  rewrite bool_decide_eq_true_2; [done|].
  simpl. set_solver.
Qed.


Lemma to_remove_old_turn (turns : gmap string TurnMetadata) (turn : string)
    (md : TurnMetadata) (max_age_minutes : Z) (now : datetime) :
  turns !! turn = Some md →
  ChatStateManagerService.older_than max_age_minutes now md = true →
  ChatStateManagerService.to_remove max_age_minutes now turns ≠ [].
Proof.
  intros Hturn Hold Hnil.
  assert (turn ∈ ChatStateManagerService.to_remove max_age_minutes now turns)
    as Hin.
  { unfold ChatStateManagerService.to_remove.
    apply list_elem_of_fmap. exists (turn, md). split; [done|].
    apply list_elem_of_filter. split.
    - simpl. by rewrite Hold.
    - by apply elem_of_map_to_list. }
  rewrite Hnil in Hin. by apply not_elem_of_nil in Hin.
Qed.

(** C4.  When the chat's index holds a turn older than [max_age_minutes],
    [cleanup_active_turns] does not return: it takes the chat's turn lock
    and then awaits [force_complete_turn], which awaits the same lock.  The
    old turn is neither completed nor removed. *)
Theorem cleanup_active_turns_blocks (s : ChatStateManagerService.service)
    (chat_id turn : string) (md : TurnMetadata) (max_age_minutes : Z)
    (now : datetime) :
  chat_id ∉ ChatStateManagerService._turn_locks s →
  ChatStateManagerService.active_turns s chat_id !! turn = Some md →
  ChatStateManagerService.older_than max_age_minutes now md = true →
  ChatStateManagerService.cleanup_active_turns chat_id max_age_minutes now s
  = Blocked
      (ChatStateManagerService.set_turn_locks (λ ls, {[chat_id]} ∪ ls) s)
  ∧ turn_after
      (ChatStateManagerService.cleanup_active_turns chat_id max_age_minutes
         now s) chat_id turn = Some md.
Proof.
  intros Hfree Hturn Hold.
  rewrite cleanup_something_to_remove;
    [|done|by eapply to_remove_old_turn].
  split; [done|]. exact Hturn.
Qed.

Lemma cleanup_active_turns_blocks_witness :
  ChatStateManagerService.cleanup_active_turns "chat1" 60 (at_minute 61)
    one_open_turn
  = Blocked
      (ChatStateManagerService.set_turn_locks (λ ls, {[ "chat1" ]} ∪ ls)
         one_open_turn)
  ∧ turn_after
      (ChatStateManagerService.cleanup_active_turns "chat1" 60 (at_minute 61)
         one_open_turn) "chat1" "turn_1"
    = Some (mkTurnMetadata "turn_1" "msg_1" "" [] [] false (at_minute 0) None).
Proof.
  apply (cleanup_active_turns_blocks one_open_turn "chat1" "turn_1"
           (mkTurnMetadata "turn_1" "msg_1" "" [] [] false (at_minute 0) None)
           60 (at_minute 61)).
  - apply (bool_decide_unpack _). vm_compute. exact I.
  - vm_compute. reflexivity.
  - vm_compute. reflexivity.
Defined.

(** A turn that is younger than the limit is no obstacle. *)
Example cleanup_young_turn :
  ChatStateManagerService.cleanup_active_turns "chat1" 60 (at_minute 60)
    one_open_turn
  = Returned () one_open_turn.
Proof. vm_compute. reflexivity. Qed.

(** ** Reading the history without tool calls *)

Lemma Forall_sublist_of {A} (P : A → Prop) (l1 l2 : list A) :
  l1 `sublist_of` l2 → Forall P l2 → Forall P l1.
Proof.
  induction 1 as [|x l1 l2 _ IH|x l1 l2 _ IH]; intros HP; [done|..].
  - inversion HP; subst. constructor; auto.
  - inversion HP; subst. auto.
Qed.

Lemma elem_of_sublist_of {A} (x : A) (l1 l2 : list A) :
  l1 `sublist_of` l2 → x ∈ l1 → x ∈ l2.
Proof.
  induction 1 as [|y l1 l2 _ IH|y l1 l2 _ IH]; intros Hx; [done|..].
  - apply elem_of_cons in Hx as [->|Hx]; [left | right; auto].
  - right. auto.
Qed.






Lemma insert_by_timestamp_elem (msg x : Message) (sorted : list Message) :
  x ∈ RedisStorage.insert_by_timestamp msg sorted ↔ x = msg ∨ x ∈ sorted.
Proof.
  induction sorted as [|msg' rest IH]; simpl.
  - rewrite list_elem_of_singleton. set_solver.
  - destruct (String.ltb _ _).
    + by rewrite elem_of_cons.
    + rewrite !elem_of_cons, IH. tauto.
Qed.

Lemma sort_by_timestamp_elem (x : Message) (l : list Message) :
  x ∈ RedisStorage.sort_by_timestamp l ↔ x ∈ l.
Proof.
  unfold RedisStorage.sort_by_timestamp.
  assert (∀ acc,
            x ∈ foldl (λ sorted msg, RedisStorage.insert_by_timestamp msg sorted)
                  acc l ↔ x ∈ acc ∨ x ∈ l) as Hgen.
  { induction l as [|msg l IH]; intros acc; simpl.
    - set_solver.
    - rewrite IH, insert_by_timestamp_elem, elem_of_cons. tauto. }
  rewrite Hgen. set_solver.
Qed.

Lemma parse_messages_elem (l : list (stored Message)) :
  ∀ parsed x,
    RedisStorage.parse_messages l = Some parsed → x ∈ parsed → Object x ∈ l.
Proof.
  induction l as [|e l IH]; intros parsed x Hparse Hx; simpl in Hparse.
  - injection Hparse as <-. by apply not_elem_of_nil in Hx.
  - destruct e as [| | |msg]; [|done|done|].
    + right. by eapply IH.
    + destruct (RedisStorage.parse_messages l) as [rest|]; [|done].
      injection Hparse as <-.
      apply elem_of_cons in Hx as [->|Hx]; [left | right; by eapply IH].
Qed.

Lemma lrange_sublist {A} (l : list A) (start stop : Z) :
  RedisStorage.lrange l start stop `sublist_of` l.
Proof.
  unfold RedisStorage.lrange.
  destruct (_ <? _); [apply sublist_nil_l|].
  etrans; [apply sublist_take | apply sublist_drop].
Qed.





Example stored_tool_turn_view :
  filtered_view None (Some 4)
    (RedisStorage.sort_by_timestamp
       [ user_msg "u1" "one" "01"; assistant_calls "a1" "02" ["c1"];
         tool_msg "t1" "c1" "03"; assistant_msg "b1" "1" "04" ])
  = [ user_msg "u1" "one" "01"; assistant_msg "b1" "1" "04" ].
Proof. vm_compute. reflexivity. Qed.




(** ** The completed set against the expected list *)

Lemma keeps_bind {A B} (c : coroutine ChatStateManagerService.service A)
    (k : A → coroutine ChatStateManagerService.service B) :
  keeps_index_ok c → (∀ a, keeps_index_ok (k a)) → keeps_index_ok (c ≫= k).
Proof.
  intros Hc Hk s Hs. specialize (Hc s Hs).
  unfold mbind, coroutine_bind.
  destruct (c s) as [a s'|e s'|s']; simpl in *; [by apply Hk|done..].
Qed.

Lemma keeps_get_bind {B}
    (k : ChatStateManagerService.service →
         coroutine ChatStateManagerService.service B) :
  (∀ s, index_ok s → index_ok (final_state (k s s))) →
  keeps_index_ok (ChatStateManagerService.get ≫= k).
Proof. intros Hk s Hs. by apply Hk. Qed.

Lemma keeps_mret {A} (a : A) :
  keeps_index_ok (mret a : coroutine ChatStateManagerService.service A).
Proof. by intros s Hs. Qed.

Lemma keeps_on_storage {A} (c : coroutine RedisStorage.redis A) :
  keeps_index_ok (ChatStateManagerService.on_storage c).
Proof.
  intros s Hs. unfold ChatStateManagerService.on_storage.
  by destruct (c (ChatStateManagerService.storage s)).
Qed.

Lemma keeps_put_turn (chat_id turn : string) (md : TurnMetadata) :
  completed_tool_results md ⊆ tool_call_ids md →
  keeps_index_ok
    (ChatStateManagerService.modify
       (ChatStateManagerService.put_turn chat_id turn md)).
Proof.
  intros Hmd s Hs chat_id' turn' md'. simpl.
  unfold ChatStateManagerService.active_turns at 1; simpl.
  destruct (decide (chat_id = chat_id')) as [<-|Hchat].
  - rewrite lookup_insert_eq; simpl.
    destruct (decide (turn = turn')) as [<-|Hturn].
    + rewrite lookup_insert_eq. by intros [= <-].
    + rewrite lookup_insert_ne by done. apply Hs.
  - rewrite lookup_insert_ne by done. apply Hs.
Qed.

Lemma keeps_with_turn_lock {A} (chat_id : string)
    (body : coroutine ChatStateManagerService.service A) :
  keeps_index_ok body →
  keeps_index_ok (ChatStateManagerService.with_turn_lock chat_id body).
Proof.
  intros Hbody s Hs. unfold ChatStateManagerService.with_turn_lock.
  case_bool_decide; [done|].
  specialize (Hbody
    (ChatStateManagerService.set_turn_locks (λ ls, {[chat_id]} ∪ ls) s) Hs).
  by destruct (body _).
Qed.

(** [start_turn], [add_tool_result] and [force_complete_turn] keep every
    completed list within its expected list; so does
    [add_assistant_message] when it is given no tool calls. *)
Lemma start_turn_keeps_index_ok (chat_id user_message new_turn_id
    new_message_id : string) (now : datetime) :
  keeps_index_ok
    (ChatStateManagerService.start_turn chat_id user_message new_turn_id
       new_message_id now).
Proof.
  apply keeps_with_turn_lock, keeps_bind; [by apply keeps_put_turn|].
  intros _. apply keeps_bind; [apply keeps_on_storage|].
  intros _. apply keeps_mret.
Qed.

Lemma add_tool_result_keeps_index_ok (chat_id turn tool_call_id tool_name
    content : string) (error : option string) (new_message_id : string)
    (now : datetime) :
  keeps_index_ok
    (ChatStateManagerService.add_tool_result chat_id turn tool_call_id
       tool_name content error new_message_id now).
Proof.
  apply keeps_with_turn_lock, keeps_get_bind. intros s Hs.
  destruct (ChatStateManagerService.active_turns s chat_id !! turn)
    as [md|] eqn:Hturn; [|done].
  case_bool_decide as Hexpected; [|done].
  pose proof (Hs _ _ _ Hturn) as Hmd.
  assert ((if bool_decide (tool_call_id ∈ completed_tool_results md)
           then completed_tool_results md
           else completed_tool_results md ++ [tool_call_id])
          ⊆ tool_call_ids md) as Hmd'.
  { case_bool_decide; [done|].
    intros x [Hx|Hx%list_elem_of_singleton]%elem_of_app;
      [by apply Hmd | by subst]. }
  refine (keeps_bind _ _ (keeps_on_storage _) _ s Hs).
  intros _. cbv zeta.
  destruct (ChatStateManagerService.same_ids _ _);
    (apply keeps_bind; [by apply keeps_put_turn | intros _; apply keeps_mret]).
Qed.

Lemma force_complete_turn_keeps_index_ok (chat_id turn : string)
    (now : datetime) :
  keeps_index_ok (ChatStateManagerService.force_complete_turn chat_id turn now).
Proof.
  apply keeps_with_turn_lock, keeps_get_bind. intros s Hs.
  destruct (ChatStateManagerService.active_turns s chat_id !! turn)
    as [md|] eqn:Hturn; [|done].
  pose proof (Hs _ _ _ Hturn) as Hmd.
  clear Hturn. revert s Hs.
  apply keeps_bind; [by apply keeps_put_turn|].
  intros _. apply keeps_mret.
Qed.

Lemma final_assistant_message_keeps_index_ok (chat_id turn content
    new_message_id : string) (now : datetime) :
  keeps_index_ok
    (ChatStateManagerService.add_assistant_message chat_id turn content None
       new_message_id now).
Proof.
  apply keeps_with_turn_lock, keeps_get_bind. intros s Hs.
  destruct (ChatStateManagerService.active_turns s chat_id !! turn)
    as [md|] eqn:Hturn; [|done].
  pose proof (Hs _ _ _ Hturn) as Hmd.
  clear Hturn. revert s Hs.
  apply keeps_bind; [by apply keeps_put_turn|].
  intros _. apply keeps_bind; [apply keeps_on_storage|].
  intros _. apply keeps_mret.
Qed.


(** C5.  In a conversation step where the model asks for tools twice, the
    second [add_assistant_message] replaces the expected list and keeps
    the completed one: the turn ends with [completed_tool_results] holding
    an id that [tool_call_ids] does not hold. *)
Theorem completed_not_within_expected :
  ∃ s md,
    two_tool_steps new_service = Returned true s
    ∧ ChatStateManagerService.active_turns s "chat1" !! "turn_1" = Some md
    ∧ tool_call_ids md = ["call_2"]
    ∧ completed_tool_results md = ["call_1"]
    ∧ ¬ completed_tool_results md ⊆ tool_call_ids md.
Proof.
  eexists _, _. split; [vm_compute; reflexivity|].
  split; [vm_compute; reflexivity|].
  split; [reflexivity|]. split; [reflexivity|].
  simpl. intros Hsub.
  specialize (Hsub "call_1" ltac:(left)).
  apply list_elem_of_singleton in Hsub. discriminate.
Qed.

(** ** Pairing validation on an interrupted step *)

(** C2.  On a history that ends in an assistant message announcing two
    tool calls of which one was answered, the pass removes the assistant
    message and keeps the tool result that was already accepted. *)
Theorem partial_result_survives :
  History._validate_and_repair_tool_calls interrupted_step
  = [tool_msg "m2" "call_a" "02"]
  ∧ History._validate_and_repair_tool_calls interrupted_step ≠ [].
Proof. split; [vm_compute; reflexivity | by vm_compute]. Qed.

(** C6.  On the same history, the pass applied to its own output drops
    the tool result that the first application kept. *)
Theorem second_pass_drops_more :
  History._validate_and_repair_tool_calls
    (History._validate_and_repair_tool_calls interrupted_step) = []
  ∧ History._validate_and_repair_tool_calls
      (History._validate_and_repair_tool_calls interrupted_step)
    ≠ History._validate_and_repair_tool_calls interrupted_step.
Proof. split; [vm_compute; reflexivity | by vm_compute]. Qed.

(** The same happens when a user message arrives while a call is
    pending. *)
Example partial_result_survives_user :
  History._validate_and_repair_tool_calls
    (interrupted_step ++ [user_msg "m3" "again" "03"])
  = [tool_msg "m2" "call_a" "02"; user_msg "m3" "again" "03"].
Proof. vm_compute. reflexivity. Qed.

(** ** Tool results and turn completion *)

Example one_call_delivered_twice :
  match deliver_all "chat1" "turn_1"
          [result_of "call_1" "msg_3" 1; result_of "call_1" "msg_4" 2]
          awaiting_one_call with
  | Returned flags s =>
    Some (flags,
          completed_at <$> ChatStateManagerService.active_turns s "chat1" !! "turn_1")
  | _ => None
  end
  = Some ([true; true], Some (Some (at_minute 2))).
Proof. vm_compute. reflexivity. Qed.

Lemma scan_messages_objects (l : list (stored Message)) (id : option string) :
  Forall readable l →
  RedisStorage.scan_messages l id ≠ RedisStorage.ScanFailed.
Proof.
  induction 1 as [|e l [He1 He2] _ IH]; simpl; [done|].
  destruct e as [| | |msg]; [done|done|done|].
  by destruct (bool_decide _).
Qed.

(** On a log that can be written, [add_chat_message] returns, and the log
    can be written again. *)
Lemma add_chat_message_ready (r : RedisStorage.redis) (chat_id : string)
    (message : Message) (utcnow : string) :
  storage_ready r chat_id →
  is_Some (m_message_id message) →
  ∃ r',
    RedisStorage.add_chat_message chat_id message utcnow r = Returned () r'
    ∧ storage_ready r' chat_id.
Proof.
  intros [Hlock Hobjects] [i Hid].
  unfold RedisStorage.add_chat_message, RedisStorage._get_distributed_lock.
  rewrite bool_decide_eq_false_2 by done.
  unfold reraise_as. rewrite Hid.
  change (RedisStorage.history_of
            (RedisStorage.set_lock_keys _ r) chat_id)
    with (RedisStorage.history_of r chat_id).
  pose proof (scan_messages_objects _
    (m_message_id
       match m_timestamp message with
       | Some _ => message
       | None => RedisStorage.with_timestamp utcnow message
       end) Hobjects) as Hscan.
  destruct (RedisStorage.scan_messages _ _); [| |done].
  - eexists. split; [reflexivity|].
    by rewrite release_acquire.
  - eexists. split; [reflexivity|].
    destruct r as [st h th mc ks]. split; simpl in *.
    + set_solver.
    + unfold RedisStorage.history_of; simpl.
      rewrite lookup_insert_eq; simpl.
      apply Forall_app. split; [done|]. by repeat constructor.
Qed.

(** [add_tool_result] on a turn of the index that expects the id: the
    call returns the flag of [record_result] and leaves its metadata in
    the index. *)
Lemma add_tool_result_expected (s : ChatStateManagerService.service)
    (chat_id turn : string) (md : TurnMetadata) (d : delivery) :
  chat_id ∉ ChatStateManagerService._turn_locks s →
  storage_ready (ChatStateManagerService.storage s) chat_id →
  ChatStateManagerService.active_turns s chat_id !! turn = Some md →
  d_tool_call_id d ∈ tool_call_ids md →
  ∃ s',
    deliver chat_id turn d s
      = Returned ((record_result md (d_tool_call_id d) (d_now d)).2) s'
    ∧ (chat_id ∉ ChatStateManagerService._turn_locks s')
    ∧ storage_ready (ChatStateManagerService.storage s') chat_id
    ∧ ChatStateManagerService.active_turns s' chat_id !! turn
      = Some ((record_result md (d_tool_call_id d) (d_now d)).1).
Proof.
  intros Hfree Hready Hturn Hexpected.
  unfold deliver, ChatStateManagerService.add_tool_result,
    ChatStateManagerService.with_turn_lock.
  rewrite bool_decide_eq_false_2 by done.
  unfold mbind at 1, coroutine_bind at 1, ChatStateManagerService.get.
  change (ChatStateManagerService.active_turns
            (ChatStateManagerService.set_turn_locks _ s) chat_id)
    with (ChatStateManagerService.active_turns s chat_id).
  rewrite Hturn.
  rewrite bool_decide_eq_true_2 by done.
  unfold mbind at 1, coroutine_bind at 1, ChatStateManagerService.on_storage.
  change (ChatStateManagerService.storage
            (ChatStateManagerService.set_turn_locks _ s))
    with (ChatStateManagerService.storage s).
  edestruct (add_chat_message_ready (ChatStateManagerService.storage s) chat_id)
    as (r' & -> & Hready'); [done | by eexists |].
  unfold record_result.
  destruct (ChatStateManagerService.same_ids _ _); simpl;
    unfold mbind, coroutine_bind, ChatStateManagerService.modify,
      mret, coroutine_ret; simpl;
    (eexists; split; [reflexivity|]);
    destruct s as [a b c turns ls r]; simpl in *;
    (split; [set_solver|]); (split; [done|]);
    unfold ChatStateManagerService.active_turns,
      ChatStateManagerService.set_turn_locks,
      ChatStateManagerService.put_turn,
      ChatStateManagerService.set_active_turns; simpl;
    rewrite lookup_insert_eq; simpl; by rewrite lookup_insert_eq.
Qed.

Lemma all_delivered_same (expected l1 l2 : list string) :
  (∀ x, x ∈ l1 ↔ x ∈ l2) →
  all_delivered expected l1 = all_delivered expected l2.
Proof.
  intros Heq. unfold all_delivered. apply bool_decide_ext.
  split; intros Hsub x Hx; apply Heq || apply Heq; by apply Hsub.
Qed.

Lemma same_ids_all_delivered (completed expected : list string) :
  completed ⊆ expected →
  ChatStateManagerService.same_ids completed expected
  = all_delivered expected completed.
Proof.
  intros Hsub. unfold ChatStateManagerService.same_ids, all_delivered.
  apply bool_decide_ext. split.
  - intros Heq x Hx.
    apply (elem_of_list_to_set (C := gset string)).
    rewrite Heq. by apply elem_of_list_to_set.
  - intros Hsup. apply set_eq. intros x.
    rewrite !elem_of_list_to_set. split; [apply Hsub | apply Hsup].
Qed.

Lemma record_result_tracks (md : TurnMetadata) (expected completed : list string)
    (tool_call_id : string) (now : datetime) :
  tracks md expected completed →
  tool_call_id ∈ expected →
  ∃ completed',
    tracks (record_result md tool_call_id now).1 expected completed'
    ∧ (record_result md tool_call_id now).2
      = all_delivered expected completed'
    ∧ (∀ x, x ∈ completed' ↔ x ∈ completed ++ [tool_call_id])
    ∧ (tool_call_id ∈ completed → completed' = completed).
Proof.
  intros (Hids & Hdone & Hnodup & Hsub & Hflag) Hexpected.
  unfold record_result. rewrite Hids, Hdone.
  set (completed' := if bool_decide (tool_call_id ∈ completed)
                     then completed else completed ++ [tool_call_id]).
  assert (completed' ⊆ expected) as Hsub'.
  { unfold completed'. case_bool_decide; [done|].
    intros x [Hx|Hx%list_elem_of_singleton]%elem_of_app; [by apply Hsub|by subst]. }
  assert (NoDup completed') as Hnodup'.
  { unfold completed'. case_bool_decide; [done|].
    apply NoDup_app. split; [done|]. split; [|apply NoDup_singleton].
    intros x Hx ->%list_elem_of_singleton. done. }
  assert (∀ x, x ∈ completed' ↔ x ∈ completed ++ [tool_call_id]) as Hmem.
  { intros x. unfold completed'. case_bool_decide as Hin; [|done].
    rewrite elem_of_app, list_elem_of_singleton. split; [by left|].
    intros [?| ->]; done. }
  exists completed'.
  rewrite (same_ids_all_delivered completed' expected Hsub').
  assert (tool_call_id ∈ completed → completed' = completed) as Hagain.
  { unfold completed'. intros Hin. by rewrite bool_decide_eq_true_2. }
  destruct (all_delivered expected completed') eqn:Hall; simpl.
  - split; [|done]. unfold tracks; simpl. by rewrite Hall.
  - split; [|done]. unfold tracks; simpl. rewrite Hall, Hflag.
    repeat split; try done.
    unfold all_delivered in *.
    apply bool_decide_eq_false in Hall. apply bool_decide_eq_false.
    intros Hsup. apply Hall. intros x Hx. apply Hmem.
    apply elem_of_app. left. by apply Hsup.
Qed.

(** The run of a sequence of deliveries of expected ids. *)
Lemma deliver_all_tracks (chat_id turn : string) (expected : list string)
    (ds : list delivery) :
  ∀ (s : ChatStateManagerService.service) (md : TurnMetadata)
    (completed : list string),
    chat_id ∉ ChatStateManagerService._turn_locks s →
    storage_ready (ChatStateManagerService.storage s) chat_id →
    ChatStateManagerService.active_turns s chat_id !! turn = Some md →
    tracks md expected completed →
    Forall (λ d, d_tool_call_id d ∈ expected) ds →
    ∃ flags s' md' completed',
      deliver_all chat_id turn ds s = Returned flags s'
      ∧ ChatStateManagerService.active_turns s' chat_id !! turn = Some md'
      ∧ tracks md' expected completed'
      ∧ (∀ x, x ∈ completed' ↔ x ∈ completed ++ (d_tool_call_id <$> ds))
      ∧ length flags = length ds
      ∧ ∀ n, (n < length ds)%nat →
          flags !! n
          = Some (all_delivered expected
                    (completed ++ take (S n) (d_tool_call_id <$> ds))).
Proof.
  induction ds as [|d ds IH]; intros s md completed Hfree Hready Hturn Htracks Hds.
  - exists [], s, md, completed. simpl.
    split; [done|]. split; [done|]. split; [done|].
    split; [intros x; by rewrite app_nil_r|].
    split; [done|]. intros; lia.
  - inversion Hds as [|? ? Hd Hds']; subst.
    pose proof Htracks as (Hids & _).
    destruct (add_tool_result_expected s chat_id turn md d)
      as (s1 & Hrun & Hfree1 & Hready1 & Hturn1); [done|done|done|by rewrite Hids|].
    destruct (record_result_tracks md expected completed (d_tool_call_id d)
                (d_now d) Htracks Hd)
      as (completed1 & Htracks1 & Hflag1 & Hmem1 & _).
    destruct (IH s1 _ completed1 Hfree1 Hready1 Hturn1 Htracks1 Hds')
      as (flags & s' & md' & completed' & Hrun' & Hturn' & Htracks' & Hmem'
          & Hlen & Hflags).
    exists ((record_result md (d_tool_call_id d) (d_now d)).2 :: flags),
      s', md', completed'.
    split.
    { simpl. unfold mbind, coroutine_bind. rewrite Hrun.
      fold (@mbind (coroutine ChatStateManagerService.service) _).
      unfold mbind, coroutine_bind in Hrun' |- *. by rewrite Hrun'. }
    split; [done|]. split; [done|].
    split.
    { intros x. rewrite Hmem'. rewrite fmap_cons.
      rewrite !elem_of_app, Hmem1, elem_of_cons, elem_of_app,
        list_elem_of_singleton. tauto. }
    split; [simpl; by rewrite Hlen|].
    intros [|n] Hn; simpl.
    + rewrite Hflag1. f_equal. apply all_delivered_same.
      intros x. rewrite Hmem1. by rewrite take_0.
    + rewrite Hflags by (simpl in Hn; lia). f_equal.
      apply all_delivered_same. intros x.
      rewrite !elem_of_app, Hmem1, elem_of_cons, elem_of_app,
        list_elem_of_singleton. tauto.
Qed.

Lemma elem_of_take_le {A} (l : list A) (i j : nat) (x : A) :
  (i ≤ j)%nat → x ∈ take i l → x ∈ take j l.
Proof.
  revert i j. induction l as [|a l IH]; intros i j Hij Hx.
  - rewrite take_nil in Hx. by apply not_elem_of_nil in Hx.
  - destruct i as [|i]; [by apply not_elem_of_nil in Hx|].
    destruct j as [|j]; [lia|].
    simpl in *. apply elem_of_cons in Hx as [->|Hx]; [left|].
    right. apply (IH i j); [lia | done].
Qed.

(** Delivering again an id that is already recorded leaves both lists of
    the turn as they are. *)
Lemma redelivery_keeps_lists (md : TurnMetadata) (tool_call_id : string)
    (now : datetime) :
  tool_call_id ∈ completed_tool_results md →
  tool_call_ids (record_result md tool_call_id now).1 = tool_call_ids md
  ∧ completed_tool_results (record_result md tool_call_id now).1
    = completed_tool_results md.
Proof.
  intros Hin. unfold record_result.
  rewrite bool_decide_eq_true_2 by done.
  by destruct (ChatStateManagerService.same_ids _ _).
Qed.

(** On a turn that expects one call, the second delivery of that call
    returns [True] again and stamps [completed_at] anew. *)
Lemma redelivery_reports_complete_again :
  ∃ s1 s2 md1 md2,
    deliver "chat1" "turn_1" (result_of "call_1" "msg_3" 1) awaiting_one_call
      = Returned true s1
    ∧ deliver "chat1" "turn_1" (result_of "call_1" "msg_4" 2) s1
      = Returned true s2
    ∧ ChatStateManagerService.active_turns s1 "chat1" !! "turn_1" = Some md1
    ∧ ChatStateManagerService.active_turns s2 "chat1" !! "turn_1" = Some md2
    ∧ completed_tool_results md1 = ["call_1"]
    ∧ completed_at md1 = Some (at_minute 1)
    ∧ completed_at md2 = Some (at_minute 2)
    ∧ md1 ≠ md2.
Proof.
  eexists _, _, _, _.
  split; [vm_compute; reflexivity|].
  split; [vm_compute; reflexivity|].
  split; [vm_compute; reflexivity|].
  split; [vm_compute; reflexivity|].
  split; [reflexivity|]. split; [reflexivity|]. split; [reflexivity|].
  discriminate.
Qed.

(** C1, as the code has it.  Take a turn of the index that expects a
    non-empty list of tool-call ids, has recorded no result and is not
    complete, and any sequence of [add_tool_result] calls that deliver
    expected ids.  Every call returns, and the n-th returns [True] exactly
    when every expected id is among the first n ids delivered: [False]
    before the call that makes the completed set equal the expected set,
    [True] at that call and at every later call, re-deliveries included.
    [is_complete] holds afterwards exactly when every expected id was
    delivered; the expected list is unchanged and the completed list holds
    each delivered id once. *)
Theorem tool_results_complete_turn (s : ChatStateManagerService.service)
    (chat_id turn : string) (md : TurnMetadata) (ds : list delivery) :
  chat_id ∉ ChatStateManagerService._turn_locks s →
  storage_ready (ChatStateManagerService.storage s) chat_id →
  ChatStateManagerService.active_turns s chat_id !! turn = Some md →
  tool_call_ids md ≠ [] →
  completed_tool_results md = [] →
  is_complete md = false →
  Forall (λ d, d_tool_call_id d ∈ tool_call_ids md) ds →
  ∃ flags s' md',
    deliver_all chat_id turn ds s = Returned flags s'
    ∧ ChatStateManagerService.active_turns s' chat_id !! turn = Some md'
    ∧ length flags = length ds
    ∧ (∀ n, (n < length ds)%nat →
         flags !! n
         = Some (all_delivered (tool_call_ids md)
                   (take (S n) (d_tool_call_id <$> ds))))
    ∧ (∀ i j, (i ≤ j < length ds)%nat →
         flags !! i = Some true → flags !! j = Some true)
    ∧ is_complete md'
      = all_delivered (tool_call_ids md) (d_tool_call_id <$> ds)
    ∧ tool_call_ids md' = tool_call_ids md
    ∧ NoDup (completed_tool_results md')
    ∧ (∀ x, x ∈ completed_tool_results md' ↔ x ∈ d_tool_call_id <$> ds).
Proof.
  intros Hfree Hready Hturn Hexpected Hnone Hopen Hds.
  assert (tracks md (tool_call_ids md) []) as Htracks.
  { repeat split; try done.
    - constructor.
    - intros x Hx. by apply not_elem_of_nil in Hx.
    - rewrite Hopen. symmetry. apply bool_decide_eq_false.
      intros Hsub. destruct (tool_call_ids md) as [|x ids]; [done|].
      specialize (Hsub x ltac:(left)). by apply not_elem_of_nil in Hsub. }
  destruct (deliver_all_tracks chat_id turn (tool_call_ids md) ds s md []
              Hfree Hready Hturn Htracks Hds)
    as (flags & s' & md' & completed' & Hrun & Hturn' & Htracks' & Hmem
        & Hlen & Hflags).
  destruct Htracks' as (Hids' & Hdone' & Hnodup' & _ & Hflag').
  simpl in Hmem, Hflags.
  exists flags, s', md'.
  split; [done|]. split; [done|]. split; [done|]. split; [done|].
  split.
  { intros i j [Hij Hj] Hi.
    rewrite Hflags in Hi |- * by lia.
    injection Hi as Hi. f_equal.
    unfold all_delivered in *.
    apply bool_decide_eq_true in Hi. apply bool_decide_eq_true.
    intros x Hx. eapply elem_of_take_le; [|by apply Hi]. lia. }
  split.
  { rewrite Hflag'. by apply all_delivered_same. }
  split; [done|]. rewrite Hdone'. by split.
Qed.

Lemma tool_results_complete_turn_witness :
  ∃ flags s' md',
    deliver_all "chat1" "turn_1"
      [ result_of "call_1" "msg_3" 1; result_of "call_1" "msg_4" 2;
        result_of "call_2" "msg_5" 3; result_of "call_2" "msg_6" 4 ]
      awaiting_two_calls = Returned flags s'
    ∧ ChatStateManagerService.active_turns s' "chat1" !! "turn_1" = Some md'
    ∧ length flags = 4%nat
    ∧ (∀ n, (n < 4)%nat →
         flags !! n
         = Some (all_delivered ["call_1"; "call_2"]
                   (take (S n) ["call_1"; "call_1"; "call_2"; "call_2"])))
    ∧ (∀ i j, (i ≤ j < 4)%nat →
         flags !! i = Some true → flags !! j = Some true)
    ∧ is_complete md'
      = all_delivered ["call_1"; "call_2"]
          ["call_1"; "call_1"; "call_2"; "call_2"]
    ∧ tool_call_ids md' = ["call_1"; "call_2"]
    ∧ NoDup (completed_tool_results md')
    ∧ (∀ x, x ∈ completed_tool_results md'
            ↔ x ∈ ["call_1"; "call_1"; "call_2"; "call_2"]).
Proof.
  apply (tool_results_complete_turn awaiting_two_calls "chat1" "turn_1"
           (mkTurnMetadata "turn_1" "msg_1" "msg_2" ["call_1"; "call_2"] []
              false (at_minute 0) None)
           [ result_of "call_1" "msg_3" 1; result_of "call_1" "msg_4" 2;
             result_of "call_2" "msg_5" 3; result_of "call_2" "msg_6" 4 ]).
  - apply (bool_decide_unpack _). vm_compute. exact I.
  - split.
    + apply (bool_decide_unpack _). vm_compute. exact I.
    + vm_compute. repeat (constructor; [split; discriminate|]). constructor.
  - vm_compute. reflexivity.
  - discriminate.
  - reflexivity.
  - reflexivity.
  - simpl. repeat (constructor; [apply (bool_decide_unpack _); vm_compute; exact I|]).
    constructor.
Defined.

Example two_calls_flags :
  match deliver_all "chat1" "turn_1"
          [ result_of "call_1" "msg_3" 1; result_of "call_1" "msg_4" 2;
            result_of "call_2" "msg_5" 3; result_of "call_2" "msg_6" 4 ]
          awaiting_two_calls with
  | Returned flags _ => flags
  | _ => []
  end = [false; false; true; true].
Proof. vm_compute. reflexivity. Qed.

(** ** The tool-call executor *)

(** [_execute_tool_call] never raises: the retry branch of
    [execute_single_tool_call] for exceptions has nothing to catch. *)
Lemma execute_tool_call_never_raises (a : BaseAgent.agent)
    (tc : BaseAgent.tool_call) (attempt : nat) (e : string) :
  BaseAgent._execute_tool_call a tc attempt ≠ BaseAgent.Raising e.
Proof.
  unfold BaseAgent._execute_tool_call.
  destruct (BaseAgent.function_arguments tc); [done|].
  destruct (BaseAgent.available_functions a !! BaseAgent.function_name tc)
    as [function|]; [|done].
  by destruct (function function_args attempt).
Qed.

(** A tool that raises at the first attempt is answered for at once, with
    the error text of that attempt, whatever it would do at later
    attempts. *)
Lemma raising_tool_answered_at_once (a : BaseAgent.agent)
    (tc : BaseAgent.tool_call) (function : string → nat → BaseAgent.tool_run)
    (function_args e : string) :
  BaseAgent.tool_call_retry_attempts a ≠ 0%nat →
  BaseAgent.function_arguments tc = BaseAgent.Loaded function_args →
  BaseAgent.available_functions a !! BaseAgent.function_name tc
    = Some function →
  function function_args 0%nat = BaseAgent.Fails e →
  BaseAgent.execute_single_tool_call a tc
  = Some (BaseAgent.tool_result tc
            ("Error executing tool '" +:+ BaseAgent.function_name tc
             +:+ "': " +:+ e)).
Proof.
  intros Hn Hargs Hfun Hfails.
  unfold BaseAgent.execute_single_tool_call.
  destruct (BaseAgent.tool_call_retry_attempts a) as [|n]; [done|].
  simpl. unfold BaseAgent._execute_tool_call.
  by rewrite Hargs, Hfun, Hfails.
Qed.

(** With at least one attempt allowed, every tool call is answered with a
    message of role ["tool"] for its id. *)
Lemma attempts_from_answers (a : BaseAgent.agent) (tc : BaseAgent.tool_call)
    (n : nat) :
  ∀ k, (k + S n = BaseAgent.tool_call_retry_attempts a)%nat →
    ∃ content,
      BaseAgent.attempts_from a tc (seq k (S n))
      = Some (BaseAgent.tool_result tc content).
Proof.
  induction n as [|n IH]; intros k Hk.
  - simpl. unfold BaseAgent.wait_for, BaseAgent._execute_tool_call.
    assert ((k <? BaseAgent.tool_call_retry_attempts a - 1)%nat = false)
      as -> by (apply Nat.ltb_ge; lia).
    destruct (BaseAgent.function_arguments tc); [by eexists|].
    destruct (BaseAgent.available_functions a !! BaseAgent.function_name tc)
      as [function|]; [|by eexists].
    destruct (function function_args k); by eexists.
  - change (seq k (S (S n))) with (k :: seq (S k) (S n)).
    cbn [BaseAgent.attempts_from].
    assert ((k <? BaseAgent.tool_call_retry_attempts a - 1)%nat = true)
      as -> by (apply Nat.ltb_lt; lia).
    destruct (BaseAgent.wait_for (BaseAgent._execute_tool_call a tc k))
      as [result| |e] eqn:Hwait.
    + unfold BaseAgent.wait_for, BaseAgent._execute_tool_call in Hwait.
      destruct (BaseAgent.function_arguments tc);
        [injection Hwait as <-; by eexists|].
      destruct (BaseAgent.available_functions a !! BaseAgent.function_name tc)
        as [function|]; [|injection Hwait as <-; by eexists].
      destruct (function function_args k); try done;
        injection Hwait as <-; by eexists.
    + apply IH. lia.
    + apply IH. lia.
Qed.

Lemma executor_always_answers (a : BaseAgent.agent) (tc : BaseAgent.tool_call) :
  BaseAgent.tool_call_retry_attempts a ≠ 0%nat →
  ∃ content,
    BaseAgent.execute_single_tool_call a tc
    = Some (BaseAgent.tool_result tc content).
Proof.
  intros Hn. unfold BaseAgent.execute_single_tool_call.
  destruct (attempts_from_answers a tc
              (BaseAgent.tool_call_retry_attempts a - 1) 0%nat) as [content Hrun];
    [lia|].
  exists content. rewrite <- Hrun. f_equal. f_equal. lia.
Qed.

(** C3.  With three attempts allowed, a tool that is too slow at its first
    attempt is run again and its second answer is returned, while a tool
    that raises at its first attempt is not run again: the executor
    returns the error message of the first attempt, although the tool
    would have answered at the second. *)
Theorem raised_error_not_retried :
  BaseAgent.execute_single_tool_call sample_agent
    (BaseAgent.mkCall "call_1" "slow_start" (BaseAgent.Loaded "{}"))
  = Some (mkMessage None None (Some "tool") "42" None
            (Some "call_1") (Some "slow_start") None None)
  ∧ BaseAgent.execute_single_tool_call sample_agent
      (BaseAgent.mkCall "call_2" "flaky" (BaseAgent.Loaded "{}"))
    = Some (mkMessage None None (Some "tool")
              "Error executing tool 'flaky': connection reset" None
              (Some "call_2") (Some "flaky") None None)
  ∧ flaky "{}" 1%nat = BaseAgent.Finishes "42".
Proof. repeat split; vm_compute; reflexivity. Qed.

(** * Properties of the other methods *)

(** ** Pairing validation *)

Lemma remove_unresolved_sublist (repaired : list Message)
    (pending : gmap string Message) :
  History.remove_unresolved repaired pending `sublist_of` repaired.
Proof.
  unfold History.remove_unresolved.
  generalize (History.messages_to_remove repaired pending). intros indices.
  revert repaired.
  induction indices as [|i indices IH]; intros repaired; simpl; [done|].
  etrans; [apply IH | apply sublist_delete].
Qed.

Lemma validate_fold_sublist (l : list Message) :
  ∀ repaired pending acc,
    repaired `sublist_of` acc →
    (foldl History.validate_step (repaired, pending) l).1
    `sublist_of` acc ++ l.
Proof.
  induction l as [|msg l IH]; intros repaired pending acc Hsub; simpl.
  - by rewrite app_nil_r.
  - replace (acc ++ msg :: l) with ((acc ++ [msg]) ++ l)
      by (by rewrite <- app_assoc).
    assert (repaired ++ [msg] `sublist_of` acc ++ [msg]) as Hboth
      by (by apply sublist_app).
    assert (repaired `sublist_of` acc ++ [msg]) as Hskip
      by (by apply sublist_inserts_r).
    destruct (role_is "assistant" msg && has_tool_calls msg); [by apply IH|].
    destruct (role_is "tool" msg).
    + destruct (_ && _); by apply IH.
    + destruct (_ && _); [|by apply IH].
      apply IH. apply sublist_app; [|done].
      etrans; [apply remove_unresolved_sublist | done].
Qed.

(** X1.  The pairing-validation pass only drops messages: its output is a
    sublist of its input, so it holds no message that the input does not
    hold and keeps the messages in the order of the input. *)
Theorem validate_only_drops (messages : list Message) :
  History._validate_and_repair_tool_calls messages `sublist_of` messages.
Proof.
  unfold History._validate_and_repair_tool_calls.
  pose proof (validate_fold_sublist messages [] ∅ [] (sublist_nil_l _)) as H.
  destruct (foldl History.validate_step ([], ∅) messages) as [repaired pending].
  simpl in H.
  destruct (negb _); [|done].
  etrans; [apply remove_unresolved_sublist | done].
Qed.

Lemma validate_fold_plain (l : list Message) :
  ∀ repaired,
    Forall plain l →
    foldl History.validate_step (repaired, ∅) l = (repaired ++ l, ∅).
Proof.
  induction l as [|msg l IH]; intros repaired Hplain; simpl.
  - by rewrite app_nil_r.
  - inversion Hplain as [|? ? [Hcalls Htool] Hplain']; subst.
    rewrite Hcalls, Htool.
    rewrite bool_decide_eq_true_2 by done. simpl.
    rewrite IH by done. by rewrite <- app_assoc.
Qed.

(** X2.  A history without tool results and without assistant messages
    that announce tool calls passes the validation unchanged. *)
Theorem validate_plain_history (messages : list Message) :
  Forall plain messages →
  History._validate_and_repair_tool_calls messages = messages.
Proof.
  intros Hplain. unfold History._validate_and_repair_tool_calls.
  rewrite validate_fold_plain by done.
  by rewrite bool_decide_eq_true_2.
Qed.

Lemma validate_plain_history_witness :
  History._validate_and_repair_tool_calls
    [user_msg "u1" "one" "01"; assistant_msg "a1" "1" "02";
     user_msg "u2" "two" "03"]
  = [user_msg "u1" "one" "01"; assistant_msg "a1" "1" "02";
     user_msg "u2" "two" "03"].
Proof.
  apply (validate_plain_history
           [user_msg "u1" "one" "01"; assistant_msg "a1" "1" "02";
            user_msg "u2" "two" "03"]).
  repeat (constructor; [split; reflexivity|]). constructor.
Defined.

Lemma announce_all_lookup (msg : Message) (tcs : list ToolCall) :
  ∀ (pending : gmap string Message) id a,
    foldl (λ p tool_call, <[tc_id tool_call := msg]> p) pending tcs !! id
      = Some a →
    (a = msg ∧ id ∈ tc_id <$> tcs) ∨ pending !! id = Some a.
Proof.
  induction tcs as [|tc tcs IH]; intros pending id a Hlookup; simpl in *.
  - by right.
  - apply IH in Hlookup as [[-> Hin]|Hlookup].
    + left. split; [done|]. by right.
    + destruct (decide (tc_id tc = id)) as [<-|Hne].
      * rewrite lookup_insert_eq in Hlookup. injection Hlookup as <-.
        left. split; [done|]. by left.
      * rewrite lookup_insert_ne in Hlookup by done. by right.
Qed.

Lemma role_tool_not_assistant (msg : Message) :
  role_is "tool" msg = true → role_is "assistant" msg = false.
Proof.
  unfold role_is. intros Htool%bool_decide_eq_true.
  apply bool_decide_eq_false. by rewrite Htool.
Qed.

(** What the validation loop keeps true: every pending id was announced
    by a message already read, and every tool result it kept answers an
    id that a message already read announced. *)
Lemma validate_fold_announced (l : list Message) :
  ∀ repaired pending read,
    (∀ id a, pending !! id = Some a → a ∈ read ∧ announces a id) →
    (∀ msg, msg ∈ repaired → role_is "tool" msg = true →
       ∃ id a, m_tool_call_id msg = Some id ∧ a ∈ read ∧ announces a id) →
    ∀ msg,
      msg ∈ (foldl History.validate_step (repaired, pending) l).1 →
      role_is "tool" msg = true →
      ∃ id a, m_tool_call_id msg = Some id ∧ a ∈ read ++ l ∧ announces a id.
Proof.
  induction l as [|m l IH]; intros repaired pending read Hpending Hkept; simpl.
  - intros msg Hmsg Htool. rewrite app_nil_r. by apply Hkept.
  - replace (read ++ m :: l) with ((read ++ [m]) ++ l)
      by (by rewrite <- app_assoc).
    assert (∀ id a, pending !! id = Some a →
              a ∈ read ++ [m] ∧ announces a id) as Hpending'.
    { intros id a [Ha Hann]%Hpending. split; [|done].
      apply elem_of_app. by left. }
    assert (∀ msg, msg ∈ repaired → role_is "tool" msg = true →
              ∃ id a, m_tool_call_id msg = Some id ∧ a ∈ read ++ [m]
                      ∧ announces a id) as Hkept'.
    { intros msg Hmsg Htool.
      destruct (Hkept msg Hmsg Htool) as (id & a & Hid & Ha & Hann).
      exists id, a. split; [done|]. split; [|done].
      apply elem_of_app. by left. }
    destruct (role_is "assistant" m) eqn:Hassistant;
      destruct (has_tool_calls m) eqn:Hcalls; simpl.
    + (* an assistant message that announces calls *)
      apply IH.
      * intros id a [[-> Hin]|Hold]%announce_all_lookup; [|by apply Hpending'].
        split; [apply elem_of_app; right; by left|done].
      * intros msg [Hmsg| ->%list_elem_of_singleton]%elem_of_app Htool;
          [by apply Hkept'|].
        apply role_tool_not_assistant in Htool. congruence.
    + destruct (role_is "tool" m) eqn:Htoolm.
      { apply role_tool_not_assistant in Htoolm. congruence. }
      destruct (_ && _).
      * apply IH; [by intros id a Hnone%lookup_empty_Some|].
        intros msg [Hmsg| ->%list_elem_of_singleton]%elem_of_app Htool;
          [|congruence].
        apply Hkept'; [|done].
        eapply elem_of_sublist_of; [apply remove_unresolved_sublist | done].
      * apply IH; [done|].
        intros msg [Hmsg| ->%list_elem_of_singleton]%elem_of_app Htool;
          [by apply Hkept' | congruence].
    + destruct (role_is "tool" m) eqn:Htoolm.
      { destruct (truthy (m_tool_call_id m)) eqn:Htruthy; simpl; [|by apply IH].
        case_bool_decide as Hsome; simpl; [|by apply IH].
        destruct (m_tool_call_id m) as [id|] eqn:Hid; [|done].
        simpl in *. destruct Hsome as [a Ha].
        apply IH.
        - intros id' a' [_ Hold]%lookup_delete_Some. by apply Hpending'.
        - intros msg [Hmsg| ->%list_elem_of_singleton]%elem_of_app Htool;
            [by apply Hkept'|].
          exists id, a. split; [done|]. by apply Hpending'. }
      destruct (_ && _).
      * apply IH; [by intros id a Hnone%lookup_empty_Some|].
        intros msg [Hmsg| ->%list_elem_of_singleton]%elem_of_app Htool;
          [|congruence].
        apply Hkept'; [|done].
        eapply elem_of_sublist_of; [apply remove_unresolved_sublist | done].
      * apply IH; [done|].
        intros msg [Hmsg| ->%list_elem_of_singleton]%elem_of_app Htool;
          [by apply Hkept' | congruence].
    + destruct (role_is "tool" m) eqn:Htoolm.
      { destruct (truthy (m_tool_call_id m)) eqn:Htruthy; simpl; [|by apply IH].
        case_bool_decide as Hsome; simpl; [|by apply IH].
        destruct (m_tool_call_id m) as [id|] eqn:Hid; [|done].
        simpl in *. destruct Hsome as [a Ha].
        apply IH.
        - intros id' a' [_ Hold]%lookup_delete_Some. by apply Hpending'.
        - intros msg [Hmsg| ->%list_elem_of_singleton]%elem_of_app Htool;
            [by apply Hkept'|].
          exists id, a. split; [done|]. by apply Hpending'. }
      destruct (_ && _).
      * apply IH; [by intros id a Hnone%lookup_empty_Some|].
        intros msg [Hmsg| ->%list_elem_of_singleton]%elem_of_app Htool;
          [|congruence].
        apply Hkept'; [|done].
        eapply elem_of_sublist_of; [apply remove_unresolved_sublist | done].
      * apply IH; [done|].
        intros msg [Hmsg| ->%list_elem_of_singleton]%elem_of_app Htool;
          [by apply Hkept' | congruence].
Qed.

(** X3.  Every tool result that the validation pass keeps carries a
    tool-call id that an assistant message of the input announces: a tool
    result whose id no assistant message announced is never returned. *)
Theorem validate_keeps_announced_results (messages : list Message)
    (msg : Message) :
  msg ∈ History._validate_and_repair_tool_calls messages →
  role_is "tool" msg = true →
  ∃ id a,
    m_tool_call_id msg = Some id ∧ a ∈ messages ∧ announces a id.
Proof.
  intros Hmsg Htool.
  unfold History._validate_and_repair_tool_calls in Hmsg.
  pose proof (validate_fold_announced messages [] ∅ []) as Hfold.
  destruct (foldl History.validate_step ([], ∅) messages) as [repaired pending].
  simpl in Hfold.
  apply Hfold; [by intros id a Hnone%lookup_empty_Some| |..|done].
  - intros m Hm. by apply not_elem_of_nil in Hm.
  - destruct (negb _); [|done].
    eapply elem_of_sublist_of; [apply remove_unresolved_sublist | done].
Qed.

Lemma validate_keeps_announced_results_witness :
  ∃ id a,
    m_tool_call_id (tool_msg "m3" "a" "3") = Some id
    ∧ a ∈ [user_msg "m1" "hi" "1"; assistant_calls "m2" "2" ["a"];
           tool_msg "m3" "a" "3"; assistant_msg "m4" "done" "4"]
    ∧ announces a id.
Proof.
  apply (validate_keeps_announced_results
           [user_msg "m1" "hi" "1"; assistant_calls "m2" "2" ["a"];
            tool_msg "m3" "a" "3"; assistant_msg "m4" "done" "4"]
           (tool_msg "m3" "a" "3")).
  - apply (bool_decide_unpack _). vm_compute. exact I.
  - reflexivity.
Defined.

(** ** Turn windowing, continued *)

Lemma followers_are_followers (l : list Message) :
  Forall follower (History.followers l).
Proof.
  induction l as [|msg l IH]; simpl; [constructor|].
  destruct (role_is "user" msg) eqn:Huser; [constructor|].
  destruct (role_is "assistant" msg || role_is "tool" msg) eqn:Hrole; [|done].
  constructor; [by split | done].
Qed.

Lemma turns_of_well_formed (l : list Message) :
  Forall well_formed_turn (History.turns_of l).
Proof.
  induction l as [|msg l IH]; simpl; [constructor|].
  destruct (role_is "user" msg) eqn:Huser; [|done].
  constructor; [|done].
  exists msg, (History.followers l). split; [done|]. split; [done|].
  apply followers_are_followers.
Qed.

Lemma followers_of_followers (rest l : list Message) :
  Forall follower rest →
  History.followers (rest ++ l) = rest ++ History.followers l.
Proof.
  induction 1 as [|msg rest [Huser Hrole] _ IH]; simpl; [done|].
  by rewrite Huser, Hrole, IH.
Qed.

Lemma turns_of_followers (rest l : list Message) :
  Forall follower rest →
  History.turns_of (rest ++ l) = History.turns_of l.
Proof.
  induction 1 as [|msg rest [Huser Hrole] _ IH]; simpl; [done|].
  by rewrite Huser.
Qed.

Lemma followers_of_turns (ts : list (list Message)) :
  Forall well_formed_turn ts → History.followers (concat ts) = [].
Proof.
  destruct 1 as [|t ts (u & rest & -> & Huser & _) _]; simpl; [done|].
  by rewrite Huser.
Qed.

(** Grouping the flattened turns gives the turns back. *)
Lemma turns_of_concat (ts : list (list Message)) :
  Forall well_formed_turn ts → History.turns_of (concat ts) = ts.
Proof.
  induction 1 as [|t ts (u & rest & -> & Huser & Hrest) Hts IH]; simpl; [done|].
  rewrite Huser.
  rewrite followers_of_followers, followers_of_turns, app_nil_r by done.
  by rewrite turns_of_followers, IH.
Qed.

(** The turns that the windowing selects. *)
Lemma selected_turns_well_formed (l : list Message) (k_turns : option Z) :
  Forall well_formed_turn
    (match k_turns with
     | Some k =>
       if 0 <? k then slice_from (History.turns_of l) (- k)
       else History.turns_of l
     | None => History.turns_of l
     end).
Proof.
  pose proof (turns_of_well_formed l) as Hwf.
  destruct k_turns as [k|]; [|done].
  destruct (0 <? k); [|done].
  unfold slice_from. destruct (- k <? 0); by apply Forall_drop.
Qed.

(** X4.  Whatever the window, the output of turn windowing holds only
    user, assistant and tool messages, and when it is not empty its first
    message is a user message. *)
Theorem windowing_starts_with_user (messages : list Message)
    (k_turns : option Z) :
  Forall
    (λ msg, (role_is "user" msg || role_is "assistant" msg
             || role_is "tool" msg) = true)
    (History._extract_turns_from_messages messages k_turns)
  ∧ ∀ msg,
      head (History._extract_turns_from_messages messages k_turns) = Some msg →
      role_is "user" msg = true.
Proof.
  rewrite extract_turns_all.
  pose proof (selected_turns_well_formed messages k_turns) as Hwf.
  revert Hwf. generalize (match k_turns with
     | Some k =>
       if 0 <? k then slice_from (History.turns_of messages) (- k)
       else History.turns_of messages
     | None => History.turns_of messages
     end). intros ts Hwf. split.
  - induction Hwf as [|t ts (u & rest & -> & Huser & Hrest) _ IH]; simpl;
      [constructor|].
    constructor; [by rewrite Huser|].
    apply Forall_app. split; [|done].
    eapply Forall_impl; [exact Hrest|].
    intros msg [_ Hrole]. rewrite <- orb_assoc, Hrole. apply orb_true_r.
  - destruct Hwf as [|t ts (u & rest & -> & Huser & _) _]; simpl; [done|].
    by intros msg [= <-].
Qed.

(** X5.  A window of zero or fewer turns, no window at all, and a window
    of at least as many turns as the history has all return every turn of
    the history. *)
Theorem windowing_returns_all_turns (messages : list Message)
    (k_turns : option Z) :
  (∀ k, k_turns = Some k →
        k ≤ 0 ∨ Z.of_nat (length (History.turns_of messages)) ≤ k) →
  History._extract_turns_from_messages messages k_turns
  = concat (History.turns_of messages).
Proof.
  intros Hk. rewrite extract_turns_all.
  destruct k_turns as [k|]; [|done].
  destruct (Z.ltb_spec 0 k) as [Hpos|]; [|done].
  destruct (Hk k eq_refl) as [?|Hall]; [lia|].
  unfold slice_from. destruct (Z.ltb_spec (- k) 0); [|lia].
  replace (Z.to_nat _) with 0%nat by lia. done.
Qed.

Lemma windowing_returns_all_turns_witness :
  History._extract_turns_from_messages five_turns (Some 0)
  = concat (History.turns_of five_turns).
Proof.
  apply (windowing_returns_all_turns five_turns (Some 0)).
  intros k [= <-]. left. lia.
Defined.

Lemma slice_from_again {A} (l : list A) (k : Z) :
  0 < k → slice_from (slice_from l (- k)) (- k) = slice_from l (- k).
Proof.
  intros Hk. unfold slice_from.
  destruct (Z.ltb_spec (- k) 0); [|lia].
  rewrite length_drop.
  replace (Z.to_nat (Z.max 0 (Z.of_nat
             (length l - Z.to_nat (Z.max 0 (Z.of_nat (length l) + - k))) + - k)))
    with 0%nat by lia.
  done.
Qed.

(** X6.  Turn windowing is idempotent: windowing its own output with the
    same window changes nothing. *)
Theorem windowing_idempotent (messages : list Message) (k_turns : option Z) :
  History._extract_turns_from_messages
    (History._extract_turns_from_messages messages k_turns) k_turns
  = History._extract_turns_from_messages messages k_turns.
Proof.
  rewrite (extract_turns_all messages).
  pose proof (selected_turns_well_formed messages k_turns) as Hwf.
  rewrite extract_turns_all, turns_of_concat by done.
  destruct k_turns as [k|]; [|done].
  destruct (Z.ltb_spec 0 k); [|done].
  by rewrite slice_from_again.
Qed.

(** ** The storage: logs and locks *)



Lemma reraise_as_not_blocked {A} (reason : string)
    (c : coroutine RedisStorage.redis A) (r r1 : RedisStorage.redis) :
  (∀ r', c r ≠ Blocked r') → reraise_as reason c r ≠ Blocked r1.
Proof.
  intros Hcalm. unfold reraise_as.
  destruct (c r) as [a r'|e r'|r'] eqn:Hrun; [done|done|].
  by destruct (Hcalm r').
Qed.



(** X8.  [add_chat_message] only appends, and only to the log of its
    chat: the log of the chat afterwards is the log before followed by at
    most one element, and the logs of the other chats, the tool-call logs
    and the state documents are untouched. *)
Theorem add_chat_message_appends (r : RedisStorage.redis)
    (chat_id : string) (message : Message) (utcnow : string) :
  (∃ appended,
     RedisStorage.history_of
       (store_after (RedisStorage.add_chat_message chat_id message utcnow r))
       chat_id
     = RedisStorage.history_of r chat_id ++ appended
     ∧ (length appended ≤ 1)%nat)
  ∧ (∀ other, other ≠ chat_id →
       RedisStorage.history_of
         (store_after (RedisStorage.add_chat_message chat_id message utcnow r))
         other
       = RedisStorage.history_of r other)
  ∧ RedisStorage.tool_history
      (store_after (RedisStorage.add_chat_message chat_id message utcnow r))
    = RedisStorage.tool_history r
  ∧ RedisStorage.state
      (store_after (RedisStorage.add_chat_message chat_id message utcnow r))
    = RedisStorage.state r.
Proof.
  assert (∀ l : list (stored Message),
            ∃ appended, l = l ++ appended ∧ (length appended ≤ 1)%nat)
    as Hnone.
  { intros l. exists []. rewrite app_nil_r. split; [done | simpl; lia]. }
  unfold RedisStorage.add_chat_message, RedisStorage._get_distributed_lock.
  case_bool_decide as Hheld; [by split|].
  unfold reraise_as.
  destruct (m_message_id message); destruct (m_timestamp message); simpl;
    (match goal with
     | |- context [RedisStorage.scan_messages ?l ?i] =>
       destruct (RedisStorage.scan_messages l i)
     end); simpl;
    unfold RedisStorage.history_of; simpl;
    (split; [|split; [|done]]);
    try apply Hnone;
    try (eexists [_]; rewrite lookup_insert_eq; simpl; split; [done|lia]);
    try done;
    intros other Hother; by rewrite lookup_insert_ne.
Qed.

(** ** The storage: state document, trimming, batches *)

(** X9.  What [set_chat_state] writes, [get_chat_state] and
    [get_chat_metadata] read back: the document with its version set to
    the next version and its [last_updated] set to the time of the write,
    every other key as it was given. *)
Theorem set_then_get_chat_state (r : RedisStorage.redis) (chat_id : string)
    (st : gmap string json) (utcnow : string) (version : json) :
  RedisStorage.next_version st = Some version →
  ∃ r' stored_doc,
    RedisStorage.set_chat_state chat_id st utcnow r = Returned () r'
    ∧ RedisStorage.get_chat_state chat_id r' = Returned (Some stored_doc) r'
    ∧ stored_doc !! "version" = Some version
    ∧ stored_doc !! "last_updated" = Some (JStr utcnow)
    ∧ (∀ key, key ≠ "version" → key ≠ "last_updated" →
         stored_doc !! key = st !! key)
    ∧ ∃ metadata,
        RedisStorage.get_chat_metadata chat_id r' = Returned metadata r'
        ∧ RedisStorage.has_state metadata = true
        ∧ RedisStorage.last_activity metadata = Some (JStr utcnow).
Proof.
  intros Hversion.
  unfold RedisStorage.set_chat_state, reraise_as. rewrite Hversion.
  eexists _, _. split; [reflexivity|].
  unfold RedisStorage.get_chat_state, RedisStorage.get_chat_metadata. simpl.
  rewrite lookup_insert_eq. simpl.
  split; [reflexivity|].
  split; [by rewrite lookup_insert_eq|].
  split; [by rewrite lookup_insert_ne, lookup_insert_eq|].
  split; [intros key Hv Hl; by rewrite !lookup_insert_ne|].
  eexists. split; [reflexivity|]. simpl.
  split; [done|].
  by rewrite lookup_insert_ne, lookup_insert_eq.
Qed.

Lemma set_then_get_chat_state_witness :
  ∃ r' stored_doc,
    RedisStorage.set_chat_state "chat1" {[ "mood" := JStr "calm" ]} "01"
      empty_redis = Returned () r'
    ∧ RedisStorage.get_chat_state "chat1" r' = Returned (Some stored_doc) r'
    ∧ stored_doc !! "version" = Some (JInt 1)
    ∧ stored_doc !! "last_updated" = Some (JStr "01")
    ∧ (∀ key, key ≠ "version" → key ≠ "last_updated" →
         stored_doc !! key = ({[ "mood" := JStr "calm" ]} : gmap string json) !! key)
    ∧ ∃ metadata,
        RedisStorage.get_chat_metadata "chat1" r' = Returned metadata r'
        ∧ RedisStorage.has_state metadata = true
        ∧ RedisStorage.last_activity metadata = Some (JStr "01").
Proof.
  apply (set_then_get_chat_state empty_redis "chat1"
           {[ "mood" := JStr "calm" ]} "01" (JInt 1)).
  reflexivity.
Defined.

Lemma lrange_last {A} (l : list A) (n : Z) :
  0 < n →
  RedisStorage.lrange l (- n) (-1) = History.last_k (Z.to_nat n) l.
Proof.
  intros Hn. unfold RedisStorage.lrange, History.last_k.
  destruct (Z.ltb_spec (- n) 0); [|lia].
  destruct (Z.ltb_spec (-1) 0); [|lia].
  destruct (Z.ltb_spec (Z.of_nat (length l) + -1)
              (Z.max 0 (Z.of_nat (length l) + - n))) as [Hempty|Hsome].
  - assert (length l = 0%nat) as Hlen by lia.
    destruct l; [|done]. by rewrite drop_nil.
  - replace (Z.to_nat (Z.max 0 (Z.of_nat (length l) + - n)))
      with (length l - Z.to_nat n)%nat by lia.
    apply take_ge. rewrite length_drop. lia.
Qed.

Lemma last_k_length {A} (l : list A) (k : nat) :
  (length (History.last_k k l) ≤ k)%nat.
Proof. unfold History.last_k. rewrite length_drop. lia. Qed.

Lemma history_of_put_list (r : RedisStorage.redis) (chat_id other : string)
    (l : list (stored Message)) :
  RedisStorage.history_of
    (RedisStorage.set_history (RedisStorage.put_list chat_id l) r) other
  = if decide (chat_id = other) then l else RedisStorage.history_of r other.
Proof.
  unfold RedisStorage.history_of, RedisStorage.put_list; simpl.
  destruct l as [|x l]; case_decide as Hchat; subst.
  - by rewrite lookup_delete_eq.
  - by rewrite lookup_delete_ne.
  - by rewrite lookup_insert_eq.
  - by rewrite lookup_insert_ne.
Qed.

Lemma tool_history_of_put_list (r : RedisStorage.redis)
    (chat_id other : string) (l : list (stored ToolCallEntry)) :
  RedisStorage.tool_history_of
    (RedisStorage.set_tool_history (RedisStorage.put_list chat_id l) r) other
  = if decide (chat_id = other) then l else RedisStorage.tool_history_of r other.
Proof.
  unfold RedisStorage.tool_history_of, RedisStorage.put_list; simpl.
  destruct l as [|x l]; case_decide as Hchat; subst.
  - by rewrite lookup_delete_eq.
  - by rewrite lookup_delete_ne.
  - by rewrite lookup_insert_eq.
  - by rewrite lookup_insert_ne.
Qed.

(** What [trim_history] leaves of the two logs of every chat. *)
Lemma trim_history_logs (r : RedisStorage.redis) (chat_id : string)
    (limit : Z) :
  ("trim:" +:+ chat_id) ∉ RedisStorage.lock_keys r →
  0 ≤ limit →
  ∃ r',
    RedisStorage.trim_history chat_id limit r = Returned () r'
    ∧ RedisStorage.lock_keys r' = RedisStorage.lock_keys r
    ∧ RedisStorage.state r' = RedisStorage.state r
    ∧ (∀ other,
         RedisStorage.history_of r' other
         = if decide (chat_id = other)
           then History.last_k (Z.to_nat limit)
                  (RedisStorage.history_of r chat_id)
           else RedisStorage.history_of r other)
    ∧ (∀ other,
         RedisStorage.tool_history_of r' other
         = if decide (chat_id = other)
           then History.last_k (Z.to_nat limit)
                  (RedisStorage.tool_history_of r chat_id)
           else RedisStorage.tool_history_of r other).
Proof.
  intros Hfree Hlimit.
  unfold RedisStorage.trim_history, RedisStorage._get_distributed_lock.
  rewrite bool_decide_eq_false_2 by done. unfold reraise_as.
  destruct (Z.eqb_spec limit 0) as [->|Hne].
  - eexists. split; [reflexivity|].
    split; [destruct r; simpl in *; set_solver|]. split; [done|].
    split; intros other; unfold RedisStorage.history_of,
      RedisStorage.tool_history_of, History.last_k; simpl;
      case_decide as Hchat; subst;
      rewrite ?lookup_delete_eq, ?lookup_delete_ne by done; simpl;
      rewrite ?Nat.sub_0_r, ?drop_all; done.
  - eexists. split; [reflexivity|].
    split; [destruct r; simpl in *; set_solver|]. split; [done|].
    rewrite !lrange_last by lia.
    split; intros other.
    + change (RedisStorage.history_of (RedisStorage.set_lock_keys ?f ?x))
        with (RedisStorage.history_of x).
      change (RedisStorage.history_of (RedisStorage.set_tool_history ?f ?x))
        with (RedisStorage.history_of x).
      by rewrite history_of_put_list.
    + change (RedisStorage.tool_history_of (RedisStorage.set_lock_keys ?f ?x))
        with (RedisStorage.tool_history_of x).
      rewrite tool_history_of_put_list.
      by case_decide.
Qed.

(** X10.  With a limit that is not negative, [trim_history] keeps of both
    logs of its chat exactly their last [limit] elements (none for
    [limit = 0]) and leaves the logs of every other chat as they are. *)
Theorem trim_history_keeps_the_tail (r : RedisStorage.redis)
    (chat_id : string) (limit : Z) :
  ("trim:" +:+ chat_id) ∉ RedisStorage.lock_keys r →
  0 ≤ limit →
  ∃ r',
    RedisStorage.trim_history chat_id limit r = Returned () r'
    ∧ RedisStorage.history_of r' chat_id
      = History.last_k (Z.to_nat limit) (RedisStorage.history_of r chat_id)
    ∧ RedisStorage.tool_history_of r' chat_id
      = History.last_k (Z.to_nat limit)
          (RedisStorage.tool_history_of r chat_id)
    ∧ (Z.of_nat (length (RedisStorage.history_of r' chat_id)) ≤ limit)
    ∧ (Z.of_nat (length (RedisStorage.tool_history_of r' chat_id)) ≤ limit)
    ∧ ∀ other, other ≠ chat_id →
        RedisStorage.history_of r' other = RedisStorage.history_of r other
        ∧ RedisStorage.tool_history_of r' other
          = RedisStorage.tool_history_of r other.
Proof.
  intros Hfree Hlimit.
  destruct (trim_history_logs r chat_id limit Hfree Hlimit)
    as (r' & Hrun & _ & _ & Hlog & Htools).
  exists r'. split; [done|].
  pose proof (Hlog chat_id) as Hl. pose proof (Htools chat_id) as Ht.
  rewrite decide_True in Hl by done. rewrite decide_True in Ht by done.
  split; [done|]. split; [done|].
  split; [rewrite Hl; pose proof (last_k_length
            (RedisStorage.history_of r chat_id) (Z.to_nat limit)); lia|].
  split; [rewrite Ht; pose proof (last_k_length
            (RedisStorage.tool_history_of r chat_id) (Z.to_nat limit)); lia|].
  intros other Hother.
  by rewrite Hlog, Htools, !decide_False.
Qed.

Lemma trim_history_keeps_the_tail_witness :
  ∃ r',
    RedisStorage.trim_history "chat1" 2 five_stored = Returned () r'
    ∧ RedisStorage.history_of r' "chat1"
      = History.last_k (Z.to_nat 2) (RedisStorage.history_of five_stored "chat1")
    ∧ RedisStorage.tool_history_of r' "chat1"
      = History.last_k (Z.to_nat 2)
          (RedisStorage.tool_history_of five_stored "chat1")
    ∧ (Z.of_nat (length (RedisStorage.history_of r' "chat1")) ≤ 2)
    ∧ (Z.of_nat (length (RedisStorage.tool_history_of r' "chat1")) ≤ 2)
    ∧ ∀ other, other ≠ "chat1" →
        RedisStorage.history_of r' other
        = RedisStorage.history_of five_stored other
        ∧ RedisStorage.tool_history_of r' other
          = RedisStorage.tool_history_of five_stored other.
Proof.
  apply (trim_history_keeps_the_tail five_stored "chat1" 2).
  - apply (bool_decide_unpack _). vm_compute. exact I.
  - lia.
Defined.

Lemma execute_app (chat_id : string) (p1 p2 : list RedisStorage.command) :
  ∀ r,
    RedisStorage.execute chat_id (p1 ++ p2) r
    = ((RedisStorage.execute chat_id p1 r).1
       ++ (RedisStorage.execute chat_id p2
             (RedisStorage.execute chat_id p1 r).2).1,
       (RedisStorage.execute chat_id p2
          (RedisStorage.execute chat_id p1 r).2).2).
Proof.
  induction p1 as [|c p1 IH]; intros r; simpl.
  - by destruct (RedisStorage.execute chat_id p2 r).
  - destruct (RedisStorage.run_command chat_id c r) as [reply r1].
    rewrite IH.
    destruct (RedisStorage.execute chat_id p1 r1) as [replies r2]. simpl.
    by destruct (RedisStorage.execute chat_id p2 r2).
Qed.

(** The queued operations all reply something truthy, and they push their
    messages and tool calls on the logs of the chat in the order of the
    batch. *)
Lemma execute_operations (chat_id utcnow : string)
    (operations : list RedisStorage.operation) :
  ∀ r,
    forallb id
      (RedisStorage.execute chat_id
         (concat (RedisStorage.queue_operation utcnow <$> operations)) r).1
    = true
    ∧ RedisStorage.history_of
        (RedisStorage.execute chat_id
           (concat (RedisStorage.queue_operation utcnow <$> operations)) r).2
        chat_id
      = RedisStorage.history_of r chat_id ++ pushed_messages utcnow operations
    ∧ RedisStorage.tool_history_of
        (RedisStorage.execute chat_id
           (concat (RedisStorage.queue_operation utcnow <$> operations)) r).2
        chat_id
      = RedisStorage.tool_history_of r chat_id
        ++ pushed_tool_calls utcnow operations.
Proof.
  induction operations as [|op operations IH]; intros r.
  - simpl. unfold pushed_messages, pushed_tool_calls. simpl.
    by rewrite !app_nil_r.
  - rewrite fmap_cons. simpl concat. rewrite execute_app.
    unfold pushed_messages, pushed_tool_calls. rewrite !fmap_cons. simpl concat.
    fold (pushed_messages utcnow operations).
    fold (pushed_tool_calls utcnow operations).
    cbn [fst snd].
    destruct (IH (RedisStorage.execute chat_id
                    (RedisStorage.queue_operation utcnow op) r).2)
      as (Hreplies & Hlog & Htools).
    rewrite forallb_app, Hreplies, Hlog, Htools.
    destruct op as [message|tool_call|st|type]; simpl;
      unfold RedisStorage.history_of, RedisStorage.tool_history_of; simpl;
      rewrite ?lookup_insert_eq; simpl;
      rewrite <- ?app_assoc; done.
Qed.

(** X11.  [atomic_turn_operation] pushes every message and every tool
    call of its batch, in the order of the batch and without looking for
    duplicates, and returns whether both logs of the chat are non-empty
    afterwards: on a chat whose tool-call log stays empty it returns
    [False] although every operation was carried out. *)
Theorem atomic_turn_operation_pushes_all (r : RedisStorage.redis)
    (chat_id : string) (operations : list RedisStorage.operation)
    (utcnow : string) :
  ("turn:" +:+ chat_id) ∉ RedisStorage.lock_keys r →
  ∃ r',
    RedisStorage.atomic_turn_operation chat_id operations utcnow r
    = Returned
        (bool_decide (RedisStorage.history_of r' chat_id ≠ [])
         && bool_decide (RedisStorage.tool_history_of r' chat_id ≠ []))
        r'
    ∧ RedisStorage.history_of r' chat_id
      = RedisStorage.history_of r chat_id ++ pushed_messages utcnow operations
    ∧ RedisStorage.tool_history_of r' chat_id
      = RedisStorage.tool_history_of r chat_id
        ++ pushed_tool_calls utcnow operations.
Proof.
  intros Hfree.
  unfold RedisStorage.atomic_turn_operation,
    RedisStorage._get_distributed_lock.
  rewrite bool_decide_eq_false_2 by done.
  unfold reraise_as. cbv zeta. rewrite execute_app.
  destruct (execute_operations chat_id utcnow operations
              (RedisStorage.set_lock_keys
                 (λ ks, {[ "turn:" +:+ chat_id ]} ∪ ks) r))
    as (Hreplies & Hlog & Htools).
  destruct (RedisStorage.execute chat_id
              (concat (RedisStorage.queue_operation utcnow <$> operations)) _)
    as [replies r1]. simpl in *.
  exists (RedisStorage.set_lock_keys (λ ks, ks ∖ {[ "turn:" +:+ chat_id ]}) r1).
  split; [|split; [exact Hlog | exact Htools]].
  rewrite forallb_app, Hreplies. simpl. rewrite andb_true_r.
  reflexivity.
Qed.

Lemma atomic_turn_operation_pushes_all_witness :
  ∃ r',
    RedisStorage.atomic_turn_operation "chat1"
      [RedisStorage.AddMessage (user_msg "m1" "hi" "01");
       RedisStorage.AddMessage (user_msg "m1" "hi" "01")] "02" empty_redis
    = Returned
        (bool_decide (RedisStorage.history_of r' "chat1" ≠ [])
         && bool_decide (RedisStorage.tool_history_of r' "chat1" ≠ []))
        r'
    ∧ RedisStorage.history_of r' "chat1"
      = RedisStorage.history_of empty_redis "chat1"
        ++ pushed_messages "02"
             [RedisStorage.AddMessage (user_msg "m1" "hi" "01");
              RedisStorage.AddMessage (user_msg "m1" "hi" "01")]
    ∧ RedisStorage.tool_history_of r' "chat1"
      = RedisStorage.tool_history_of empty_redis "chat1"
        ++ pushed_tool_calls "02"
             [RedisStorage.AddMessage (user_msg "m1" "hi" "01");
              RedisStorage.AddMessage (user_msg "m1" "hi" "01")].
Proof.
  apply (atomic_turn_operation_pushes_all empty_redis "chat1"
           [RedisStorage.AddMessage (user_msg "m1" "hi" "01");
            RedisStorage.AddMessage (user_msg "m1" "hi" "01")] "02").
  apply (bool_decide_unpack _). vm_compute. exact I.
Defined.

Example atomic_batch_of_messages_returns_false :
  match RedisStorage.atomic_turn_operation "chat1"
          [RedisStorage.AddMessage (user_msg "m1" "hi" "01");
           RedisStorage.AddMessage (user_msg "m1" "hi" "01")] "02" empty_redis
  with
  | Returned b r' => Some (b, length (RedisStorage.history_of r' "chat1"))
  | _ => None
  end = Some (false, 2%nat).
Proof. vm_compute. reflexivity. Qed.

(** ** The storage: reading the log *)

Lemma insert_by_timestamp_length (msg : Message) (sorted : list Message) :
  length (RedisStorage.insert_by_timestamp msg sorted) = S (length sorted).
Proof.
  induction sorted as [|msg' rest IH]; simpl; [done|].
  destruct (String.ltb _ _); simpl; [done | by rewrite IH].
Qed.

Lemma sort_by_timestamp_length (l : list Message) :
  length (RedisStorage.sort_by_timestamp l) = length l.
Proof.
  unfold RedisStorage.sort_by_timestamp.
  assert (∀ acc,
            length (foldl (λ sorted msg,
                             RedisStorage.insert_by_timestamp msg sorted) acc l)
            = (length acc + length l)%nat) as Hgen.
  { induction l as [|msg l IH]; intros acc; simpl; [lia|].
    rewrite IH, insert_by_timestamp_length. lia. }
  by rewrite Hgen.
Qed.

Lemma parse_messages_length (l : list (stored Message)) :
  ∀ parsed,
    RedisStorage.parse_messages l = Some parsed →
    (length parsed ≤ length l)%nat.
Proof.
  induction l as [|e l IH]; intros parsed Hparse; simpl in *.
  - injection Hparse as <-. done.
  - destruct e as [| | |msg]; [|done|done|].
    + specialize (IH _ Hparse). lia.
    + destruct (RedisStorage.parse_messages l) as [rest|]; [|done].
      injection Hparse as <-. specialize (IH _ eq_refl). simpl. lia.
Qed.

Lemma parse_messages_objects (l : list (stored Message)) :
  Forall readable l → is_Some (RedisStorage.parse_messages l).
Proof.
  induction 1 as [|e l [He1 He2] _ IH]; simpl; [by eexists|].
  destruct e as [| | |msg]; [done|done|done|].
  destruct IH as [rest ->]. by eexists.
Qed.

Lemma parse_messages_unreadable (l : list (stored Message)) :
  ¬ Forall readable l → RedisStorage.parse_messages l = None.
Proof.
  induction l as [|e l IH]; intros Hbad; [by destruct Hbad|].
  destruct e as [| | |msg]; simpl; [|done|done|].
  - apply IH. intros Hl. apply Hbad. by constructor.
  - rewrite IH; [done|]. intros Hl. apply Hbad. by constructor.
Qed.

(** X12.  [RedisStorage.get_chat_history] changes nothing in the store,
    however it ends.  Of the elements that [LRANGE] hands it, text that is
    not JSON is skipped: the call returns when every element is such text
    or a dictionary whose time stamp is a string or absent.  Bytes that
    are not UTF-8 and a JSON value that is not an object are not skipped:
    with one of them among the elements the call raises
    [StateServiceException].  What it returns are stored messages, and at
    most [limit] of them when the limit is positive. *)
Theorem storage_get_chat_history_reads (r : RedisStorage.redis)
    (chat_history_limit : Z) (chat_id : string) (limit : option Z) :
  let messages :=
    RedisStorage.lrange (RedisStorage.history_of r chat_id)
      (- RedisStorage.limit_or limit chat_history_limit) (-1) in
  store_after (RedisStorage.get_chat_history chat_history_limit chat_id limit r)
  = r
  ∧ (Forall readable messages →
     ∃ l,
       RedisStorage.get_chat_history chat_history_limit chat_id limit r
       = Returned l r)
  ∧ (¬ Forall readable messages →
     RedisStorage.get_chat_history chat_history_limit chat_id limit r
     = Raised (StateServiceException "Failed to get chat history") r)
  ∧ ∀ l r',
      RedisStorage.get_chat_history chat_history_limit chat_id limit r
      = Returned l r' →
      (0 < RedisStorage.limit_or limit chat_history_limit →
       Z.of_nat (length l) ≤ RedisStorage.limit_or limit chat_history_limit)
      ∧ ∀ msg, msg ∈ l → Object msg ∈ RedisStorage.history_of r chat_id.
Proof.
  cbv zeta. unfold RedisStorage.get_chat_history, reraise_as.
  split; [by destruct (RedisStorage.parse_messages _)|].
  split.
  { intros Hreadable.
    destruct (parse_messages_objects _ Hreadable) as [parsed ->].
    by eexists. }
  split.
  { intros Hbad. by rewrite (parse_messages_unreadable _ Hbad). }
  intros l r'.
  destruct (RedisStorage.parse_messages _) as [parsed|] eqn:Hparse; [|done].
  intros [= <- <-]. split.
  - intros Hpos. rewrite sort_by_timestamp_length.
    pose proof (parse_messages_length _ _ Hparse) as Hlen.
    rewrite lrange_last in Hlen by done.
    pose proof (last_k_length (RedisStorage.history_of r chat_id)
      (Z.to_nat (RedisStorage.limit_or limit chat_history_limit))).
    lia.
  - intros msg Hmsg. rewrite sort_by_timestamp_elem in Hmsg.
    eapply elem_of_sublist_of; [apply lrange_sublist|].
    by eapply parse_messages_elem.
Qed.

Example storage_read_skips_garbled :
  RedisStorage.get_chat_history 5 "chat1" (Some 3) five_stored
  = Returned
      [ assistant_msg "a1" "1" "02"; user_msg "u2" "two" "03";
        assistant_msg "a2" "2" "04" ] five_stored.
Proof. vm_compute. reflexivity. Qed.

Example storage_read_fails_on_bytes :
  let r :=
    RedisStorage.set_history
      <["chat1" := [ Object (user_msg "u1" "one" "01"); NotUnicode ]]>
      empty_redis in
  RedisStorage.get_chat_history 5 "chat1" None r
  = Raised (StateServiceException "Failed to get chat history") r.
Proof. vm_compute. reflexivity. Qed.

(** ** The storage: retries *)

(** The loop from attempt [k] on, when the attempts before [j] fail on the
    connection. *)
Lemma retry_from_settles {A} (max_retries : nat)
    (operation : nat → RedisStorage.redis_attempt A) (j : nat) :
  (j < max_retries)%nat →
  (∀ e, operation j ≠ RedisStorage.ConnectionError e) →
  ∀ m k last,
    (k + m = max_retries)%nat → (k ≤ j)%nat →
    (∀ i, (k ≤ i < j)%nat → ∃ e, operation i = RedisStorage.ConnectionError e) →
    RedisStorage.retry_from max_retries operation (seq k m) last
    = (match operation j with
       | RedisStorage.Replies a => RedisStorage.Reply a
       | RedisStorage.OtherError e => RedisStorage.Propagated e
       | RedisStorage.ConnectionError _ => RedisStorage.Exhausted None
       end,
       (λ i, 2 ^ Z.of_nat i) <$> seq k (j - k)).
Proof.
  intros Hj Hsettled m.
  induction m as [|m IH]; intros k last Hkm Hkj Hfail; [lia|].
  destruct (decide (k = j)) as [->|Hne].
  - simpl. rewrite Nat.sub_diag.
    destruct (operation j) as [a|e|e] eqn:Hop; [done| |done].
    by destruct (Hsettled e).
  - destruct (Hfail k ltac:(lia)) as [e He].
    simpl. rewrite He.
    assert ((k <? max_retries - 1)%nat = true) as ->
      by (apply Nat.ltb_lt; lia).
    rewrite (IH (S k) (Some e)); [|lia|lia|intros i Hi; apply Hfail; lia].
    replace (j - k)%nat with (S (j - S k)) by lia. done.
Qed.

(** X13.  [_execute_with_retry] ends at the first attempt that does not
    fail on the connection, provided it is among the first [max_retries]:
    with the reply of that attempt, or with its exception when that is not
    a connection error.  Before the attempt [j] it has slept
    [2^0, ..., 2^(j-1)] times [retry_delay]. *)
Theorem retry_ends_at_first_answer {A} (max_retries : nat)
    (operation : nat → RedisStorage.redis_attempt A) (j : nat) :
  (j < max_retries)%nat →
  (∀ i, (i < j)%nat → ∃ e, operation i = RedisStorage.ConnectionError e) →
  (∀ a, operation j = RedisStorage.Replies a →
        RedisStorage._execute_with_retry max_retries operation
        = (RedisStorage.Reply a, (λ i, 2 ^ Z.of_nat i) <$> seq 0 j))
  ∧ (∀ e, operation j = RedisStorage.OtherError e →
          RedisStorage._execute_with_retry max_retries operation
          = (RedisStorage.Propagated e, (λ i, 2 ^ Z.of_nat i) <$> seq 0 j)).
Proof.
  intros Hj Hfail.
  unfold RedisStorage._execute_with_retry.
  split; intros x Hx;
    (rewrite (retry_from_settles max_retries operation j Hj);
     [by rewrite Hx, Nat.sub_0_r
     |intros e' He'; congruence | lia | lia
     |intros i Hi; apply Hfail; lia]).
Qed.

Lemma retry_ends_at_first_answer_witness :
  (∀ a, third_time_lucky 2%nat = RedisStorage.Replies a →
        RedisStorage._execute_with_retry 3 third_time_lucky
        = (RedisStorage.Reply a, (λ i, 2 ^ Z.of_nat i) <$> seq 0 2))
  ∧ (∀ e, third_time_lucky 2%nat = RedisStorage.OtherError e →
          RedisStorage._execute_with_retry 3 third_time_lucky
          = (RedisStorage.Propagated e, (λ i, 2 ^ Z.of_nat i) <$> seq 0 2)).
Proof.
  apply (retry_ends_at_first_answer 3 third_time_lucky 2).
  - lia.
  - intros [|[|i]] Hi; [by eexists | by eexists | lia].
Defined.

Example third_time_lucky_run :
  RedisStorage._execute_with_retry 3 third_time_lucky
  = (RedisStorage.Reply "PONG", [1; 2]).
Proof. reflexivity. Qed.

Lemma total_powers (n : nat) :
  total ((λ i, 2 ^ Z.of_nat i) <$> seq 0 n) = 2 ^ Z.of_nat n - 1.
Proof.
  induction n as [|n IH]; [done|].
  rewrite seq_S, fmap_app. unfold total in *.
  rewrite foldr_app. simpl.
  assert (∀ (l : list Z) z, foldr Z.add z l = foldr Z.add 0 l + z) as Hshift.
  { induction l as [|x l IHl]; intros z; simpl; [lia|]. rewrite IHl. lia. }
  rewrite Hshift, IH.
  rewrite Nat2Z.inj_succ, Z.pow_succ_r by lia. lia.
Qed.

Lemma retry_from_exhausted {A} (max_retries : nat)
    (operation : nat → RedisStorage.redis_attempt A) :
  (∀ i, (i < max_retries)%nat →
        ∃ e, operation i = RedisStorage.ConnectionError e) →
  ∀ m k last,
    (k + m = max_retries)%nat →
    RedisStorage.retry_from max_retries operation (seq k m) last
    = (RedisStorage.Exhausted
         (match m with
          | O => last
          | S _ =>
            match operation (max_retries - 1)%nat with
            | RedisStorage.ConnectionError e => Some e
            | _ => None
            end
          end),
       (λ i, 2 ^ Z.of_nat i) <$> seq k (m - 1)).
Proof.
  intros Hfail m. induction m as [|m IH]; intros k last Hkm; [done|].
  destruct (Hfail k ltac:(lia)) as [e He].
  simpl. rewrite He.
  destruct m as [|m].
  - assert ((k <? max_retries - 1)%nat = false) as ->
      by (apply Nat.ltb_ge; lia).
    simpl. replace (max_retries - 1)%nat with k by lia. by rewrite He.
  - assert ((k <? max_retries - 1)%nat = true) as ->
      by (apply Nat.ltb_lt; lia).
    rewrite (IH (S k) (Some e)) by lia.
    replace (S m - 1)%nat with m by lia.
    replace (S (S m) - 1)%nat with (S m) by lia. done.
Qed.

(** X14.  When every one of the [max_retries] attempts fails on the
    connection, [_execute_with_retry] gives up with the error of the last
    attempt, after sleeping [2^0, ..., 2^(max_retries - 2)] times
    [retry_delay], that is [2^(max_retries - 1) - 1] times [retry_delay]
    in all; there is no sleep after the last attempt. *)
Theorem retry_gives_up (max_retries : nat)
    (operation : nat → RedisStorage.redis_attempt string) (e : string) :
  max_retries ≠ 0%nat →
  (∀ i, (i < max_retries)%nat →
        ∃ e', operation i = RedisStorage.ConnectionError e') →
  operation (max_retries - 1)%nat = RedisStorage.ConnectionError e →
  (RedisStorage._execute_with_retry max_retries operation).1
  = RedisStorage.Exhausted (Some e)
  ∧ (RedisStorage._execute_with_retry max_retries operation).2
    = (λ i, 2 ^ Z.of_nat i) <$> seq 0 (max_retries - 1)
  ∧ total (RedisStorage._execute_with_retry max_retries operation).2
    = 2 ^ Z.of_nat (max_retries - 1) - 1.
Proof.
  intros Hn Hfail Hlast.
  unfold RedisStorage._execute_with_retry.
  rewrite (retry_from_exhausted max_retries operation Hfail max_retries 0 None)
    by lia.
  simpl. rewrite Hlast.
  destruct max_retries as [|n]; [done|].
  split; [done|]. split; [done|]. apply total_powers.
Qed.

Lemma retry_gives_up_witness :
  (RedisStorage._execute_with_retry 3
     (λ _ : nat, @RedisStorage.ConnectionError string "refused")).1
  = RedisStorage.Exhausted (Some "refused")
  ∧ (RedisStorage._execute_with_retry 3
       (λ _ : nat, @RedisStorage.ConnectionError string "refused")).2
    = (λ i, 2 ^ Z.of_nat i) <$> seq 0 (3 - 1)
  ∧ total (RedisStorage._execute_with_retry 3
             (λ _ : nat, @RedisStorage.ConnectionError string "refused")).2
    = 2 ^ Z.of_nat (3 - 1) - 1.
Proof.
  apply (retry_gives_up 3
           (λ _ : nat, @RedisStorage.ConnectionError string "refused")
           "refused").
  - lia.
  - intros i _. by eexists.
  - reflexivity.
Defined.

(** ** The turn index: rejected calls *)

(** X15.  [add_tool_result] for a turn that is not in the index, or with
    a tool-call id that the turn does not expect, returns [False] and
    changes nothing: neither the index nor the log. *)
Theorem add_tool_result_rejects (s : ChatStateManagerService.service)
    (chat_id turn tool_call_id tool_name content : string)
    (error : option string) (new_message_id : string) (now : datetime) :
  chat_id ∉ ChatStateManagerService._turn_locks s →
  (∀ md, ChatStateManagerService.active_turns s chat_id !! turn = Some md →
         tool_call_id ∉ tool_call_ids md) →
  ChatStateManagerService.add_tool_result chat_id turn tool_call_id tool_name
    content error new_message_id now s
  = Returned false s.
Proof.
  intros Hfree Hunexpected.
  unfold ChatStateManagerService.add_tool_result,
    ChatStateManagerService.with_turn_lock.
  rewrite bool_decide_eq_false_2 by done.
  unfold mbind at 1, coroutine_bind at 1, ChatStateManagerService.get.
  change (ChatStateManagerService.active_turns
            (ChatStateManagerService.set_turn_locks _ s) chat_id)
    with (ChatStateManagerService.active_turns s chat_id).
  destruct (ChatStateManagerService.active_turns s chat_id !! turn)
    as [md|] eqn:Hturn.
  - rewrite bool_decide_eq_false_2 by (by apply Hunexpected).
    unfold mret, coroutine_ret. by rewrite release_acquire_turn_lock.
  - unfold mret, coroutine_ret. by rewrite release_acquire_turn_lock.
Qed.

Lemma add_tool_result_rejects_witness :
  ChatStateManagerService.add_tool_result "chat1" "turn_1" "call_9"
    "faq_search" "{}" None "msg_3" (at_minute 1) awaiting_one_call
  = Returned false awaiting_one_call.
Proof.
  apply (add_tool_result_rejects awaiting_one_call "chat1" "turn_1" "call_9"
           "faq_search" "{}" None "msg_3" (at_minute 1)).
  - apply (bool_decide_unpack _). vm_compute. exact I.
  - intros md Hmd. vm_compute in Hmd. injection Hmd as <-.
    apply (bool_decide_unpack _). vm_compute. exact I.
Defined.

(** X16.  [add_assistant_message] for a turn that is not in the index
    raises [StateServiceException] and changes nothing: no message is
    written. *)
Theorem add_assistant_message_unknown_turn
    (s : ChatStateManagerService.service) (chat_id turn content : string)
    (tool_calls : option (list ToolCall)) (new_message_id : string)
    (now : datetime) :
  chat_id ∉ ChatStateManagerService._turn_locks s →
  ChatStateManagerService.active_turns s chat_id !! turn = None →
  ChatStateManagerService.add_assistant_message chat_id turn content
    tool_calls new_message_id now s
  = Raised (StateServiceException "Turn not found or already completed") s.
Proof.
  intros Hfree Hturn.
  unfold ChatStateManagerService.add_assistant_message,
    ChatStateManagerService.with_turn_lock.
  rewrite bool_decide_eq_false_2 by done.
  unfold mbind at 1, coroutine_bind at 1, ChatStateManagerService.get.
  change (ChatStateManagerService.active_turns
            (ChatStateManagerService.set_turn_locks _ s) chat_id)
    with (ChatStateManagerService.active_turns s chat_id).
  rewrite Hturn. unfold raise. by rewrite release_acquire_turn_lock.
Qed.

Lemma add_assistant_message_unknown_turn_witness :
  ChatStateManagerService.add_assistant_message "chat1" "turn_7" "Hello" None
    "msg_2" (at_minute 1) one_open_turn
  = Raised (StateServiceException "Turn not found or already completed")
      one_open_turn.
Proof.
  apply (add_assistant_message_unknown_turn one_open_turn "chat1" "turn_7"
           "Hello" None "msg_2" (at_minute 1)).
  - apply (bool_decide_unpack _). vm_compute. exact I.
  - vm_compute. reflexivity.
Defined.

(** ** The turn index: forced completion and the sweep *)

Lemma active_turns_put_turn (s : ChatStateManagerService.service)
    (chat_id turn chat_id' turn' : string) (md : TurnMetadata) :
  ChatStateManagerService.active_turns
    (ChatStateManagerService.put_turn chat_id turn md s) chat_id' !! turn'
  = if decide (chat_id = chat_id' ∧ turn = turn') then Some md
    else ChatStateManagerService.active_turns s chat_id' !! turn'.
Proof.
  unfold ChatStateManagerService.active_turns at 1; simpl.
  destruct (decide (chat_id = chat_id')) as [<-|Hchat].
  - rewrite lookup_insert_eq; simpl.
    destruct (decide (turn = turn')) as [<-|Hturn].
    + rewrite lookup_insert_eq. by rewrite decide_True.
    + rewrite lookup_insert_ne by done. rewrite decide_False; [done|].
      by intros [_ ?].
  - rewrite lookup_insert_ne by done. rewrite decide_False; [done|].
    by intros [? _].
Qed.

(** X17.  [force_complete_turn] returns whether the turn is in the index.
    When it is, the turn is marked complete at the time of the call with
    its expected and completed lists as they were, and every other turn,
    the log and the locks are left alone. *)
Theorem force_complete_turn_marks (s : ChatStateManagerService.service)
    (chat_id turn : string) (now : datetime) :
  chat_id ∉ ChatStateManagerService._turn_locks s →
  ∃ s',
    ChatStateManagerService.force_complete_turn chat_id turn now s
    = Returned
        (bool_decide
           (is_Some (ChatStateManagerService.active_turns s chat_id !! turn)))
        s'
    ∧ ChatStateManagerService.storage s' = ChatStateManagerService.storage s
    ∧ ChatStateManagerService._turn_locks s'
      = ChatStateManagerService._turn_locks s
    ∧ ChatStateManagerService.active_turns s' chat_id !! turn
      = completed_at_time now
          <$> ChatStateManagerService.active_turns s chat_id !! turn
    ∧ ∀ chat_id' turn', ¬ (chat_id = chat_id' ∧ turn = turn') →
        ChatStateManagerService.active_turns s' chat_id' !! turn'
        = ChatStateManagerService.active_turns s chat_id' !! turn'.
Proof.
  intros Hfree.
  unfold ChatStateManagerService.force_complete_turn,
    ChatStateManagerService.with_turn_lock.
  rewrite bool_decide_eq_false_2 by done.
  unfold mbind at 1, coroutine_bind at 1, ChatStateManagerService.get.
  change (ChatStateManagerService.active_turns
            (ChatStateManagerService.set_turn_locks _ s) chat_id)
    with (ChatStateManagerService.active_turns s chat_id).
  destruct (ChatStateManagerService.active_turns s chat_id !! turn)
    as [md|] eqn:Hturn.
  - unfold mbind, coroutine_bind, ChatStateManagerService.modify,
      mret, coroutine_ret.
    eexists. split; [by rewrite bool_decide_eq_true_2|].
    split; [done|].
    split; [destruct s; simpl in *; set_solver|].
    change (ChatStateManagerService.active_turns
              (ChatStateManagerService.set_turn_locks ?f ?x))
      with (ChatStateManagerService.active_turns x).
    split.
    + rewrite active_turns_put_turn. by rewrite decide_True.
    + intros chat_id' turn' Hother.
      rewrite active_turns_put_turn. by rewrite decide_False.
  - unfold mret, coroutine_ret. rewrite release_acquire_turn_lock by done.
    exists s. split; [by rewrite bool_decide_eq_false_2|].
    split; [done|]. split; [done|]. split; [by rewrite Hturn|]. done.
Qed.

Lemma force_complete_turn_marks_witness :
  ∃ s',
    ChatStateManagerService.force_complete_turn "chat1" "turn_1" (at_minute 5)
      awaiting_two_calls
    = Returned
        (bool_decide
           (is_Some
              (ChatStateManagerService.active_turns awaiting_two_calls "chat1"
               !! "turn_1")))
        s'
    ∧ ChatStateManagerService.storage s'
      = ChatStateManagerService.storage awaiting_two_calls
    ∧ ChatStateManagerService._turn_locks s'
      = ChatStateManagerService._turn_locks awaiting_two_calls
    ∧ ChatStateManagerService.active_turns s' "chat1" !! "turn_1"
      = completed_at_time (at_minute 5)
          <$> ChatStateManagerService.active_turns awaiting_two_calls "chat1"
              !! "turn_1"
    ∧ ∀ chat_id' turn', ¬ ("chat1" = chat_id' ∧ "turn_1" = turn') →
        ChatStateManagerService.active_turns s' chat_id' !! turn'
        = ChatStateManagerService.active_turns awaiting_two_calls chat_id'
          !! turn'.
Proof.
  apply (force_complete_turn_marks awaiting_two_calls "chat1" "turn_1"
           (at_minute 5)).
  apply (bool_decide_unpack _). vm_compute. exact I.
Defined.

(** X18.  [cleanup_active_turns] never removes and never completes a
    turn: however it ends, the index and the storage are what they were
    before the call. *)
Theorem cleanup_changes_nothing (s : ChatStateManagerService.service)
    (chat_id : string) (max_age_minutes : Z) (now : datetime) :
  ChatStateManagerService._active_turns
    (final_state
       (ChatStateManagerService.cleanup_active_turns chat_id max_age_minutes
          now s))
  = ChatStateManagerService._active_turns s
  ∧ ChatStateManagerService.storage
      (final_state
         (ChatStateManagerService.cleanup_active_turns chat_id
            max_age_minutes now s))
    = ChatStateManagerService.storage s.
Proof.
  destruct (decide (chat_id ∈ ChatStateManagerService._turn_locks s))
    as [Hheld|Hfree].
  { unfold ChatStateManagerService.cleanup_active_turns,
      ChatStateManagerService.with_turn_lock.
    by rewrite bool_decide_eq_true_2. }
  destruct (ChatStateManagerService.to_remove max_age_minutes now
              (ChatStateManagerService.active_turns s chat_id)) as [|t rest]
    eqn:Hremove.
  - by rewrite cleanup_nothing_to_remove.
  - rewrite cleanup_something_to_remove; [done|done|].
    by rewrite Hremove.
Qed.

(** ** The turn index: locks *)

Lemma distributed_lock_never_blocked {A} (lock_key : string)
    (body : coroutine RedisStorage.redis A) :
  never_blocked body →
  never_blocked (RedisStorage._get_distributed_lock lock_key body).
Proof.
  intros Hbody r r'. unfold RedisStorage._get_distributed_lock.
  case_bool_decide; [done|].
  destruct (body _) as [a r1|e r1|r1] eqn:Hrun; [done|done|].
  by destruct (Hbody _ _ Hrun).
Qed.

Lemma add_chat_message_never_blocked (chat_id : string) (message : Message)
    (utcnow : string) :
  never_blocked (RedisStorage.add_chat_message chat_id message utcnow).
Proof.
  apply distributed_lock_never_blocked. intros r r'.
  apply reraise_as_not_blocked. intros r1.
  destruct (m_message_id message); destruct (m_timestamp message);
    simpl; by destruct (RedisStorage.scan_messages _ _).
Qed.

Lemma locks_back_bind {A B}
    (c : coroutine ChatStateManagerService.service A)
    (k : A → coroutine ChatStateManagerService.service B) :
  gives_locks_back c → (∀ a, gives_locks_back (k a)) →
  gives_locks_back (c ≫= k).
Proof.
  intros Hc Hk s. specialize (Hc s). unfold mbind, coroutine_bind.
  destruct (c s) as [a s1|e s1|s1]; simpl in *; [|done..].
  specialize (Hk a s1). unfold locks_as_in in *.
  destruct (k a s1); by rewrite <- ?Hc.
Qed.

Lemma locks_back_get_bind {B}
    (k : ChatStateManagerService.service →
         coroutine ChatStateManagerService.service B) :
  (∀ s, gives_locks_back (k s)) →
  gives_locks_back (ChatStateManagerService.get ≫= k).
Proof. intros Hk s. apply Hk. Qed.

Lemma locks_back_mret {A} (a : A) :
  gives_locks_back (mret a : coroutine ChatStateManagerService.service A).
Proof. by intros s. Qed.

Lemma locks_back_raise {A} (e : exception) :
  gives_locks_back (raise e : coroutine ChatStateManagerService.service A).
Proof. by intros s. Qed.

Lemma locks_back_put_turn (chat_id turn : string) (md : TurnMetadata) :
  gives_locks_back
    (ChatStateManagerService.modify
       (ChatStateManagerService.put_turn chat_id turn md)).
Proof. by intros s. Qed.

Lemma locks_back_on_storage {A} (c : coroutine RedisStorage.redis A) :
  never_blocked c → gives_locks_back (ChatStateManagerService.on_storage c).
Proof.
  intros Hc s. unfold ChatStateManagerService.on_storage.
  destruct (c (ChatStateManagerService.storage s)) as [a r|e r|r] eqn:Hrun;
    [done|done|].
  by destruct (Hc _ _ Hrun).
Qed.

Lemma with_turn_lock_gives_back {A} (chat_id : string)
    (body : coroutine ChatStateManagerService.service A)
    (s : ChatStateManagerService.service) :
  gives_locks_back body →
  chat_id ∉ ChatStateManagerService._turn_locks s →
  locks_as_in s (ChatStateManagerService.with_turn_lock chat_id body s).
Proof.
  intros Hbody Hfree. unfold ChatStateManagerService.with_turn_lock.
  rewrite bool_decide_eq_false_2 by done.
  specialize (Hbody
    (ChatStateManagerService.set_turn_locks (λ ls, {[chat_id]} ∪ ls) s)).
  unfold locks_as_in in *.
  destruct (body _) as [a s1|e s1|s1]; simpl in *; [| |done].
  - rewrite Hbody. set_solver.
  - rewrite Hbody. set_solver.
Qed.

(** X19.  Called with the chat's turn lock free, [start_turn],
    [add_assistant_message], [add_tool_result] and [force_complete_turn]
    are never suspended for ever, and whether they return or raise they
    leave the turn lock free again. *)
Theorem turn_lock_given_back (s : ChatStateManagerService.service)
    (chat_id turn text tool_call_id tool_name new_turn_id new_message_id
     : string)
    (tool_calls : option (list ToolCall)) (error : option string)
    (now : datetime) :
  chat_id ∉ ChatStateManagerService._turn_locks s →
  locks_as_in s
    (ChatStateManagerService.start_turn chat_id text new_turn_id
       new_message_id now s)
  ∧ locks_as_in s
      (ChatStateManagerService.add_assistant_message chat_id turn text
         tool_calls new_message_id now s)
  ∧ locks_as_in s
      (ChatStateManagerService.add_tool_result chat_id turn tool_call_id
         tool_name text error new_message_id now s)
  ∧ locks_as_in s
      (ChatStateManagerService.force_complete_turn chat_id turn now s).
Proof.
  intros Hfree. repeat split; apply with_turn_lock_gives_back; try done.
  - apply locks_back_bind; [apply locks_back_put_turn|]. intros _.
    apply locks_back_bind;
      [apply locks_back_on_storage, add_chat_message_never_blocked|].
    intros _. apply locks_back_mret.
  - apply locks_back_get_bind. intros s0.
    destruct (ChatStateManagerService.active_turns s0 chat_id !! turn)
      as [md|]; [|apply locks_back_raise].
    destruct tool_calls as [[|tc tcs]|];
      (apply locks_back_bind; [apply locks_back_put_turn|]; intros _;
       apply locks_back_bind;
         [apply locks_back_on_storage, add_chat_message_never_blocked|];
       intros _; apply locks_back_mret).
  - apply locks_back_get_bind. intros s0.
    destruct (ChatStateManagerService.active_turns s0 chat_id !! turn)
      as [md|]; [|apply locks_back_mret].
    case_bool_decide; [|apply locks_back_mret].
    apply locks_back_bind;
      [apply locks_back_on_storage, add_chat_message_never_blocked|].
    intros _. cbv zeta.
    destruct (ChatStateManagerService.same_ids _ _);
      (apply locks_back_bind; [apply locks_back_put_turn|]; intros _;
       apply locks_back_mret).
  - apply locks_back_get_bind. intros s0.
    destruct (ChatStateManagerService.active_turns s0 chat_id !! turn)
      as [md|]; [|apply locks_back_mret].
    apply locks_back_bind; [apply locks_back_put_turn|]. intros _.
    apply locks_back_mret.
Qed.

Lemma turn_lock_given_back_witness :
  locks_as_in awaiting_one_call
    (ChatStateManagerService.start_turn "chat1" "Hi" "turn_2" "msg_9"
       (at_minute 1) awaiting_one_call)
  ∧ locks_as_in awaiting_one_call
      (ChatStateManagerService.add_assistant_message "chat1" "turn_1" "Hi"
         None "msg_9" (at_minute 1) awaiting_one_call)
  ∧ locks_as_in awaiting_one_call
      (ChatStateManagerService.add_tool_result "chat1" "turn_1" "call_1"
         "faq_search" "Hi" None "msg_9" (at_minute 1) awaiting_one_call)
  ∧ locks_as_in awaiting_one_call
      (ChatStateManagerService.force_complete_turn "chat1" "turn_1"
         (at_minute 1) awaiting_one_call).
Proof.
  apply (turn_lock_given_back awaiting_one_call "chat1" "turn_1" "Hi" "call_1"
           "faq_search" "turn_2" "msg_9" None None (at_minute 1)).
  apply (bool_decide_unpack _). vm_compute. exact I.
Defined.

(** ** The turn index: a whole turn *)

Lemma start_turn_ready (s : ChatStateManagerService.service)
    (chat_id user_message new_turn_id new_message_id : string)
    (now : datetime) :
  chat_id ∉ ChatStateManagerService._turn_locks s →
  storage_ready (ChatStateManagerService.storage s) chat_id →
  ∃ s',
    ChatStateManagerService.start_turn chat_id user_message new_turn_id
      new_message_id now s
    = Returned (new_turn_id, new_message_id) s'
    ∧ (chat_id ∉ ChatStateManagerService._turn_locks s')
    ∧ storage_ready (ChatStateManagerService.storage s') chat_id
    ∧ ChatStateManagerService.active_turns s' chat_id !! new_turn_id
      = Some (mkTurnMetadata new_turn_id new_message_id "" [] [] false now None).
Proof.
  intros Hfree Hready.
  unfold ChatStateManagerService.start_turn,
    ChatStateManagerService.with_turn_lock.
  rewrite bool_decide_eq_false_2 by done.
  unfold mbind, coroutine_bind, ChatStateManagerService.modify,
    ChatStateManagerService.on_storage.
  change (ChatStateManagerService.storage
            (ChatStateManagerService.put_turn ?c ?t ?m
               (ChatStateManagerService.set_turn_locks ?f s)))
    with (ChatStateManagerService.storage s).
  edestruct (add_chat_message_ready (ChatStateManagerService.storage s) chat_id)
    as (r' & -> & Hready'); [done | by eexists |].
  unfold mret, coroutine_ret.
  eexists. split; [reflexivity|].
  destruct s as [a b c turns ls r]; simpl in *.
  split; [set_solver|]. split; [done|].
  unfold ChatStateManagerService.active_turns; simpl.
  rewrite lookup_insert_eq; simpl. by rewrite lookup_insert_eq.
Qed.

Lemma add_assistant_message_ready (s : ChatStateManagerService.service)
    (chat_id turn content : string) (tool_calls : option (list ToolCall))
    (new_message_id : string) (now : datetime) (md : TurnMetadata) :
  chat_id ∉ ChatStateManagerService._turn_locks s →
  storage_ready (ChatStateManagerService.storage s) chat_id →
  ChatStateManagerService.active_turns s chat_id !! turn = Some md →
  ∃ s',
    ChatStateManagerService.add_assistant_message chat_id turn content
      tool_calls new_message_id now s
    = Returned new_message_id s'
    ∧ (chat_id ∉ ChatStateManagerService._turn_locks s')
    ∧ storage_ready (ChatStateManagerService.storage s') chat_id
    ∧ ChatStateManagerService.active_turns s' chat_id !! turn
      = Some
          (match tool_calls with
           | Some (tc :: tcs) =>
             mkTurnMetadata (turn_id md) (user_message_id md) new_message_id
               (tc_id <$> tc :: tcs) (completed_tool_results md)
               (is_complete md) (created_at md) (completed_at md)
           | _ =>
             mkTurnMetadata (turn_id md) (user_message_id md) new_message_id
               (tool_call_ids md) (completed_tool_results md) true
               (created_at md) (Some now)
           end).
Proof.
  intros Hfree Hready Hturn.
  unfold ChatStateManagerService.add_assistant_message,
    ChatStateManagerService.with_turn_lock.
  rewrite bool_decide_eq_false_2 by done.
  unfold mbind at 1, coroutine_bind at 1, ChatStateManagerService.get.
  change (ChatStateManagerService.active_turns
            (ChatStateManagerService.set_turn_locks _ s) chat_id)
    with (ChatStateManagerService.active_turns s chat_id).
  rewrite Hturn.
  destruct tool_calls as [[|tc tcs]|];
    unfold mbind, coroutine_bind, ChatStateManagerService.modify,
      ChatStateManagerService.on_storage;
    change (ChatStateManagerService.storage
              (ChatStateManagerService.put_turn ?c ?t ?m
                 (ChatStateManagerService.set_turn_locks ?f s)))
      with (ChatStateManagerService.storage s);
    (edestruct (add_chat_message_ready (ChatStateManagerService.storage s)
                  chat_id) as (r' & -> & Hready'); [done | by eexists |]);
    unfold mret, coroutine_ret;
    (eexists; split; [reflexivity|]);
    destruct s as [a b c turns ls r]; simpl in *;
    (split; [set_solver|]); (split; [done|]);
    unfold ChatStateManagerService.active_turns; simpl;
    rewrite lookup_insert_eq; simpl; by rewrite lookup_insert_eq.
Qed.

(** X20.  A whole turn.  After [start_turn] and an assistant message that
    announces one tool call the turn is in the index and not complete,
    and the [add_tool_result] for that call returns [True] and leaves the
    turn complete; after [start_turn] and an assistant message without
    tool calls the turn is complete at once. *)
Theorem one_tool_call_turn (s : ChatStateManagerService.service)
    (chat_id text new_turn_id user_id assistant_id result_id tool_name
     content : string) (tc : ToolCall) (now : datetime) :
  chat_id ∉ ChatStateManagerService._turn_locks s →
  storage_ready (ChatStateManagerService.storage s) chat_id →
  (∃ s2 s3 md2 md3,
     (ChatStateManagerService.start_turn chat_id text new_turn_id user_id now ;;
      ChatStateManagerService.add_assistant_message chat_id new_turn_id ""
        (Some [tc]) assistant_id now) s
     = Returned assistant_id s2
     ∧ ChatStateManagerService.active_turns s2 chat_id !! new_turn_id
       = Some md2
     ∧ is_complete md2 = false
     ∧ tool_call_ids md2 = [tc_id tc]
     ∧ ChatStateManagerService.add_tool_result chat_id new_turn_id (tc_id tc)
         tool_name content None result_id now s2
       = Returned true s3
     ∧ ChatStateManagerService.active_turns s3 chat_id !! new_turn_id
       = Some md3
     ∧ is_complete md3 = true
     ∧ completed_tool_results md3 = [tc_id tc])
  ∧ ∃ s2 md2,
      (ChatStateManagerService.start_turn chat_id text new_turn_id user_id now ;;
       ChatStateManagerService.add_assistant_message chat_id new_turn_id
         text None assistant_id now) s
      = Returned assistant_id s2
      ∧ ChatStateManagerService.active_turns s2 chat_id !! new_turn_id
        = Some md2
      ∧ is_complete md2 = true.
Proof.
  intros Hfree Hready.
  destruct (start_turn_ready s chat_id text new_turn_id user_id now
              Hfree Hready) as (s1 & Hstart & Hfree1 & Hready1 & Hturn1).
  split.
  - destruct (add_assistant_message_ready s1 chat_id new_turn_id ""
                (Some [tc]) assistant_id now _ Hfree1 Hready1 Hturn1)
      as (s2 & Hassistant & Hfree2 & Hready2 & Hturn2).
    destruct (add_tool_result_expected s2 chat_id new_turn_id _
                (mkDelivery (tc_id tc) tool_name content None result_id now)
                Hfree2 Hready2 Hturn2)
      as (s3 & Hresult & _ & _ & Hturn3); [simpl; by left|].
    assert (ChatStateManagerService.same_ids [tc_id tc] [tc_id tc] = true)
      as Hsame by (by apply bool_decide_eq_true_2).
    unfold record_result in Hresult, Hturn3. simpl in Hresult, Hturn3.
    rewrite Hsame in Hresult, Hturn3. simpl in Hresult, Hturn3.
    eexists s2, s3, _, _.
    split; [unfold mbind, coroutine_bind; by rewrite Hstart|].
    split; [exact Hturn2|]. split; [done|]. split; [done|].
    split; [exact Hresult|]. split; [exact Hturn3|]. done.
  - destruct (add_assistant_message_ready s1 chat_id new_turn_id text
                None assistant_id now _ Hfree1 Hready1 Hturn1)
      as (s2 & Hassistant & _ & _ & Hturn2).
    eexists s2, _.
    split; [unfold mbind, coroutine_bind; by rewrite Hstart|].
    split; [exact Hturn2|]. done.
Qed.

Lemma one_tool_call_turn_witness :
  (∃ s2 s3 md2 md3,
     (ChatStateManagerService.start_turn "chat1" "Hi" "turn_1" "msg_1"
        (at_minute 0) ;;
      ChatStateManagerService.add_assistant_message "chat1" "turn_1" ""
        (Some [mkToolCall "call_1" "faq" "{}"]) "msg_2" (at_minute 0))
       new_service
     = Returned "msg_2" s2
     ∧ ChatStateManagerService.active_turns s2 "chat1" !! "turn_1" = Some md2
     ∧ is_complete md2 = false
     ∧ tool_call_ids md2 = ["call_1"]
     ∧ ChatStateManagerService.add_tool_result "chat1" "turn_1" "call_1"
         "faq" "{}" None "msg_3" (at_minute 0) s2
       = Returned true s3
     ∧ ChatStateManagerService.active_turns s3 "chat1" !! "turn_1" = Some md3
     ∧ is_complete md3 = true
     ∧ completed_tool_results md3 = ["call_1"])
  ∧ ∃ s2 md2,
      (ChatStateManagerService.start_turn "chat1" "Hi" "turn_1" "msg_1"
         (at_minute 0) ;;
       ChatStateManagerService.add_assistant_message "chat1" "turn_1"
         "Hi" None "msg_2" (at_minute 0)) new_service
      = Returned "msg_2" s2
      ∧ ChatStateManagerService.active_turns s2 "chat1" !! "turn_1" = Some md2
      ∧ is_complete md2 = true.
Proof.
  apply (one_tool_call_turn new_service "chat1" "Hi" "turn_1" "msg_1" "msg_2"
           "msg_3" "faq" "{}" (mkToolCall "call_1" "faq" "{}") (at_minute 0)).
  - apply (bool_decide_unpack _). vm_compute. exact I.
  - split.
    + apply (bool_decide_unpack _). vm_compute. exact I.
    + vm_compute. constructor.
Defined.

(** ** The state document: creation and merging *)



Lemma update_chat_state_runs (s : ChatStateManagerService.service)
    (chat_id : string) (state_update doc : gmap string json) (now : datetime) :
  RedisStorage.state (ChatStateManagerService.storage s) !! chat_id
    = Some (Some doc) →
  doc ≠ ∅ →
  ChatStateManagerService.update_chat_state chat_id state_update now s
  = match RedisStorage.next_version (state_update ∪ doc) with
    | Some v =>
      Returned ()
        (ChatStateManagerService.set_storage
           (RedisStorage.set_state
              <[chat_id :=
                  Some (<["version" := v]>
                          (<["last_updated" := JStr (isoformat now)]>
                             (<["updated_at" := JStr (isoformat now)]>
                                (state_update ∪ doc))))]>
              (ChatStateManagerService.storage s)) s)
    | None =>
      Raised (StateServiceException "Failed to update chat state") s
    end.
Proof.
  intros Hstored Hdoc.
  unfold ChatStateManagerService.update_chat_state,
    ChatStateManagerService.get_chat_state, reraise_as,
    ChatStateManagerService.on_storage, RedisStorage.get_chat_state,
    RedisStorage.set_chat_state, reraise_as,
    mbind, coroutine_bind, mret, coroutine_ret.
  rewrite Hstored. simpl.
  rewrite bool_decide_eq_false_2 by done.
  assert (RedisStorage.next_version
            (<["updated_at" := JStr (isoformat now)]> (state_update ∪ doc))
          = RedisStorage.next_version (state_update ∪ doc)) as ->.
  { unfold RedisStorage.next_version. by rewrite lookup_insert_ne. }
  destruct (RedisStorage.next_version (state_update ∪ doc)); simpl; [done|].
  by destruct s as [a b c turns ls []].
Qed.

(** X22.  On a chat with a state document, an [update_chat_state] whose
    merged document has a numeric or missing version returns, and the
    document read afterwards holds every key of the patch with the value
    of the patch, every other key of the old document with its old value,
    and the time of the update under ["updated_at"]; the three keys that
    the writing sets itself are the exception. *)
Theorem update_chat_state_merges (s : ChatStateManagerService.service)
    (chat_id : string) (state_update doc : gmap string json) (v : json)
    (now : datetime) :
  RedisStorage.state (ChatStateManagerService.storage s) !! chat_id
    = Some (Some doc) →
  doc ≠ ∅ →
  RedisStorage.next_version (state_update ∪ doc) = Some v →
  ∃ s' doc',
    ChatStateManagerService.update_chat_state chat_id state_update now s
    = Returned () s'
    ∧ (∀ later,
         ChatStateManagerService.get_chat_state chat_id later s'
         = Returned doc' s')
    ∧ (∀ k x, state_update !! k = Some x → ¬ bookkeeping_key k →
         doc' !! k = Some x)
    ∧ (∀ k, state_update !! k = None → ¬ bookkeeping_key k →
         doc' !! k = doc !! k)
    ∧ doc' !! "updated_at" = Some (JStr (isoformat now))
    ∧ doc' !! "version" = Some v.
Proof.
  intros Hstored Hdoc Hversion.
  rewrite (update_chat_state_runs s chat_id state_update doc now Hstored Hdoc),
    Hversion.
  eexists _, _. split; [reflexivity|].
  split.
  { intros later.
    unfold ChatStateManagerService.get_chat_state, reraise_as,
      ChatStateManagerService.on_storage, RedisStorage.get_chat_state,
      mbind, coroutine_bind, mret, coroutine_ret.
    destruct s as [a b c turns ls r]; simpl.
    rewrite lookup_insert_eq. simpl.
    rewrite bool_decide_eq_false_2; [by destruct r|].
    intros Hempty.
    assert (<["version" := v]>
              (<["last_updated" := JStr (isoformat now)]>
                 (<["updated_at" := JStr (isoformat now)]>
                    (state_update ∪ doc))) !! "version" = Some v) as Hv
      by (by rewrite lookup_insert_eq).
    by rewrite Hempty in Hv. }
  split.
  { intros k x Hk Hkey.
    rewrite !lookup_insert_ne
      by (intros <-; apply Hkey; unfold bookkeeping_key; tauto).
    by apply lookup_union_Some_l. }
  split.
  { intros k Hk Hkey.
    rewrite !lookup_insert_ne
      by (intros <-; apply Hkey; unfold bookkeeping_key; tauto).
    by apply lookup_union_r. }
  split; [rewrite !lookup_insert_ne by done; by rewrite lookup_insert_eq|].
  by rewrite lookup_insert_eq.
Qed.

Lemma update_chat_state_merges_witness :
  ∃ s' doc',
    ChatStateManagerService.update_chat_state "chat1"
      {[ "mood" := JStr "bright" ]} (at_minute 2) calm_chat
    = Returned () s'
    ∧ (∀ later,
         ChatStateManagerService.get_chat_state "chat1" later s'
         = Returned doc' s')
    ∧ (∀ k x, ({[ "mood" := JStr "bright" ]} : gmap string json) !! k = Some x →
         ¬ bookkeeping_key k → doc' !! k = Some x)
    ∧ (∀ k, ({[ "mood" := JStr "bright" ]} : gmap string json) !! k = None →
         ¬ bookkeeping_key k →
         doc' !! k
         = (<["version" := JInt 3]>
              (<["last_updated" := JStr (isoformat (at_minute 1))]>
                 (<["updated_at" := JStr (isoformat (at_minute 1))]>
                    ({[ "mood" := JStr "calm"; "version" := JInt 2 ]}
                     ∪ ChatStateManagerService.create_default "chat1"
                         (at_minute 1))))) !! k)
    ∧ doc' !! "updated_at" = Some (JStr (isoformat (at_minute 2)))
    ∧ doc' !! "version" = Some (JInt 4).
Proof.
  apply (update_chat_state_merges calm_chat "chat1"
           {[ "mood" := JStr "bright" ]} _ (JInt 4) (at_minute 2)).
  - vm_compute. reflexivity.
  - apply (bool_decide_unpack _). vm_compute. exact I.
  - vm_compute. reflexivity.
Defined.

(** X23.  On a chat with a state document, an [update_chat_state] whose
    merged document has a ["version"] that is not a number (a string, a
    null, an array or object) raises [StateServiceException] and writes
    nothing: the stored document, the logs and the turn index are what
    they were. *)
Theorem update_chat_state_bad_version (s : ChatStateManagerService.service)
    (chat_id : string) (state_update doc : gmap string json) (x : json)
    (now : datetime) :
  RedisStorage.state (ChatStateManagerService.storage s) !! chat_id
    = Some (Some doc) →
  doc ≠ ∅ →
  (state_update ∪ doc) !! "version" = Some x →
  (∀ z, x ≠ JInt z) →
  (∀ b, x ≠ JBool b) →
  ChatStateManagerService.update_chat_state chat_id state_update now s
  = Raised (StateServiceException "Failed to update chat state") s.
Proof.
  intros Hstored Hdoc Hversion Hint Hbool.
  rewrite (update_chat_state_runs s chat_id state_update doc now Hstored Hdoc).
  unfold RedisStorage.next_version. rewrite Hversion.
  destruct x as [|b|z|str|raw]; try done.
  - by destruct (Hbool b).
  - by destruct (Hint z).
Qed.

Lemma update_chat_state_bad_version_witness :
  ChatStateManagerService.update_chat_state "chat1"
    {[ "version" := JStr "4" ]} (at_minute 2) calm_chat
  = Raised (StateServiceException "Failed to update chat state") calm_chat.
Proof.
  apply (update_chat_state_bad_version calm_chat "chat1"
           {[ "version" := JStr "4" ]}
           (<["version" := JInt 3]>
              (<["last_updated" := JStr (isoformat (at_minute 1))]>
                 (<["updated_at" := JStr (isoformat (at_minute 1))]>
                    ({[ "mood" := JStr "calm"; "version" := JInt 2 ]}
                     ∪ ChatStateManagerService.create_default "chat1"
                         (at_minute 1)))))
           (JStr "4") (at_minute 2)).
  - vm_compute. reflexivity.
  - apply (bool_decide_unpack _). vm_compute. exact I.
  - vm_compute. reflexivity.
  - done.
  - done.
Defined.

(** ** The audit log of tool calls *)

Lemma scan_tool_calls_objects (l : list (stored ToolCallEntry))
    (id : option string) :
  Forall readable l →
  RedisStorage.scan_tool_calls l id ≠ RedisStorage.ScanFailed.
Proof.
  induction 1 as [|e l [He1 He2] _ IH]; simpl; [done|].
  destruct e as [| | |entry]; [done|done|done|].
  by destruct (bool_decide _).
Qed.

(** What the storage's [add_tool_call] does on a log that can be written:
    it returns, and it has appended at most one element to the audit log
    of its chat. *)
Lemma storage_add_tool_call_ready (r : RedisStorage.redis) (chat_id : string)
    (tool_call : ToolCallEntry) (utcnow : string) :
  ("tool_write:" +:+ chat_id) ∉ RedisStorage.lock_keys r →
  Forall readable (RedisStorage.tool_history_of r chat_id) →
  ∃ r' appended,
    RedisStorage.add_tool_call chat_id tool_call utcnow r = Returned () r'
    ∧ RedisStorage.lock_keys r' = RedisStorage.lock_keys r
    ∧ RedisStorage.state r' = RedisStorage.state r
    ∧ RedisStorage.history r' = RedisStorage.history r
    ∧ RedisStorage.message_counter r' = RedisStorage.message_counter r
    ∧ (length appended ≤ 1)%nat
    ∧ ∀ other,
        RedisStorage.tool_history_of r' other
        = if decide (chat_id = other)
          then RedisStorage.tool_history_of r chat_id ++ appended
          else RedisStorage.tool_history_of r other.
Proof.
  intros Hlock Hobjects.
  assert (∀ r0 : RedisStorage.redis,
            ("tool_write:" +:+ chat_id) ∉ RedisStorage.lock_keys r0 →
            RedisStorage.lock_keys
              (RedisStorage.set_lock_keys
                 (λ ks, ks ∖ {[ "tool_write:" +:+ chat_id ]})
                 (RedisStorage.set_lock_keys
                    (λ ks, {[ "tool_write:" +:+ chat_id ]} ∪ ks) r0))
            = RedisStorage.lock_keys r0) as Hback
    by (intros r0 Hr0; simpl; set_solver).
  unfold RedisStorage.add_tool_call, RedisStorage._get_distributed_lock.
  rewrite bool_decide_eq_false_2 by done.
  unfold reraise_as.
  change (RedisStorage.tool_history_of
            (RedisStorage.set_lock_keys _ r) chat_id)
    with (RedisStorage.tool_history_of r chat_id).
  set (entry := match te_timestamp tool_call with
                | None => RedisStorage.entry_with_timestamp utcnow tool_call
                | Some _ => tool_call
                end).
  pose proof (scan_tool_calls_objects _ (te_tool_call_id entry) Hobjects)
    as Hscan.
  assert (∀ other,
            RedisStorage.tool_history_of r other
            = if decide (chat_id = other)
              then RedisStorage.tool_history_of r chat_id ++ []
              else RedisStorage.tool_history_of r other) as Hsame.
  { intros other. case_decide; subst; by rewrite ?app_nil_r. }
  assert (∀ other,
            RedisStorage.tool_history_of
              (RedisStorage.set_lock_keys
                 (λ ks, ks ∖ {[ "tool_write:" +:+ chat_id ]})
                 (RedisStorage.set_tool_history
                    <[chat_id :=
                        RedisStorage.tool_history_of r chat_id ++ [Object entry]]>
                    (RedisStorage.set_lock_keys
                       (λ ks, {[ "tool_write:" +:+ chat_id ]} ∪ ks) r)))
              other
            = if decide (chat_id = other)
              then RedisStorage.tool_history_of r chat_id ++ [Object entry]
              else RedisStorage.tool_history_of r other) as Hpushed.
  { intros other. unfold RedisStorage.tool_history_of at 1; simpl.
    case_decide; subst;
      by rewrite ?lookup_insert_eq, ?lookup_insert_ne by done. }
  assert ((length (@nil (stored ToolCallEntry)) ≤ 1)%nat) as Hnone
    by (simpl; lia).
  destruct (truthy (te_tool_call_id entry));
    [destruct (RedisStorage.scan_tool_calls _ _); [| |done]|].
  - exists (RedisStorage.set_lock_keys
              (λ ks, ks ∖ {[ "tool_write:" +:+ chat_id ]})
              (RedisStorage.set_lock_keys
                 (λ ks, {[ "tool_write:" +:+ chat_id ]} ∪ ks) r)), [].
    split; [done|]. split; [by apply Hback|]. by repeat (split; [done|]).
  - eexists _, [Object entry]. split; [reflexivity|].
    split; [by apply (Hback r)|]. by repeat (split; [done|]).
  - eexists _, [Object entry]. split; [reflexivity|].
    split; [by apply (Hback r)|]. by repeat (split; [done|]).
Qed.

(** X24.  With the audit log switched on and writable, the service's
    [add_tool_call] returns, and it has trimmed both logs of the chat to
    the tool-history limit: the message log is cut down to its last
    [tool_history_limit] elements although no message was written, and
    the audit log holds at most as many.  The logs of other chats, the
    state documents and the turn index are left alone. *)
Theorem add_tool_call_trims_both_logs (s : ChatStateManagerService.service)
    (tool_history_limit : Z) (chat_id tool_name tool_call_id arguments : string)
    (result error : option string) (duration_ms : option Z) (now : datetime) :
  ChatStateManagerService.store_tool_history s = true →
  audit_ready (ChatStateManagerService.storage s) chat_id →
  0 ≤ tool_history_limit →
  ∃ s',
    ChatStateManagerService.add_tool_call tool_history_limit chat_id tool_name
      tool_call_id arguments result error duration_ms now s
    = Returned () s'
    ∧ RedisStorage.history_of (ChatStateManagerService.storage s') chat_id
      = History.last_k (Z.to_nat tool_history_limit)
          (RedisStorage.history_of (ChatStateManagerService.storage s) chat_id)
    ∧ (length (RedisStorage.tool_history_of
                 (ChatStateManagerService.storage s') chat_id)
       ≤ Z.to_nat tool_history_limit)%nat
    ∧ (∀ other, other ≠ chat_id →
         RedisStorage.history_of (ChatStateManagerService.storage s') other
         = RedisStorage.history_of (ChatStateManagerService.storage s) other
         ∧ RedisStorage.tool_history_of (ChatStateManagerService.storage s')
             other
           = RedisStorage.tool_history_of (ChatStateManagerService.storage s)
               other)
    ∧ RedisStorage.state (ChatStateManagerService.storage s')
      = RedisStorage.state (ChatStateManagerService.storage s)
    ∧ ChatStateManagerService._active_turns s'
      = ChatStateManagerService._active_turns s
    ∧ ChatStateManagerService._turn_locks s'
      = ChatStateManagerService._turn_locks s.
Proof.
  intros Hon (Hwrite & Htrim & Hobjects) Hlimit.
  unfold ChatStateManagerService.add_tool_call,
    ChatStateManagerService.get.
  unfold mbind at 1, coroutine_bind at 1. rewrite Hon.
  set (entry := mkToolCallEntry _ _ _ _ _ _ _).
  destruct (storage_add_tool_call_ready _ chat_id entry (isoformat now)
              Hwrite Hobjects)
    as (r1 & appended & Hadd & Hlocks1 & Hstate1 & Hhistory1 & _ & _ & Htools1).
  destruct (trim_history_logs r1 chat_id tool_history_limit)
    as (r2 & Htrimmed & Hlocks2 & Hstate2 & Hhistory2 & Htools2);
    [by rewrite Hlocks1 | done |].
  exists (ChatStateManagerService.set_storage r2 s).
  split.
  { unfold ChatStateManagerService.swallow, mbind, coroutine_bind,
      ChatStateManagerService.on_storage.
    rewrite Hadd. simpl. rewrite Htrimmed. by destruct s. }
  assert (ChatStateManagerService.storage
            (ChatStateManagerService.set_storage r2 s) = r2) as ->
    by (by destruct s).
  split.
  { rewrite Hhistory2, decide_True by done.
    unfold RedisStorage.history_of. by rewrite Hhistory1. }
  split.
  { rewrite Htools2, decide_True by done. apply last_k_length. }
  split.
  { intros other Hother.
    rewrite Hhistory2, Htools2.
    rewrite !decide_False by congruence.
    rewrite Htools1, decide_False by congruence.
    unfold RedisStorage.history_of. by rewrite Hhistory1. }
  split; [by rewrite Hstate2, Hstate1|].
  by destruct s.
Qed.

Lemma add_tool_call_trims_both_logs_witness :
  ∃ s',
    ChatStateManagerService.add_tool_call 2 "chat1" "faq" "call_9" "{}"
      (Some "42") None None (at_minute 5) busy_service
    = Returned () s'
    ∧ RedisStorage.history_of (ChatStateManagerService.storage s') "chat1"
      = History.last_k (Z.to_nat 2)
          (RedisStorage.history_of
             (ChatStateManagerService.storage busy_service) "chat1")
    ∧ (length (RedisStorage.tool_history_of
                 (ChatStateManagerService.storage s') "chat1")
       ≤ Z.to_nat 2)%nat
    ∧ (∀ other, other ≠ "chat1" →
         RedisStorage.history_of (ChatStateManagerService.storage s') other
         = RedisStorage.history_of
             (ChatStateManagerService.storage busy_service) other
         ∧ RedisStorage.tool_history_of (ChatStateManagerService.storage s')
             other
           = RedisStorage.tool_history_of
               (ChatStateManagerService.storage busy_service) other)
    ∧ RedisStorage.state (ChatStateManagerService.storage s')
      = RedisStorage.state (ChatStateManagerService.storage busy_service)
    ∧ ChatStateManagerService._active_turns s'
      = ChatStateManagerService._active_turns busy_service
    ∧ ChatStateManagerService._turn_locks s'
      = ChatStateManagerService._turn_locks busy_service.
Proof.
  apply (add_tool_call_trims_both_logs busy_service 2 "chat1" "faq" "call_9"
           "{}" (Some "42") None None (at_minute 5)).
  - reflexivity.
  - split; [|split].
    + apply (bool_decide_unpack _). vm_compute. exact I.
    + apply (bool_decide_unpack _). vm_compute. exact I.
    + vm_compute. repeat constructor; done.
  - lia.
Defined.

Example audit_write_cuts_the_message_log :
  let s' :=
    final_state
      (ChatStateManagerService.add_tool_call 2 "chat1" "faq" "call_9" "{}"
         (Some "42") None None (at_minute 5) busy_service) in
  RedisStorage.history_of (ChatStateManagerService.storage s') "chat1"
  = [ Object (user_msg "u2" "two" "03"); Object (assistant_msg "a2" "2" "04") ]
  ∧ length (RedisStorage.tool_history_of
              (ChatStateManagerService.storage s') "chat1") = 2%nat.
Proof. split; vm_compute; reflexivity. Qed.

Lemma storage_add_tool_call_never_blocked (chat_id : string)
    (tool_call : ToolCallEntry) (utcnow : string) :
  never_blocked (RedisStorage.add_tool_call chat_id tool_call utcnow).
Proof.
  apply distributed_lock_never_blocked. intros r r'.
  apply reraise_as_not_blocked. intros r1. cbv beta zeta.
  destruct (truthy _); [|done].
  by destruct (RedisStorage.scan_tool_calls _ _).
Qed.

Lemma trim_history_never_blocked (chat_id : string) (limit : Z) :
  never_blocked (RedisStorage.trim_history chat_id limit).
Proof.
  apply distributed_lock_never_blocked. intros r r'.
  apply reraise_as_not_blocked. intros r1. cbv beta.
  by destruct (limit =? 0).
Qed.

(** X25.  The service's [add_tool_call] never raises and is never
    suspended: whatever the state of the storage, it returns.  It leaves
    the turn index, the turn locks and the settings as they were, and
    with the audit log switched off it changes nothing at all. *)
Theorem audit_write_never_raises (s : ChatStateManagerService.service)
    (tool_history_limit : Z) (chat_id tool_name tool_call_id arguments : string)
    (result error : option string) (duration_ms : option Z) (now : datetime) :
  ∃ s',
    ChatStateManagerService.add_tool_call tool_history_limit chat_id tool_name
      tool_call_id arguments result error duration_ms now s
    = Returned () s'
    ∧ ChatStateManagerService._active_turns s'
      = ChatStateManagerService._active_turns s
    ∧ ChatStateManagerService._turn_locks s'
      = ChatStateManagerService._turn_locks s
    ∧ ChatStateManagerService.store_tool_history s'
      = ChatStateManagerService.store_tool_history s
    ∧ (if ChatStateManagerService.store_tool_history s then True else s' = s).
Proof.
  unfold ChatStateManagerService.add_tool_call,
    ChatStateManagerService.get.
  unfold mbind at 1, coroutine_bind at 1.
  destruct (ChatStateManagerService.store_tool_history s) eqn:Hon;
    [|by exists s].
  set (entry := mkToolCallEntry _ _ _ _ _ _ _).
  unfold ChatStateManagerService.swallow, mbind, coroutine_bind,
    ChatStateManagerService.on_storage.
  destruct (RedisStorage.add_tool_call chat_id entry (isoformat now)
              (ChatStateManagerService.storage s)) as [[] r1|e r1|r1] eqn:Hadd.
  - assert (ChatStateManagerService.storage
              (ChatStateManagerService.set_storage r1 s) = r1) as ->
      by (by destruct s).
    destruct (RedisStorage.trim_history chat_id tool_history_limit r1)
      as [[] r2|e r2|r2] eqn:Htrim.
    + eexists. split; [reflexivity|]. by destruct s.
    + eexists. split; [reflexivity|]. by destruct s.
    + by destruct (trim_history_never_blocked _ _ _ _ Htrim).
  - eexists. split; [reflexivity|]. by destruct s.
  - by destruct (storage_add_tool_call_never_blocked _ _ _ _ _ Hadd).
Qed.

(** An audit entry that cannot be written, here because another writer
    holds the lock of the audit log, is lost without a trace. *)
Example audit_entry_lost_silently :
  let s :=
    ChatStateManagerService.set_storage
      (RedisStorage.set_lock_keys (λ _, {[ "tool_write:chat1" ]}) five_stored)
      busy_service in
  ChatStateManagerService.add_tool_call 100 "chat1" "faq" "call_9" "{}"
    (Some "42") None None (at_minute 5) s
  = Returned () s.
Proof. vm_compute. reflexivity. Qed.

(** ** Clearing a chat *)



(** * Properties of the agent *)

(** ** The tool-call executor, continued *)

(** X27.  [_execute_tool_calls_with_retry] returns one result for every
    requested tool call, in the order of the requests.  With at least one
    attempt allowed, the result of a request is a message of role
    ["tool"] that carries the id and the function name of that request;
    with no attempt allowed, every result is [None]. *)
Theorem executor_answers_in_order (a : BaseAgent.agent)
    (tool_calls : list BaseAgent.tool_call) :
  Forall2
    (λ tc result,
       if decide (BaseAgent.tool_call_retry_attempts a = 0%nat)
       then result = None
       else ∃ content, result = Some (BaseAgent.tool_result tc content))
    tool_calls (BaseAgent._execute_tool_calls_with_retry a tool_calls).
Proof.
  unfold BaseAgent._execute_tool_calls_with_retry.
  induction tool_calls as [|tc tcs IH]; [constructor|].
  rewrite fmap_cons. constructor; [|exact IH].
  case_decide as Hn.
  - unfold BaseAgent.execute_single_tool_call. by rewrite Hn.
  - by apply executor_always_answers.
Qed.

(** Attempts that overrun, and that are not the last one allowed, are
    followed by the next attempt. *)
Lemma attempts_from_skip (a : BaseAgent.agent) (tc : BaseAgent.tool_call)
    (rest : list nat) (m : nat) :
  ∀ k,
    (∀ i, (k ≤ i < k + m)%nat →
       BaseAgent._execute_tool_call a tc i = BaseAgent.Pending) →
    (k + m ≤ BaseAgent.tool_call_retry_attempts a - 1)%nat →
    BaseAgent.attempts_from a tc (seq k m ++ rest)
    = BaseAgent.attempts_from a tc rest.
Proof.
  induction m as [|m IH]; intros k Hslow Hlast; [done|].
  simpl. rewrite (Hslow k) by lia. simpl.
  assert ((k <? BaseAgent.tool_call_retry_attempts a - 1)%nat = true)
    as -> by (apply Nat.ltb_lt; lia).
  apply IH; [|lia]. intros i Hi. apply Hslow. lia.
Qed.

Lemma registered_tool_runs (a : BaseAgent.agent) (tc : BaseAgent.tool_call)
    (function : string → nat → BaseAgent.tool_run) (function_args : string)
    (attempt : nat) :
  BaseAgent.function_arguments tc = BaseAgent.Loaded function_args →
  BaseAgent.available_functions a !! BaseAgent.function_name tc
    = Some function →
  BaseAgent._execute_tool_call a tc attempt
  = match function function_args attempt with
    | BaseAgent.Finishes result =>
      BaseAgent.Done (BaseAgent.tool_result tc result)
    | BaseAgent.Fails e =>
      BaseAgent.Done
        (BaseAgent.tool_result tc
           ("Error executing tool '" +:+ BaseAgent.function_name tc
            +:+ "': " +:+ e))
    | BaseAgent.Overruns => BaseAgent.Pending
    end.
Proof.
  intros Hargs Hfun. unfold BaseAgent._execute_tool_call.
  by rewrite Hargs, Hfun.
Qed.

(** X28.  For a registered tool with decodable arguments, the first
    attempt that does not overrun decides the result, whether the tool
    returned or raised at that attempt, and later attempts are not made;
    when every allowed attempt overruns, the result is the time-out
    message. *)
Theorem first_answer_decides (a : BaseAgent.agent) (tc : BaseAgent.tool_call)
    (function : string → nat → BaseAgent.tool_run) (function_args : string) :
  BaseAgent.function_arguments tc = BaseAgent.Loaded function_args →
  BaseAgent.available_functions a !! BaseAgent.function_name tc
    = Some function →
  BaseAgent.tool_call_retry_attempts a ≠ 0%nat →
  (∀ j,
     (j < BaseAgent.tool_call_retry_attempts a)%nat →
     (∀ i, (i < j)%nat → function function_args i = BaseAgent.Overruns) →
     function function_args j ≠ BaseAgent.Overruns →
     ∃ result,
       BaseAgent._execute_tool_call a tc j = BaseAgent.Done result
       ∧ BaseAgent.execute_single_tool_call a tc = Some result)
  ∧ ((∀ i, (i < BaseAgent.tool_call_retry_attempts a)%nat →
        function function_args i = BaseAgent.Overruns) →
     BaseAgent.execute_single_tool_call a tc
     = Some (BaseAgent.tool_result tc
               ("Tool call timed out after "
                +:+ BaseAgent.max_tool_call_timeout a +:+ "s"))).
Proof.
  intros Hargs Hfun Hn.
  pose proof (registered_tool_runs a tc function function_args) as Hrun.
  specialize (λ attempt, Hrun attempt Hargs Hfun).
  unfold BaseAgent.execute_single_tool_call.
  split.
  - intros j Hj Hslow Hanswer.
    pose proof (seq_app j (S (BaseAgent.tool_call_retry_attempts a - S j)) 0)
      as Hsplit.
    replace (j + S (BaseAgent.tool_call_retry_attempts a - S j))%nat
      with (BaseAgent.tool_call_retry_attempts a) in Hsplit by lia.
    rewrite Hsplit.
    rewrite attempts_from_skip; [| |lia].
    2:{ intros i Hi. rewrite Hrun, Hslow; [done|lia]. }
    simpl. rewrite Hrun.
    destruct (function function_args j) as [result|e|]; [| |done];
      eexists; (split; [reflexivity|]); done.
  - intros Hslow.
    destruct (BaseAgent.tool_call_retry_attempts a) as [|p] eqn:Hp; [done|].
    rewrite seq_S.
    rewrite attempts_from_skip; [| |rewrite Hp; lia].
    2:{ intros i Hi. rewrite Hrun, Hslow; [done|lia]. }
    simpl. rewrite Hrun, Hslow by lia. simpl.
    rewrite Hp.
    by assert ((p <? S p - 1)%nat = false) as -> by (apply Nat.ltb_ge; lia).
Qed.

Lemma first_answer_decides_witness :
  (∀ j,
     (j < 3)%nat →
     (∀ i, (i < j)%nat → slow_start "{}" i = BaseAgent.Overruns) →
     slow_start "{}" j ≠ BaseAgent.Overruns →
     ∃ result,
       BaseAgent._execute_tool_call sample_agent
         (BaseAgent.mkCall "call_1" "slow_start" (BaseAgent.Loaded "{}")) j
       = BaseAgent.Done result
       ∧ BaseAgent.execute_single_tool_call sample_agent
           (BaseAgent.mkCall "call_1" "slow_start" (BaseAgent.Loaded "{}"))
         = Some result)
  ∧ ((∀ i, (i < 3)%nat → slow_start "{}" i = BaseAgent.Overruns) →
     BaseAgent.execute_single_tool_call sample_agent
       (BaseAgent.mkCall "call_1" "slow_start" (BaseAgent.Loaded "{}"))
     = Some (BaseAgent.tool_result
               (BaseAgent.mkCall "call_1" "slow_start" (BaseAgent.Loaded "{}"))
               ("Tool call timed out after " +:+ "30.0" +:+ "s"))).
Proof.
  apply (first_answer_decides sample_agent
           (BaseAgent.mkCall "call_1" "slow_start" (BaseAgent.Loaded "{}"))
           slow_start "{}").
  - reflexivity.
  - vm_compute. reflexivity.
  - vm_compute. lia.
Defined.

(** A tool that never answers in time, with three attempts allowed. *)
Example never_in_time :
  BaseAgent.execute_single_tool_call
    (BaseAgent.mkAgent {[ "stuck" := λ _ _, BaseAgent.Overruns ]} "30.0" 3)
    (BaseAgent.mkCall "call_1" "stuck" (BaseAgent.Loaded "{}"))
  = Some (mkMessage None None (Some "tool") "Tool call timed out after 30.0s"
            None (Some "call_1") (Some "stuck") None None).
Proof. vm_compute. reflexivity. Qed.

(** ** The system prompt *)

Lemma system_message_role (system_prompt : string) :
  m_role (BaseAgent.system_message system_prompt) = Some "system".
Proof. done. Qed.

(** X29.  [_prepare_messages_with_system_prompt] keeps the messages that
    are not system messages, all of them and in their order.  The only
    system message of its output is the one it builds from a non-empty
    prompt, and that one comes first.  Preparing its own output again
    with the same prompt changes nothing. *)
Theorem prepare_messages_one_system_prompt (messages : list Message)
    (system_prompt : option string) :
  let final_messages :=
    BaseAgent._prepare_messages_with_system_prompt messages system_prompt in
  filter (λ msg, m_role msg ≠ Some "system") final_messages
  = filter (λ msg, m_role msg ≠ Some "system") messages
  ∧ (∀ i msg,
       final_messages !! i = Some msg →
       m_role msg = Some "system" →
       i = 0%nat ∧ truthy system_prompt = true
       ∧ Some (m_content msg) = system_prompt)
  ∧ (truthy system_prompt = true →
     ∃ p, system_prompt = Some p
          ∧ final_messages !! 0%nat = Some (BaseAgent.system_message p))
  ∧ BaseAgent._prepare_messages_with_system_prompt final_messages system_prompt
    = final_messages.
Proof.
  set (conversation := filter (λ msg, m_role msg ≠ Some "system") messages).
  assert (filter (λ msg, m_role msg ≠ Some "system") conversation
          = conversation) as Hagain.
  { unfold conversation. rewrite list_filter_filter.
    apply list_filter_iff. tauto. }
  assert (∀ i msg, conversation !! i = Some msg →
                   m_role msg ≠ Some "system") as Hplain.
  { intros i msg Hmsg. apply list_elem_of_lookup_2 in Hmsg.
    by apply list_elem_of_filter in Hmsg as [? _]. }
  unfold BaseAgent._prepare_messages_with_system_prompt. fold conversation.
  destruct system_prompt as [p|]; [destruct (truthy (Some p)) eqn:Hp|]; simpl.
  - rewrite filter_cons_False by (intros Hrole; by apply Hrole).
    rewrite Hagain.
    split; [done|]. split; [|split; [by exists p | done]].
    intros [|i] msg Hmsg Hrole; simpl in Hmsg.
    + injection Hmsg as <-. done.
    + by destruct (Hplain i msg Hmsg).
  - rewrite Hagain.
    split; [done|]. split; [|done].
    intros i msg Hmsg Hrole. by destruct (Hplain i msg Hmsg).
  - rewrite Hagain.
    split; [done|]. split; [|done].
    intros i msg Hmsg Hrole. by destruct (Hplain i msg Hmsg).
Qed.

Example stale_system_messages_replaced :
  BaseAgent._prepare_messages_with_system_prompt
    [ BaseAgent.system_message "old prompt"; user_msg "u1" "hi" "01";
      BaseAgent.system_message "older prompt" ]
    (Some "new prompt")
  = [ BaseAgent.system_message "new prompt"; user_msg "u1" "hi" "01" ]
  ∧ BaseAgent._prepare_messages_with_system_prompt
      [ BaseAgent.system_message "old prompt"; user_msg "u1" "hi" "01" ]
      (Some "")
    = [ user_msg "u1" "hi" "01" ].
Proof. split; vm_compute; reflexivity. Qed.

(** ** Assembling a streamed response *)

Lemma string_app_assoc (s1 s2 s3 : string) :
  (s1 +:+ s2) +:+ s3 = s1 +:+ (s2 +:+ s3).
Proof.
  induction s1 as [|c s1 IH]; [done|].
  change (String c ((s1 +:+ s2) +:+ s3) = String c (s1 +:+ (s2 +:+ s3))).
  by rewrite IH.
Qed.

Lemma string_app_empty_r (s : string) : s +:+ "" = s.
Proof.
  induction s as [|c s IH]; [done|].
  change (String c (s +:+ "") = String c s). by rewrite IH.
Qed.

(** What one delta does to the entry of index [i]. *)
Lemma apply_delta_entry (tool_calls : list BaseAgent.assembled)
    (d : BaseAgent.tool_call_delta) (i : nat) :
  entry_at i (BaseAgent.apply_delta tool_calls d)
  = if decide (BaseAgent.delta_index d = i) then
      BaseAgent.mkAssembled
        (if truthy (BaseAgent.delta_id d) then BaseAgent.delta_id d
         else BaseAgent.as_id (entry_at i tool_calls))
        (if truthy (BaseAgent.delta_name d)
         then default "" (BaseAgent.delta_name d)
         else BaseAgent.as_name (entry_at i tool_calls))
        (if truthy (BaseAgent.delta_arguments d)
         then BaseAgent.as_arguments (entry_at i tool_calls)
              +:+ default "" (BaseAgent.delta_arguments d)
         else BaseAgent.as_arguments (entry_at i tool_calls))
    else entry_at i tool_calls.
Proof.
  unfold entry_at, BaseAgent.apply_delta.
  rewrite list_lookup_alter.
  case_decide as Hi.
  - subst i. rewrite lookup_app.
    destruct (tool_calls !! BaseAgent.delta_index d) as [tc|] eqn:Htc;
      [done|].
    apply lookup_ge_None in Htc.
    rewrite lookup_replicate_2 by lia. done.
  - rewrite lookup_app.
    destruct (tool_calls !! i) as [tc|] eqn:Htc; [done|].
    destruct (replicate _ _ !! _) as [tc|] eqn:Hblank; [|done].
    by apply lookup_replicate in Hblank as [-> _].
Qed.

Lemma apply_delta_fold (ds : list BaseAgent.tool_call_delta) (i : nat) :
  ∀ tool_calls,
    BaseAgent.as_arguments (entry_at i (foldl BaseAgent.apply_delta tool_calls ds))
    = BaseAgent.as_arguments (entry_at i tool_calls) +:+ fragments i ds
    ∧ BaseAgent.as_id (entry_at i (foldl BaseAgent.apply_delta tool_calls ds))
      = latest_id i (BaseAgent.as_id (entry_at i tool_calls)) ds.
Proof.
  induction ds as [|d ds IH]; intros tool_calls; simpl.
  { by rewrite string_app_empty_r. }
  destruct (IH (BaseAgent.apply_delta tool_calls d)) as [-> ->].
  rewrite apply_delta_entry. unfold fragment.
  case_decide as Hi; [|done]. simpl.
  split; [|done].
  destruct (truthy (BaseAgent.delta_arguments d)); [|done].
  by rewrite string_app_assoc.
Qed.

Lemma collect_fold (response : list BaseAgent.chunk) :
  ∀ tool_calls content_buffer yielded,
    foldl BaseAgent.collect_chunk (tool_calls, content_buffer, yielded) response
    = (foldl BaseAgent.apply_delta tool_calls (deltas response),
       content_buffer +:+ joined (contents response),
       yielded ++ contents response).
Proof.
  induction response as [|c response IH];
    intros tool_calls content_buffer yielded; simpl.
  { by rewrite string_app_empty_r, app_nil_r. }
  unfold deltas, contents. simpl. fold (deltas response) (contents response).
  rewrite foldl_app.
  destruct (truthy (BaseAgent.chunk_content c)) eqn:Hcontent; rewrite IH.
  - destruct (BaseAgent.chunk_content c) as [content|]; [|done]. simpl.
    by rewrite string_app_assoc, <- app_assoc.
  - done.
Qed.

(** X30.  The collecting loop of [_handle_streaming_response].  The
    content buffer is the concatenation of the content chunks it yielded,
    which are the non-empty contents of the stream in order.  The
    arguments of the assembled tool call of index [i] are the argument
    fragments that the stream carried for [i], joined in the order of
    arrival whatever came in between, and its id is the last non-empty id
    that the stream carried for [i]. *)
Theorem streamed_tool_calls_assembled (response : list BaseAgent.chunk) :
  let '(tool_calls, content_buffer, yielded) := BaseAgent.collect response in
  yielded = contents response
  ∧ content_buffer = joined yielded
  ∧ ∀ i,
      BaseAgent.as_arguments (entry_at i tool_calls)
      = fragments i (deltas response)
      ∧ BaseAgent.as_id (entry_at i tool_calls)
        = latest_id i None (deltas response).
Proof.
  unfold BaseAgent.collect. rewrite collect_fold. simpl.
  split; [done|]. split; [done|].
  intros i. destruct (apply_delta_fold (deltas response) i []) as [-> ->].
  done.
Qed.

Example interleaved_stream_assembled :
  BaseAgent.collect interleaved_stream
  = ([ BaseAgent.mkAssembled (Some "call_a") "faq" "{}";
       BaseAgent.mkAssembled (Some "call_b") "ticket" "{'id': 7}" ],
     "Let me check.", ["Let me "; "check."]).
Proof. vm_compute. reflexivity. Qed.
